(** * Yucca: the preprocessing / reverse-preprocessing pipeline

    A shallow embedding of [yucca/preprocessing/YuccaPreprocessor.py].

    Conventions of the embedding.
    - Python exceptions are values of [exn]; a computation that can raise
      returns a [result].  Methods of [YuccaPreprocessor] live in the monad
      [M], which threads a [world]: the heap of mutable objects (numpy
      buffers and dicts), the file system, the trace of observable effects
      and the attributes of the preprocessor object ([self]).
    - A numpy array is a shape together with an index function.  Arrays that
      the code aliases (the prediction batch, the canvas) are heap objects and
      are reached through views, as numpy's basic indexing produces them.
    - Integers are [Z].  Floating-point spacings are modelled by exact
      rationals [Q]; voxel intensities are an abstract type [V].
    - Functions of other packages (skimage, nibabel, cc3d, yuccalib) and
      [yucca.preprocessing.normalization.normalizer] are parameters,
      collected in the record [Externals]. *)

From Stdlib Require Import ZArith List Ascii String Bool Lia QArith Qround Qabs.
From stdpp Require Import base option list sorting gmap.
From stdpp Require Import strings.

Local Open Scope string_scope.
Local Open Scope Z_scope.

(** ** Exceptions and results *)

Inductive exn : Type :=
| AssertionError (msg : string)
| AttributeError (attr : string)
| KeyError (key : string)
| TypeError
| IndexError
| ValueError
| OverflowError
| UnboundLocalError (name : string)
| FileNotFoundError (path : string)
| ImageFileError (path : string).

Inductive result (A : Type) : Type :=
| Ok (a : A)
| Raise (e : exn).
Arguments Ok {A} a.
Arguments Raise {A} e.

Definition is_ok {A} (r : result A) : bool :=
  match r with Ok _ => true | Raise _ => false end.

Definition rbind {A B} (r : result A) (k : A -> result B) : result B :=
  match r with Ok a => k a | Raise e => Raise e end.

Fixpoint rmapM {A B} (f : A -> result B) (l : list A) : result (list B) :=
  match l with
  | [] => Ok []
  | x :: l' =>
      match f x with
      | Ok y => match rmapM f l' with Ok ys => Ok (y :: ys) | Raise e => Raise e end
      | Raise e => Raise e
      end
  end.

(** ** Python sequences *)

(** [l[i]] for a list, tuple or one-dimensional array: negative indices count
    from the end, anything else out of range raises [IndexError]. *)
Definition py_getitem {A} (l : list A) (i : Z) : result A :=
  let n := Z.of_nat (length l) in
  let j := if i <? 0 then i + n else i in
  if (0 <=? j) && (j <? n)
  then match l !! Z.to_nat j with Some x => Ok x | None => Raise IndexError end
  else Raise IndexError.

(** [a[idx]] where [idx] is an integer array (numpy's integer-array indexing
    of a one-dimensional array). *)
Definition np_take {A} (a : list A) (idx : list Z) : result (list A) :=
  rmapM (py_getitem a) idx.

Definition py_len {A} (l : list A) : Z := Z.of_nat (length l).

(** [range(n)] *)
Definition py_range (n : Z) : list Z := map Z.of_nat (seq 0 (Z.to_nat n)).

(** ** numpy arrays as values *)

Record ndarray (A : Type) : Type := NdArray { shape : list Z; data : list Z -> A }.
Arguments NdArray {A} shape data.
Arguments shape {A} n.
Arguments data {A} n i.

Definition ndim {A} (a : ndarray A) : Z := py_len (shape a).

Fixpoint in_bounds (sh : list Z) (i : list Z) : bool :=
  match sh, i with
  | [], [] => true
  | d :: sh', x :: i' => (0 <=? x) && (x <? d) && in_bounds sh' i'
  | _, _ => false
  end.

(** All indices of an array of shape [sh], in row-major (C) order. *)
Fixpoint all_indices (sh : list Z) : list (list Z) :=
  match sh with
  | [] => [[]]
  | d :: sh' => flat_map (fun x => map (cons x) (all_indices sh')) (py_range d)
  end.

Definition np_flatten {A} (a : ndarray A) : list A :=
  map (data a) (all_indices (shape a)).

(** One bound of a slice [start:stop] over an axis of length [n]. *)
Definition slice_bound (x n : Z) : Z :=
  if x <? 0 then Z.max (x + n) 0 else Z.min x n.

(** The offset and the length that [start:stop] selects on an axis of
    length [n] (step 1). *)
Definition slice_range (start stop n : Z) : Z * Z :=
  let lo := slice_bound start n in
  let hi := slice_bound stop n in
  (lo, Z.max (hi - lo) 0).

Fixpoint slice_shape (sl : list (Z * Z)) (sh : list Z) : list Z :=
  match sl, sh with
  | (s, e) :: sl', d :: sh' => snd (slice_range s e d) :: slice_shape sl' sh'
  | _, _ => sh
  end.

Fixpoint slice_index (sl : list (Z * Z)) (sh : list Z) (i : list Z) : list Z :=
  match sl, sh, i with
  | (s, e) :: sl', d :: sh', x :: i' =>
      (fst (slice_range s e d) + x) :: slice_index sl' sh' i'
  | _, _, _ => i
  end.

(** [a[s0:e0, s1:e1, ...]]: basic slicing of the leading axes. *)
Definition np_slice {A} (a : ndarray A) (sl : list (Z * Z)) : result (ndarray A) :=
  if (length (shape a) <? length sl)%nat then Raise IndexError
  else Ok (NdArray (slice_shape sl (shape a))
                   (fun i => data a (slice_index sl (shape a) i))).

(** An axis number as numpy normalises it. *)
Definition normalize_axis (n a : Z) : result Z :=
  if (- n <=? a) && (a <? n) then Ok (if a <? 0 then a + n else a)
  else Raise ValueError.

Fixpoint no_dup (l : list Z) : bool :=
  match l with
  | [] => true
  | x :: l' => negb (existsb (Z.eqb x) l') && no_dup l'
  end.

(** The position of axis [m] in the permutation [axes]. *)
Fixpoint position (m : Z) (axes : list Z) : nat :=
  match axes with
  | [] => 0%nat
  | a :: axes' => if a =? m then 0%nat else S (position m axes')
  end.

Definition nthZ (l : list Z) (k : nat) : Z := nth k l 0.

(** The index into the original array that index [i] of the transposed array
    reads: component [axes[k]] of it is [i[k]]. *)
Definition transpose_index (axes : list Z) (i : list Z) : list Z :=
  map (fun m => nthZ i (position (Z.of_nat m) axes)) (seq 0 (length axes)).

(** [a.transpose(axes)] *)
Definition np_transpose {A} (a : ndarray A) (axes : list Z) : result (ndarray A) :=
  if negb (length axes =? length (shape a))%nat then Raise ValueError
  else
    rbind (rmapM (normalize_axis (ndim a)) axes) (fun axes' =>
    if negb (no_dup axes') then Raise ValueError
    else Ok (NdArray (map (fun ax => nthZ (shape a) (Z.to_nat ax)) axes')
                     (fun i => data a (transpose_index axes' i)))).

(** [np.all(t == a)] for a tuple [t] and a one-dimensional array [a], with
    numpy's broadcasting of a length-1 operand; operands that do not
    broadcast make the comparison itself raise. *)
Definition np_all_eq (t a : list Z) : result bool :=
  if (length t =? length a)%nat then Ok (forallb (fun p => fst p =? snd p) (combine t a))
  else if (length t =? 1)%nat then Ok (forallb (Z.eqb (nthZ t 0)) a)
  else if (length a =? 1)%nat then Ok (forallb (Z.eqb (nthZ a 0)) t)
  else Raise ValueError.

(** The shape check of an assignment [target[...] = src]: the source must
    broadcast to the target's shape (axes aligned on the right, a source
    axis is the target's or 1; surplus leading source axes must be 1). *)
Fixpoint drop_leading_ones (n : nat) (s : list Z) : list Z :=
  match n, s with
  | S n', 1 :: s' => drop_leading_ones n' s'
  | _, _ => s
  end.

Definition broadcastable (src tgt : list Z) : bool :=
  let src' := drop_leading_ones (length src - length tgt) src in
  (length src' <=? length tgt)%nat &&
  forallb (fun p => (fst p =? snd p) || (fst p =? 1))
          (combine src' (drop (length tgt - length src') tgt)).

Definition broadcast_index (src tgt : list Z) (i : list Z) : list Z :=
  let src' := drop_leading_ones (length src - length tgt) src in
  let i' := drop (length tgt - length src') i in
  repeat 0 (length src - length src') ++
  map (fun p => if fst p =? 1 then 0 else snd p) (combine src' i').

(** [np.stack(arrays)] (also [np.array(list_of_arrays)]): the arrays must
    share one shape. *)
Definition np_stack {A} (dflt : A) (l : list (ndarray A)) : result (ndarray A) :=
  match l with
  | [] => Raise ValueError
  | a0 :: _ =>
      if forallb (fun a => bool_decide (shape a = shape a0)) l
      then Ok (NdArray (py_len l :: shape a0)
                 (fun i => match i with
                           | [] => dflt
                           | k :: i' => match l !! Z.to_nat k with
                                        | Some a => data a i'
                                        | None => dflt
                                        end
                           end))
      else Raise ValueError
  end.

(** [a[np.newaxis]] *)
Definition np_newaxis {A} (a : ndarray A) : ndarray A :=
  NdArray (1 :: shape a) (fun i => data a (tail i)).

(** [np.array(list_of_arrays)]: as [np.stack], except that the empty list
    gives the empty one-dimensional array. *)
Definition np_array_of_list {A} (dflt : A) (l : list (ndarray A)) : result (ndarray A) :=
  match l with
  | [] => Ok (NdArray [0] (fun _ => dflt))
  | _ => np_stack dflt l
  end.

(** [np.atleast_2d], which [np.vstack] applies to its operands. *)
Definition np_atleast_2d {A} (a : ndarray A) : ndarray A :=
  match shape a with
  | [] => NdArray [1; 1] (fun _ => data a [])
  | [n] => NdArray [1; n] (fun i => data a (tail i))
  | _ => a
  end.

(** [np.vstack((a, b))]: concatenation along the first axis. *)
Definition np_vstack {A} (a b : ndarray A) : result (ndarray A) :=
  let a' := np_atleast_2d a in
  let b' := np_atleast_2d b in
  match shape a', shape b' with
  | na :: ra, nb :: rb =>
      if bool_decide (ra = rb)
      then Ok (NdArray ((na + nb) :: ra)
                 (fun i => match i with
                           | k :: i' => if k <? na then data a' (k :: i')
                                        else data b' ((k - na) :: i')
                           | [] => data a' []
                           end))
      else Raise ValueError
  | _, _ => Raise ValueError
  end.

(** ** Floating-point helpers on exact rationals *)

(** [np.round]: to the nearest integer, ties to the even one. *)
Definition np_round (q : Q) : Z :=
  let f := Qfloor q in
  let r := (q - inject_Z f)%Q in
  match Qcompare r (1 # 2) with
  | Lt => f
  | Gt => f + 1
  | Eq => if Z.even f then f else f + 1
  end.

(** What [astype(int)] gives for an infinity or a NaN (64-bit platforms). *)
Definition INT64_MIN : Z := - 2 ^ 63.

(** One axis of
    [np.round((original_spacing_t / target_spacing_t).astype(float) * shape_t).astype(int)];
    a zero target spacing makes the quotient infinite or NaN. *)
Definition round_scaled (os ts : Q) (n : Z) : Z :=
  if Qeq_bool ts 0 then INT64_MIN
  else np_round ((os / ts) * inject_Z n)%Q.

Fixpoint zip3_with {A B C D} (f : A -> B -> C -> D)
    (la : list A) (lb : list B) (lc : list C) : list D :=
  match la, lb, lc with
  | a :: la', b :: lb', c :: lc' => f a b c :: zip3_with f la' lb' lc'
  | _, _, _ => []
  end.

(** [np.allclose(a, b)] with the default tolerances
    ([rtol = 1e-05], [atol = 1e-08]): [|a - b| <= atol + rtol * |b|]
    elementwise, a length-1 operand being broadcast. *)
Definition isclose (a b : Q) : bool :=
  Qle_bool (Qabs (a - b)) ((1 # 100000000) + (1 # 100000) * Qabs b)%Q.

Definition np_allclose (a b : list Q) : result bool :=
  if (length a =? length b)%nat
  then Ok (forallb (fun p => isclose (fst p) (snd p)) (combine a b))
  else match a, b with
       | [x], _ => Ok (forallb (fun y => isclose x y) b)
       | _, [y] => Ok (forallb (fun x => isclose x y) a)
       | _, _ => Raise ValueError
       end.

(** ** Paths and strings *)

(** [os.path.join(a, b)] on POSIX paths. *)
Definition path_join (a b : string) : string :=
  match b with
  | String "/" _ => b
  | _ => if bool_decide (a = "") then b
         else match last (list_ascii_of_string a) with
              | Some "/"%char => a +:+ b
              | _ => a +:+ "/" +:+ b
              end
  end.

(** [os.path.split(p)[-1]]: what follows the last slash. *)
Fixpoint basename_aux (acc : string) (l : list ascii) : string :=
  match l with
  | [] => acc
  | c :: l' => if bool_decide (c = "/"%char) then basename_aux "" l'
               else basename_aux (acc +:+ String c "") l'
  end.

Definition basename (p : string) : string := basename_aux "" (list_ascii_of_string p).

Definition startswith (s pre : string) : bool := String.prefix pre s.

(** [s[:-n]]: everything but the last [n] characters. *)
Definition drop_last_chars (n : nat) (s : string) : string :=
  string_of_list_ascii (take (length (list_ascii_of_string s) - n) (list_ascii_of_string s)).

(** ** Data model *)

(** A NIfTI volume as nibabel loads it: header fields and voxel data. *)
Record nib_image (V : Type) : Type := NibImage {
  img_shape : list Z;
  img_zooms : list Q;
  img_affine : list (list Q);
  img_qform : list (list Q);
  img_qform_code : Z;
  img_sform : list (list Q);
  img_sform_code : Z;
  img_dataobj : list Z -> V
}.
Arguments NibImage {V}.
Arguments img_shape {V}.
Arguments img_zooms {V}.
Arguments img_affine {V}.
Arguments img_qform {V}.
Arguments img_qform_code {V}.
Arguments img_sform {V}.
Arguments img_sform_code {V}.
Arguments img_dataobj {V}.

(** The values an ImageProperties dict holds. *)
Inductive propval : Type :=
| PInts (l : list Z)
| PInt (z : Z)
| PFloats (l : list Q)
| PMatrix (m : list (list Q))
| PBool (b : bool)
| PStr (s : string)
| PStrs (l : list string)
| PIndices (l : list (list Z)).

(** The plans file (a JSON object).  [target_coordinate_system] is the one
    key the code reads with [.get], so its absence is represented. *)
Record Plans (V : Type) : Type := MkPlans {
  plans_name : string;
  plans_crop_to_nonzero : bool;
  plans_normalization_scheme : list string;
  plans_transpose_forward : list Z;
  plans_transpose_backward : list Z;
  plans_target_spacing : list Q;
  plans_target_coordinate_system : option string;
  plans_classes : list V;
  plans_data_dimensions : Z;
  plans_intensities : list (gmap string Q)
}.
Arguments MkPlans {V}.
Arguments plans_name {V}.
Arguments plans_crop_to_nonzero {V}.
Arguments plans_normalization_scheme {V}.
Arguments plans_transpose_forward {V}.
Arguments plans_transpose_backward {V}.
Arguments plans_target_spacing {V}.
Arguments plans_target_coordinate_system {V}.
Arguments plans_classes {V}.
Arguments plans_data_dimensions {V}.
Arguments plans_intensities {V}.

(** The attributes of a [YuccaPreprocessor] object.  Attributes that only
    [initialize_properties] or [initialize_paths] create are optional. *)
Record preprocessor (V : Type) : Type := MkPreprocessor {
  task : string;
  plans : Plans V;
  disable_unittests : bool;
  transpose_forward : list Z;
  transpose_backward : list Z;
  target_spacing : list Q;
  intensities : option (list (gmap string Q));
  target_dir : option string;
  input_dir : option string;
  imagepaths : option (list string)
}.
Arguments MkPreprocessor {V}.
Arguments task {V}.
Arguments plans {V}.
Arguments disable_unittests {V}.
Arguments transpose_forward {V}.
Arguments transpose_backward {V}.
Arguments target_spacing {V}.
Arguments intensities {V}.
Arguments target_dir {V}.
Arguments input_dir {V}.
Arguments imagepaths {V}.

(** [YuccaPreprocessor.__init__] *)
Definition init_preprocessor {V} (plans : Plans V) (task : string)
    (disable_unittests : bool) : preprocessor V :=
  MkPreprocessor task plans disable_unittests [] [] [] None None None None.

(** Files, as far as the preprocessor reads and writes them. *)
Inductive file (V : Type) : Type :=
| FNifti (img : nib_image V)
| FNpy (a : ndarray V)
| FPkl (d : gmap string propval).
Arguments FNifti {V}.
Arguments FNpy {V}.
Arguments FPkl {V}.

(** Heap objects: numpy buffers and dicts. *)
Inductive obj (V : Type) : Type :=
| OArray (a : ndarray V)
| ODict (d : gmap string propval).
Arguments OArray {V}.
Arguments ODict {V}.

Definition loc := positive.

(** Observable effects, in the order they happen. *)
Inductive event : Type :=
| EvPrint (msg : string)
| EvLoad (path : string)
| EvResize (in_shape out_shape : list Z) (order : Z)
| EvSave (path : string).

Record world (V : Type) : Type := World {
  heap : gmap loc (obj V);
  files : gmap string (file V);
  trace : list event;
  self : preprocessor V
}.
Arguments World {V}.
Arguments heap {V}.
Arguments files {V}.
Arguments trace {V}.
Arguments self {V}.

(** ** The monad of methods *)

Definition M (V A : Type) : Type := world V -> result A * world V.

Definition ret {V A} (a : A) : M V A := fun w => (Ok a, w).
Definition raise {V A} (e : exn) : M V A := fun w => (Raise e, w).
Definition lift {V A} (r : result A) : M V A := fun w => (r, w).
Definition bind {V A B} (m : M V A) (k : A -> M V B) : M V B :=
  fun w => match m w with
           | (Ok a, w') => k a w'
           | (Raise e, w') => (Raise e, w')
           end.

Declare Scope py_scope.
Delimit Scope py_scope with py.
Notation "'let*' x ':=' m 'in' k" := (bind m (fun x => k))
  (at level 10, x pattern, m at level 100, k at level 200) : py_scope.
Notation "m ';;' k" := (bind m (fun _ => k))
  (at level 100, k at level 200, right associativity) : py_scope.

Local Open Scope py_scope.

(** [assert cond, msg] *)
Definition py_assert {V} (cond : bool) (msg : string) : M V unit :=
  if cond then ret tt else raise (AssertionError msg).

(** [try: body except OverflowError: handler] *)
Definition try_except_OverflowError {V A} (body handler : M V A) : M V A :=
  fun w => match body w with
           | (Raise OverflowError, w') => handler w'
           | r => r
           end.

(** [for x in xs: body] *)
Fixpoint py_for {V A} (xs : list A) (body : A -> M V unit) : M V unit :=
  match xs with
  | [] => ret tt
  | x :: xs' => body x ;; py_for xs' body
  end.

(** [[f(x) for x in xs]] *)
Fixpoint py_map {V A B} (f : A -> M V B) (xs : list A) : M V (list B) :=
  match xs with
  | [] => ret []
  | x :: xs' => let* y := f x in let* ys := py_map f xs' in ret (y :: ys)
  end.

Definition emit {V} (e : event) : M V unit :=
  fun w => (Ok tt, World (heap w) (files w) (trace w ++ [e]) (self w)).

Definition print {V} (msg : string) : M V unit := emit (EvPrint msg).

Definition get_self {V} : M V (preprocessor V) := fun w => (Ok (self w), w).

Definition set_self {V} (s : preprocessor V) : M V unit :=
  fun w => (Ok tt, World (heap w) (files w) (trace w) s).

(** An attribute that may not exist yet. *)
Definition getattr {V A} (name : string) (o : option A) : M V A :=
  match o with Some a => ret a | None => raise (AttributeError name) end.

(** ** Views into heap arrays *)

(** What basic indexing does to one axis of the underlying buffer: an
    integer index fixes it, a slice keeps a window of it. *)
Inductive axis : Type :=
| AFixed (c : Z)
| ARange (lo len : Z).

Record view : Type := View { base : loc; axes : list axis }.

Fixpoint axes_shape (ax : list axis) : list Z :=
  match ax with
  | [] => []
  | AFixed _ :: r => axes_shape r
  | ARange _ len :: r => len :: axes_shape r
  end.

Definition view_shape (v : view) : list Z := axes_shape (axes v).

(** The buffer index a view index denotes. *)
Fixpoint to_base (ax : list axis) (i : list Z) : list Z :=
  match ax with
  | [] => []
  | AFixed c :: r => c :: to_base r i
  | ARange lo _ :: r =>
      match i with
      | x :: i' => (lo + x) :: to_base r i'
      | [] => lo :: to_base r []
      end
  end.

(** The view index of a buffer index, when the view covers it. *)
Fixpoint of_base (ax : list axis) (j : list Z) : option (list Z) :=
  match ax, j with
  | [], [] => Some []
  | AFixed c :: r, x :: j' => if x =? c then of_base r j' else None
  | ARange lo len :: r, x :: j' =>
      if (lo <=? x) && (x <? lo + len)
      then match of_base r j' with Some i => Some ((x - lo) :: i) | None => None end
      else None
  | _, _ => None
  end.

(** [v[k]] for an integer [k]: fixes the first axis still free. *)
Fixpoint axes_getitem (ax : list axis) (k : Z) : result (list axis) :=
  match ax with
  | [] => Raise IndexError
  | AFixed c :: r =>
      match axes_getitem r k with Ok r' => Ok (AFixed c :: r') | Raise e => Raise e end
  | ARange lo len :: r =>
      let j := if k <? 0 then k + len else k in
      if (0 <=? j) && (j <? len) then Ok (AFixed (lo + j) :: r) else Raise IndexError
  end.

(** [v[k0, k1, ...]] *)
Fixpoint axes_index (ax : list axis) (ks : list Z) : result (list axis) :=
  match ks with
  | [] => Ok ax
  | k :: ks' =>
      match axes_getitem ax k with Ok ax' => axes_index ax' ks' | Raise e => Raise e end
  end.

Definition view_index (v : view) (ks : list Z) : result view :=
  match axes_index (axes v) ks with
  | Ok ax => Ok (View (base v) ax)
  | Raise e => Raise e
  end.

(** [v[s0:e0, s1:e1, ...]]: each slice narrows the next free axis. *)
Fixpoint axes_slice (ax : list axis) (sl : list (Z * Z)) : result (list axis) :=
  match sl with
  | [] => Ok ax
  | (s, e) :: sl' =>
      match ax with
      | [] => Raise IndexError
      | AFixed c :: r =>
          match axes_slice r sl with Ok r' => Ok (AFixed c :: r') | Raise e => Raise e end
      | ARange lo len :: r =>
          let (off, len') := slice_range s e len in
          match axes_slice r sl' with
          | Ok r' => Ok (ARange (lo + off) len' :: r')
          | Raise e => Raise e
          end
      end
  end.

Definition view_slice (v : view) (sl : list (Z * Z)) : result view :=
  match axes_slice (axes v) sl with
  | Ok ax => Ok (View (base v) ax)
  | Raise e => Raise e
  end.

(** ** Voxel values and the functions of other packages *)

Class Voxel (V : Type) : Type := {
  zero : V;
  float32 : V -> V;
  voxel_eq_dec :: EqDecision V
}.

Class Externals (V : Type) : Type := {
  (** [skimage.transform.resize(image, output_shape, order, anti_aliasing)] *)
  resize : ndarray V -> list Z -> Z -> option bool -> result (ndarray V);
  (** [yucca.preprocessing.normalization.normalizer(image, scheme, intensities)] *)
  normalizer : ndarray V -> string -> gmap string Q -> result (ndarray V);
  (** [yuccalib.image_processing.objects.BoundingBox] *)
  get_bbox_for_foreground : ndarray V -> V -> result (list Z);
  (** [yuccalib.image_processing.cropping_and_padding] *)
  crop_to_box : ndarray V -> list Z -> result (ndarray V);
  pad_to_size : ndarray V -> list Z -> result (ndarray V * list Z);
  (** [yuccalib.utils.nib_utils] and [yuccalib.utils.type_conversions] *)
  get_nib_spacing : nib_image V -> list Q;
  get_nib_orientation : nib_image V -> string;
  reorient_nib_image : nib_image V -> string -> string -> result (nib_image V);
  nib_to_np : nib_image V -> ndarray V;
  (** [cc3d.connected_components(labels, connectivity=26, return_N=True)] *)
  connected_components : ndarray V -> ndarray Z * Z;
  (** [yucca.paths] *)
  yucca_preprocessed : string;
  yucca_raw_data : string
}.

Section Preprocessor.
Context {V : Type} `{!Voxel V} `{!Externals V}.

(** *** Heap operations *)

(** [np.zeros(shape)]: a fresh buffer. *)
Definition np_zeros (sh : list Z) : M V view :=
  fun w =>
    if forallb (Z.leb 0) sh
    then let l := fresh (dom (heap w)) in
         (Ok (View l (map (ARange 0) sh)),
          World (<[l := OArray (NdArray sh (fun _ => zero))]> (heap w))
                (files w) (trace w) (self w))
    else (Raise ValueError, w).

(** The current contents of a view, as a value. *)
Definition view_read (v : view) : M V (ndarray V) :=
  fun w =>
    match heap w !! base v with
    | Some (OArray a) =>
        (Ok (NdArray (view_shape v) (fun i => data a (to_base (axes v) i))), w)
    | _ => (Raise TypeError, w)
    end.

(** [v[...] = src]: writes through the view into its buffer. *)
Definition view_assign (v : view) (src : ndarray V) : M V unit :=
  fun w =>
    match heap w !! base v with
    | Some (OArray a) =>
        if broadcastable (shape src) (view_shape v)
        then (Ok tt,
              World (<[base v :=
                        OArray (NdArray (shape a)
                          (fun j => match of_base (axes v) j with
                                    | Some i =>
                                        data src (broadcast_index (shape src)
                                                                  (view_shape v) i)
                                    | None => data a j
                                    end))]> (heap w))
                    (files w) (trace w) (self w))
        else (Raise ValueError, w)
    | _ => (Raise TypeError, w)
    end.

(** [d[key]] for a dict on the heap. *)
Definition dict_getitem (d : loc) (key : string) : M V propval :=
  fun w =>
    match heap w !! d with
    | Some (ODict m) =>
        match m !! key with
        | Some v => (Ok v, w)
        | None => (Raise (KeyError key), w)
        end
    | _ => (Raise TypeError, w)
    end.

(** A dict entry used as a sequence of integers. *)
Definition as_ints (v : propval) : result (list Z) :=
  match v with PInts l => Ok l | _ => Raise TypeError end.

Definition dict_getitem_ints (d : loc) (key : string) : M V (list Z) :=
  let* v := dict_getitem d key in lift (as_ints v).

(** A call of [resize], recorded in the trace. *)
Definition call_resize (image : ndarray V) (output_shape : list Z) (order : Z)
    (anti_aliasing : option bool) : M V (ndarray V) :=
  emit (EvResize (shape image) output_shape order) ;;
  lift (resize image output_shape order anti_aliasing).

(** *** [reverse_preprocessing] (lines 348-400) *)

(** Lines 379-382: undo the padding. *)
Definition strip_padding (image : view) (pad : list Z) : result view :=
  let shape_ := view_shape image in
  let bound k := rbind (py_getitem pad (2 * k)) (fun p0 =>
                 rbind (py_getitem shape_ k) (fun sk =>
                 rbind (py_getitem pad (2 * k + 1)) (fun p1 =>
                 Ok (p0, sk - p1)))) in
  if 5 <? py_len pad
  then rbind (rmapM bound [0; 1; 2]) (view_slice image)
  else if py_len pad <? 5
  then rbind (rmapM bound [0; 1]) (view_slice image)
  else Ok image.

(** Lines 395-398: the slices of the bounding box. *)
Definition bbox_slices (bbox : list Z) : result (list (Z * Z)) :=
  let sl k := rbind (py_getitem bbox (2 * k)) (fun lo =>
              rbind (py_getitem bbox (2 * k + 1)) (fun hi => Ok (lo, hi))) in
  if 5 <? py_len bbox then rmapM sl [0; 1; 2]
  else if py_len bbox <? 5 then rmapM sl [0; 1]
  else Raise (UnboundLocalError "slices").

Definition reverse_channel (images : view) (image_properties : loc) (canvas : view)
    (shape_after_crop_transposed pad : list Z) (b c : Z) : M V unit :=
  let* this := get_self in
  let* image := lift (view_index images [b; c]) in
  let* padded_shape := dict_getitem_ints image_properties "padded_shape" in
  let* same := lift (np_all_eq (view_shape image) padded_shape) in
  py_assert same "Reversing padding: image should be of shape: padded_shape" ;;
  let* image := lift (strip_padding image pad) in
  let* resampled_transposed_shape :=
    dict_getitem_ints image_properties "resampled_transposed_shape" in
  let* same := lift (np_all_eq (view_shape image) resampled_transposed_shape) in
  py_assert same
    "Reversing resampling and tranposition: image should be of shape: resampled_transposed_shape" ;;
  let* image := view_read image in
  let* image := call_resize image shape_after_crop_transposed 3 None in
  let* image := lift (np_transpose image (transpose_backward this)) in
  let* cropped_shape := dict_getitem_ints image_properties "cropped_shape" in
  let* same := lift (np_all_eq (shape image) cropped_shape) in
  py_assert same "Reversing cropping: image should be of shape: cropped_shape" ;;
  if plans_crop_to_nonzero (plans this)
  then
    let* bbox := dict_getitem_ints image_properties "nonzero_box" in
    let* slices := lift (bbox_slices bbox) in
    let* target := lift (view_index canvas [b; c]) in
    let* target := lift (view_slice target slices) in
    view_assign target image
  else ret tt.

Definition reverse_preprocessing (images : view) (image_properties : loc) : M V view :=
  let* this := get_self in
  let nclasses := py_len (plans_classes (plans this)) in
  let* original_shape := dict_getitem image_properties "original_shape" in
  let* uncropped_shape := dict_getitem_ints image_properties "uncropped_shape" in
  let* canvas := np_zeros (1 :: nclasses :: uncropped_shape) in
  let* shape_after_crop := dict_getitem_ints image_properties "cropped_shape" in
  let* shape_after_crop_transposed :=
    lift (np_take shape_after_crop (transpose_forward this)) in
  let* pad := dict_getitem_ints image_properties "padding" in
  let* nb := lift (py_getitem (view_shape images) 0) in
  py_for (py_range nb) (fun b =>
    let* nc := lift (py_getitem (view_shape images) 1) in
    py_for (py_range nc) (fun c =>
      reverse_channel images image_properties canvas
        shape_after_crop_transposed pad b c)) ;;
  ret canvas.

(** *** File system *)

Definition isfile (path : string) : M V bool :=
  fun w => (Ok (bool_decide (is_Some (files w !! path))), w).

(** [nib.load(path)] *)
Definition nib_load (path : string) : M V (nib_image V) :=
  emit (EvLoad path) ;;
  fun w =>
    match files w !! path with
    | Some (FNifti img) => (Ok img, w)
    | Some _ => (Raise (ImageFileError path), w)
    | None => (Raise (FileNotFoundError path), w)
    end.

Definition write_file (path : string) (f : file V) : M V unit :=
  emit (EvSave path) ;;
  fun w => (Ok tt, World (heap w) (<[path := f]> (files w)) (trace w) (self w)).

(** [np.save(path, array)]; every path the code saves to ends in [.npy]. *)
Definition np_save (path : string) (a : ndarray V) : M V unit := write_file path (FNpy a).

(** [save_pickle(obj, path)] *)
Definition save_pickle (d : gmap string propval) (path : string) : M V unit :=
  write_file path (FPkl d).

(** *** [initialize_properties] (lines 61-72) *)

Definition initialized (this : preprocessor V) : preprocessor V :=
  MkPreprocessor (task this) (plans this) (disable_unittests this)
    (plans_transpose_forward (plans this))
    (plans_transpose_backward (plans this))
    (plans_target_spacing (plans this))
    (Some (plans_intensities (plans this)))
    (target_dir this) (input_dir this) (imagepaths this).

Definition initialize_properties : M V unit :=
  let* this := get_self in
  set_self (initialized this).

(** *** [_resample_and_normalize_case] (lines 231-275) *)

(** Lines 258-259. *)
Definition target_shape_of (original_spacing_t target_spacing_t : list Q)
    (shape_t : list Z) : list Z :=
  zip3_with round_scaled original_spacing_t target_spacing_t shape_t.

(** Lines 263-266: resample one intensity array. *)
Definition resample_image (target_shape : list Z) (image : ndarray V) : M V (ndarray V) :=
  try_except_OverflowError
    (call_resize image target_shape 3 None)
    (print "Unexpected values in either shape or image for resize" ;; ret image).

(** Lines 269-272: resample the label array. *)
Definition resample_seg (target_shape : list Z) (seg : ndarray V) : M V (ndarray V) :=
  try_except_OverflowError
    (call_resize seg target_shape 0 (Some false))
    (print "Unexpected values in either shape or seg for resize" ;; ret seg).

Definition _resample_and_normalize_case (images : list (ndarray V))
    (seg : option (ndarray V)) (norm_op : list string) (transpose : list Z)
    (original_spacing target_spacing : list Q)
  : M V (list (ndarray V) * option (ndarray V)) :=
  let* this := get_self in
  let* intensities_ := getattr "intensities" (intensities this) in
  py_assert ((py_len images =? py_len norm_op) && (py_len norm_op =? py_len intensities_))
    "number of images, normalization  operations and intensities does not match." ;;
  let* images :=
    py_map (fun i =>
      let* image := lift (py_getitem images i) in
      let* scheme := lift (py_getitem norm_op i) in
      let* stats := lift (py_getitem intensities_ i) in
      let* image := lift (normalizer image scheme stats) in
      (* the message of this assertion evaluates [len(images[i]).shape] *)
      (if ndim image =? py_len transpose then ret tt else raise (AttributeError "shape")) ;;
      lift (np_transpose image transpose))
      (py_range (py_len images)) in
  let* scheme0 := lift (py_getitem norm_op 0) in
  print ("Normalized with: " +:+ scheme0) ;;
  let* image0 := lift (py_getitem images 0) in
  let shape_t := shape image0 in
  let* original_spacing_t := lift (np_take original_spacing transpose) in
  let* target_spacing_t := lift (np_take target_spacing transpose) in
  let target_shape := target_shape_of original_spacing_t target_spacing_t shape_t in
  let* images := py_map (resample_image target_shape) images in
  match seg with
  | Some seg =>
      let* seg := lift (np_transpose seg transpose) in
      let* seg := resample_seg target_shape seg in
      ret (images, Some seg)
  | None => ret (images, None)
  end.

(** *** [preprocess_case_for_inference] (lines 277-346) *)

(** Python truthiness of a header code and of [plans.get(key)]. *)
Definition truthy_code (c : Z) : bool := negb (c =? 0).
Definition truthy_str (s : option string) : bool :=
  match s with Some s => negb (bool_decide (s = "")) | None => false end.

(** [torch.tensor(images, dtype=torch.float32)] *)
Definition torch_tensor (a : ndarray V) : ndarray V :=
  NdArray (shape a) (fun i => float32 (data a i)).

(** Lines 303-314: reorient when the header can be trusted. *)
Definition orient_case_for_inference (images : list (nib_image V)) (image0 : nib_image V)
    (image_properties : gmap string propval)
  : M V (list (nib_image V) * gmap string propval) :=
  let* this := get_self in
  if truthy_code (img_qform_code image0)
     || (truthy_code (img_sform_code image0)
         && truthy_str (plans_target_coordinate_system (plans this)))
  then
    let image_properties := <["reoriented" := PBool true]> image_properties in
    let original_orientation := get_nib_orientation image0 in
    let image_properties :=
      <["original_orientation" := PStr original_orientation]> image_properties in
    let* images :=
      py_map (fun image =>
        let* target :=
          match plans_target_coordinate_system (plans this) with
          | Some t => ret t
          | None => raise (KeyError "target_coordinate_system")
          end in
        lift (reorient_nib_image image original_orientation target)) images in
    let* image0 := lift (py_getitem images 0) in
    ret (images,
         <["new_orientation" := PStr (get_nib_orientation image0)]> image_properties)
  else
    print "Insufficient header information. Reorientation will not be attempted." ;;
    ret (images, <["reoriented" := PBool false]> image_properties).

Definition preprocess_case_for_inference (images : list string) (patch_size : list Z)
  : M V (ndarray V * gmap string propval) :=
  initialize_properties ;;
  let* this := get_self in
  let image_properties : gmap string propval := ∅ in
  let* images := py_map nib_load images in
  let* image0 := lift (py_getitem images 0) in
  let original_spacing := get_nib_spacing image0 in
  let image_properties := <["original_spacing" := PFloats original_spacing]> image_properties in
  let image_properties := <["original_shape" := PInts (img_shape image0)]> image_properties in
  let image_properties := <["qform" := PMatrix (img_qform image0)]> image_properties in
  let image_properties := <["sform" := PMatrix (img_sform image0)]> image_properties in
  py_assert (bool_decide (py_len (img_shape image0) ∈ [2; 3]))
    "images must be either 2D or 3D for preprocessing" ;;
  let* (images, image_properties) :=
    orient_case_for_inference images image0 image_properties in
  let* image0 := lift (py_getitem images 0) in
  let image_properties := <["affine" := PMatrix (img_affine image0)]> image_properties in
  let images := map nib_to_np images in
  let* image0 := lift (py_getitem images 0) in
  let image_properties := <["uncropped_shape" := PInts (shape image0)]> image_properties in
  let* (images, image_properties) :=
    if plans_crop_to_nonzero (plans this)
    then
      let* nonzero_box := lift (get_bbox_for_foreground image0 zero) in
      let* images := py_map (fun image => lift (crop_to_box image nonzero_box)) images in
      ret (images, <["nonzero_box" := PInts nonzero_box]> image_properties)
    else ret (images, image_properties) in
  let* image0 := lift (py_getitem images 0) in
  let image_properties := <["cropped_shape" := PInts (shape image0)]> image_properties in
  let* (images, _) :=
    _resample_and_normalize_case images None
      (plans_normalization_scheme (plans this)) (transpose_forward this)
      original_spacing (target_spacing this) in
  let* image0 := lift (py_getitem images 0) in
  let image_properties :=
    <["resampled_transposed_shape" := PInts (shape image0)]> image_properties in
  let* padded := py_map (fun image => lift (pad_to_size image patch_size)) images in
  let images := map fst padded in
  let* padding := lift (py_getitem (map snd padded) (-1)) in
  let* image0 := lift (py_getitem images 0) in
  let image_properties := <["padded_shape" := PInts (shape image0)]> image_properties in
  let image_properties := <["padding" := PInts padding]> image_properties in
  let* stacked := lift (np_stack zero images) in
  ret (torch_tensor (np_newaxis stacked), image_properties).

(** *** [_preprocess_train_subject] (lines 91-229) *)

(** [np.unique(a)] as a set of values (their order does not matter to the
    membership test it feeds). *)
Definition np_unique (a : ndarray V) : list V := remove_dups (np_flatten a).

(** [np.all(np.isin(actual, expected))] *)
Definition np_all_isin (actual expected : list V) : bool :=
  forallb (fun x => bool_decide (x ∈ expected)) actual.

(** [a[-1]]: the last entry along the first axis. *)
Definition np_last {A} (a : ndarray A) : result (ndarray A) :=
  match shape a with
  | n :: sh => if 0 <? n then Ok (NdArray sh (fun i => data a ((n - 1) :: i)))
               else Raise IndexError
  | [] => Raise IndexError
  end.

(** [l[::10]] *)
Fixpoint every_10th_from {A} (skip : nat) (l : list A) : list A :=
  match l with
  | [] => []
  | x :: l' =>
      match skip with
      | O => x :: every_10th_from 9 l'
      | S k => every_10th_from k l'
      end
  end.

Definition every_10th {A} (l : list A) : list A := every_10th_from 0 l.

(** [np.array(np.nonzero(a)).T[::10]] *)
Definition foreground_locations (a : ndarray V) : list (list Z) :=
  every_10th (filter (fun i => data a i ≠ zero) (all_indices (shape a))).

(** [np.unique(a, return_counts=True)[-1]]: how often each value occurs, in
    the order of the sorted values. *)
Definition np_unique_counts (a : ndarray Z) : list Z :=
  let values := np_flatten a in
  map (fun v => py_len (filter (fun x => x = v) values))
      (merge_sort Z.le (remove_dups values)).

Definition Qprod (l : list Q) : Q := fold_right Qmult 1%Q l.

(** Lines 101-113: find the modality files of the subject and its label
    file, and load them. *)
Definition load_train_subject (subject_id : string)
  : M V (gmap string propval * list (nib_image V) * nib_image V) :=
  let* this := get_self in
  let image_props : gmap string propval := ∅ in
  let* all_paths := getattr "imagepaths" (imagepaths this) in
  let imagepaths_ :=
    filter (fun impath => startswith (basename impath) (subject_id +:+ "_") = true) all_paths in
  let image_props := <["image files" := PStrs imagepaths_]> image_props in
  let* images := py_map nib_load imagepaths_ in
  let* input_dir_ := getattr "input_dir" (input_dir this) in
  let seg := path_join (path_join input_dir_ "labelsTr") (subject_id +:+ ".nii.gz") in
  let image_props := <["segmentation file" := PStr seg]> image_props in
  let* seg := nib_load seg in
  ret (image_props, images, seg).

(** Lines 115-146: the consistency checks of a case. *)
Definition validate_train_subject (subject_id : string)
    (images : list (nib_image V)) (seg : nib_image V) : M V unit :=
  let* this := get_self in
  if disable_unittests this then ret tt
  else
    py_assert (0 <? py_len images) ("found no images for " +:+ subject_id +:+ "_") ;;
    let* image0 := lift (py_getitem images 0) in
    py_assert (py_len (img_shape image0) =? plans_data_dimensions (plans this))
      "image should be shape (x, y(, z))" ;;
    py_assert (bool_decide (img_shape image0 = img_shape seg))
      ("Sizes do not match for " +:+ subject_id) ;;
    let* close := lift (np_allclose (get_nib_spacing image0) (get_nib_spacing seg)) in
    py_assert close ("Spacings do not match for " +:+ subject_id) ;;
    py_assert (bool_decide (get_nib_orientation image0 = get_nib_orientation seg))
      ("Directions do not match for " +:+ subject_id) ;;
    if 1 <? py_len images
    then
      py_for images (fun image =>
        py_assert (bool_decide (img_shape image0 = img_shape image))
          ("Sizes do not match for " +:+ subject_id) ;;
        let* close := lift (np_allclose (get_nib_spacing image0) (get_nib_spacing image)) in
        py_assert close ("Spacings do not match for " +:+ subject_id) ;;
        py_assert (bool_decide (get_nib_orientation image0 = get_nib_orientation image))
          ("Directions do not match for " +:+ subject_id))
    else ret tt.

(** Lines 151-154: the spacing to resample to. *)
Definition choose_target_spacing (this : preprocessor V) (original_spacing : list Q) : list Q :=
  if 0 <? py_len (target_spacing this) then target_spacing this else original_spacing.

(** Lines 156-168: reorient when the header can be trusted. *)
Definition orient_train_subject (images : list (nib_image V)) (seg : nib_image V)
  : M V (string * string * list (ndarray V) * ndarray V) :=
  let* this := get_self in
  let* image0 := lift (py_getitem images 0) in
  if truthy_code (img_qform_code image0) || truthy_code (img_sform_code image0)
  then
    let original_orientation := get_nib_orientation image0 in
    let* final_direction :=
      match plans_target_coordinate_system (plans this) with
      | Some t => ret t
      | None => raise (KeyError "target_coordinate_system")
      end in
    let* images :=
      py_map (fun image =>
        let* r := lift (reorient_nib_image image original_orientation final_direction) in
        ret (nib_to_np r)) images in
    let* seg := lift (reorient_nib_image seg original_orientation final_direction) in
    ret (original_orientation, final_direction, images, nib_to_np seg)
  else
    ret ("INVALID", "INVALID", map nib_to_np images, nib_to_np seg).

(** Lines 170-175: the label values must be declared classes. *)
Definition check_labels (subject_id : string) (seg : ndarray V) : M V unit :=
  let* this := get_self in
  let expected_labels := map float32 (plans_classes (plans this)) in
  let actual_labels := map float32 (np_unique seg) in
  py_assert (np_all_isin actual_labels expected_labels)
    ("Unexpected labels found for " +:+ subject_id).

(** Lines 177-185: crop to the foreground of the first modality. *)
Definition crop_train_subject (image_props : gmap string propval)
    (images : list (ndarray V)) (seg : ndarray V)
  : M V (gmap string propval * list (ndarray V) * ndarray V) :=
  let* this := get_self in
  if plans_crop_to_nonzero (plans this)
  then
    let* image0 := lift (py_getitem images 0) in
    let* nonzero_box := lift (get_bbox_for_foreground image0 zero) in
    let image_props := <["crop_to_nonzero" := PInts nonzero_box]> image_props in
    let* images := py_map (fun image => lift (crop_to_box image nonzero_box)) images in
    let* seg := lift (crop_to_box seg nonzero_box) in
    ret (image_props, images, seg)
  else
    ret (<["crop_to_nonzero" := PBool false]> image_props, images, seg).

(** Lines 193-229: stack, gather the foreground statistics, save. *)
Definition save_train_subject (subject_id arraypath picklepath : string)
    (image_props : gmap string propval) (images : list (ndarray V)) (seg : ndarray V)
    (original_spacing : list Q) (original_size : list Z)
    (original_orientation final_direction : string) (target_spacing_ : list Q)
  : M V unit :=
  let* this := get_self in
  let* stacked := lift (np_array_of_list zero images) in
  let* images := lift (np_vstack stacked (np_newaxis seg)) in
  let* ground_truth := lift (np_last images) in
  let foreground_locs := foreground_locations ground_truth in
  let (numbered_ground_truth, ground_truth_numb_lesion) :=
    connected_components ground_truth in
  let object_sizes :=
    if ground_truth_numb_lesion =? 0 then PInt 0
    else PFloats (map (fun i => (inject_Z i * Qprod target_spacing_)%Q)
                      (tail (np_unique_counts numbered_ground_truth))) in
  let final_size := tail (shape images) in
  let image_props := <["original_spacing" := PFloats original_spacing]> image_props in
  let image_props := <["original_size" := PInts original_size]> image_props in
  let image_props := <["original_orientation" := PStr original_orientation]> image_props in
  let* new_spacing := lift (np_take target_spacing_ (transpose_forward this)) in
  let image_props := <["new_spacing" := PFloats new_spacing]> image_props in
  let image_props := <["new_size" := PInts final_size]> image_props in
  let image_props := <["new_direction" := PStr final_direction]> image_props in
  let image_props := <["foreground_locations" := PIndices foreground_locs]> image_props in
  let image_props := <["n_cc" := PInt ground_truth_numb_lesion]> image_props in
  let image_props := <["size_cc" := object_sizes]> image_props in
  print ("Saving " +:+ subject_id +:+ " in " +:+ arraypath) ;;
  np_save arraypath images ;;
  save_pickle image_props picklepath.

(** Lines 101-229: the work on a case that is not yet preprocessed. *)
Definition process_train_subject (subject_id arraypath picklepath : string) : M V unit :=
  let* this := get_self in
  let* (image_props, images, seg) := load_train_subject subject_id in
  validate_train_subject subject_id images seg ;;
  let* image0 := lift (py_getitem images 0) in
  let original_spacing := get_nib_spacing image0 in
  let original_size := img_shape image0 in
  let target_spacing_ := choose_target_spacing this original_spacing in
  let* (original_orientation, final_direction, images, seg) :=
    orient_train_subject images seg in
  check_labels subject_id seg ;;
  let* (image_props, images, seg) := crop_train_subject image_props images seg in
  let* (images, seg) :=
    _resample_and_normalize_case images (Some seg)
      (plans_normalization_scheme (plans this)) (transpose_forward this)
      original_spacing target_spacing_ in
  let* seg := match seg with Some seg => ret seg | None => raise TypeError end in
  save_train_subject subject_id arraypath picklepath image_props images seg
    original_spacing original_size original_orientation final_direction target_spacing_.

Definition _preprocess_train_subject (subject_id : string) : M V unit :=
  let* this := get_self in
  let subject_id := drop_last_chars 7 subject_id in
  print ("Preprocessing: " +:+ subject_id) ;;
  let* target_dir_ := getattr "target_dir" (target_dir this) in
  let arraypath := path_join target_dir_ (subject_id +:+ ".npy") in
  let picklepath := path_join target_dir_ (subject_id +:+ ".pkl") in
  let* array_exists := isfile arraypath in
  let* pickle_exists := isfile picklepath in
  if array_exists && pickle_exists
  then print ("Case: " +:+ subject_id +:+ " already exists. Skipping.")
  else process_train_subject subject_id arraypath picklepath.

End Preprocessor.

(** ** What the theorems assume of the other packages *)

(** A bounding box [lo0, hi0, lo1, hi1, ...] lies inside an array of shape
    [sh] and is not empty: one half-open pair per axis. *)
Fixpoint box_within (sh box : list Z) : Prop :=
  match sh, box with
  | [], [] => True
  | d :: sh', lo :: hi :: box' => 0 <= lo /\ lo < hi /\ hi <= d /\ box_within sh' box'
  | _, _ => False
  end.

Fixpoint box_extents (box : list Z) : list Z :=
  match box with
  | lo :: hi :: box' => (hi - lo) :: box_extents box'
  | _ => []
  end.

Fixpoint box_starts (box : list Z) : list Z :=
  match box with
  | lo :: _ :: box' => lo :: box_starts box'
  | _ => []
  end.

(** Pad widths [before0, after0, before1, after1, ...] that take shape [sh]
    to shape [sh']. *)
Fixpoint pads_between (sh pad sh' : list Z) : Prop :=
  match sh, pad, sh' with
  | [], [], [] => True
  | d :: sh1, b :: a :: pad1, d' :: sh1' =>
      0 <= b /\ 0 <= a /\ d' = d + b + a /\ pads_between sh1 pad1 sh1'
  | _, _, _ => False
  end.

Fixpoint pad_befores (pad : list Z) : list Z :=
  match pad with
  | b :: _ :: pad' => b :: pad_befores pad'
  | _ => []
  end.

Record externals_ok {V} `{!Voxel V} `{!Externals V} : Prop := {
  bbox_ok : forall (a : ndarray V) bg box,
      get_bbox_for_foreground a bg = Ok box -> box_within (shape a) box;
  crop_ok : forall (a a' : ndarray V) box,
      crop_to_box a box = Ok a' -> box_within (shape a) box ->
      shape a' = box_extents box;
  normalizer_ok : forall (a a' : ndarray V) scheme stats,
      normalizer a scheme stats = Ok a' -> shape a' = shape a;
  resize_ok : forall (a r : ndarray V) s order aa,
      resize a s order aa = Ok r -> shape r = s /\ Forall (Z.le 0) s;
  resize_no_overflow : forall (a : ndarray V) s order aa,
      resize a s order aa <> Raise OverflowError;
  resize_total : forall (a : ndarray V) s order aa,
      Forall (Z.lt 0) s -> length s = length (shape a) ->
      exists r, resize a s order aa = Ok r;
  pad_ok : forall (a a' : ndarray V) size pad,
      pad_to_size a size = Ok (a', pad) -> pads_between (shape a) pad (shape a');
  nib_to_np_ok : forall img : nib_image V,
      length (shape (nib_to_np img)) = length (img_shape img);
  reorient_ok : forall (img img' : nib_image V) from to,
      reorient_nib_image img from to = Ok img' ->
      length (img_shape img') = length (img_shape img)
}.
Arguments externals_ok V {_ _}.

(** [f[g[k]] = k] for every position [k] of [g]. *)
Definition maps_back (f g : list Z) : bool :=
  forallb (fun k => match g !! k with
                    | Some j => (0 <=? j) && bool_decide (f !! Z.to_nat j = Some (Z.of_nat k))
                    | None => false
                    end)
          (seq 0 (length g)).

(** The axis permutations [tf] and [tb] undo one another. *)
Definition inverse_axes (tf tb : list Z) : bool :=
  (length tf =? length tb)%nat && maps_back tf tb && maps_back tb tf.

(** ** A concrete instance: integer voxels, simple library functions *)

Module Example.

(** Rounding an integer to a 24-bit significand, ties to even, as the
    conversion to [float32] does. *)
Definition float32_Z (z : Z) : Z :=
  let m := Z.abs z in
  if m <=? 2 ^ 24 then z
  else
    let e := Z.log2 m - 23 in
    let q := m / 2 ^ e in
    let r := m mod 2 ^ e in
    let q' := if 2 * r <? 2 ^ e then q
              else if 2 ^ e <? 2 * r then q + 1
              else if Z.even q then q else q + 1 in
    Z.sgn z * (q' * 2 ^ e).

#[export] Instance voxel_Z : Voxel Z := {| zero := 0; float32 := float32_Z |}.

(** Nearest-neighbour resampling. *)
Definition nn_index (in_shape out_shape i : list Z) : list Z :=
  zip3_with (fun d_in d_out x => x * d_in / d_out) in_shape out_shape i.

Definition nn_resize (a : ndarray Z) (s : list Z) (order : Z) (aa : option bool)
  : result (ndarray Z) :=
  if negb (length s =? length (shape a))%nat then Raise ValueError
  else if forallb (Z.leb 0) s
       then Ok (NdArray s (fun i => data a (nn_index (shape a) s i)))
       else Raise ValueError.

(** A [resize] that overflows on every call. *)
Definition overflowing_resize (a : ndarray Z) (s : list Z) (order : Z) (aa : option bool)
  : result (ndarray Z) := Raise OverflowError.

Definition no_norm (a : ndarray Z) (scheme : string) (stats : gmap string Q)
  : result (ndarray Z) :=
  if bool_decide (scheme = "no_norm") then Ok a else Raise ValueError.

Definition list_min (x0 : Z) (xs : list Z) : Z := fold_right Z.min x0 xs.
Definition list_max (x0 : Z) (xs : list Z) : Z := fold_right Z.max x0 xs.
Definition headZ (i : list Z) : Z := nthZ i 0.

Fixpoint bbox_axes (fg : list (list Z)) (sh : list Z) : list Z :=
  match sh with
  | [] => []
  | _ :: sh' =>
      let xs := map headZ fg in
      list_min (headZ xs) xs :: (list_max (headZ xs) xs + 1) :: bbox_axes (map tail fg) sh'
  end.

(** The smallest box around the voxels that differ from the background. *)
Definition foreground_bbox (a : ndarray Z) (bg : Z) : result (list Z) :=
  match filter (fun i => data a i ≠ bg) (all_indices (shape a)) with
  | [] => Raise IndexError
  | fg => Ok (bbox_axes fg (shape a))
  end.

Fixpoint box_slices (box : list Z) : list (Z * Z) :=
  match box with
  | lo :: hi :: box' => (lo, hi) :: box_slices box'
  | _ => []
  end.

Definition crop (a : ndarray Z) (box : list Z) : result (ndarray Z) :=
  np_slice a (box_slices box).

Fixpoint pad_widths (sh size : list Z) : list Z :=
  match sh, size with
  | d :: sh', t :: size' =>
      let v := Z.max 0 (t - d) in
      (v / 2) :: (v / 2 + v mod 2) :: pad_widths sh' size'
  | _, _ => []
  end.

Fixpoint padded_shape (sh pad : list Z) : list Z :=
  match sh, pad with
  | d :: sh', b :: a :: pad' => (d + b + a) :: padded_shape sh' pad'
  | _, _ => []
  end.

Fixpoint unpad_index (pad i : list Z) : list Z :=
  match pad, i with
  | b :: _ :: pad', x :: i' => (x - b) :: unpad_index pad' i'
  | _, _ => []
  end.

(** Symmetric zero padding up to [size]. *)
Definition zero_pad (a : ndarray Z) (size : list Z) : result (ndarray Z * list Z) :=
  if negb (length size =? length (shape a))%nat then Raise ValueError
  else
    let pad := pad_widths (shape a) size in
    Ok (NdArray (padded_shape (shape a) pad)
          (fun i => let j := unpad_index pad i in
                    if in_bounds (shape a) j then data a j else 0),
        pad).

(** Axis codes read off the signs of the affine's diagonal. *)
Definition axis_code (k : nat) (m : list (list Q)) (pos neg : string) : string :=
  match m !! k with
  | Some row => match row !! k with
                | Some q => if Qle_bool 0 q then pos else neg
                | None => pos
                end
  | None => pos
  end.

Definition orientation_of (img : nib_image Z) : string :=
  axis_code 0 (img_affine img) "R" "L" +:+
  axis_code 1 (img_affine img) "A" "P" +:+
  axis_code 2 (img_affine img) "S" "I".

(** Reorientation between axis codes that differ by flips only: an axis
    whose letter differs is mirrored. *)
Fixpoint flip_index (sh : list Z) (flips : list bool) (i : list Z) : list Z :=
  match sh, flips, i with
  | d :: sh', f :: flips', x :: i' =>
      (if f then d - 1 - x else x) :: flip_index sh' flips' i'
  | _, _, _ => i
  end.

Definition flips_between (from to : string) : list bool :=
  map (fun p => negb (bool_decide (fst p = snd p)))
      (combine (list_ascii_of_string from) (list_ascii_of_string to)).

Definition flip_affine (flips : list bool) (m : list (list Q)) : list (list Q) :=
  imap (fun k row => if nth k flips false then map Qopp row else row) m.

Definition reorient (img : nib_image Z) (from to : string) : result (nib_image Z) :=
  if negb (length (list_ascii_of_string from) =? length (list_ascii_of_string to))%nat
  then Raise ValueError
  else
    let flips := flips_between from to in
    Ok (NibImage (img_shape img) (img_zooms img)
          (flip_affine flips (img_affine img))
          (img_qform img) (img_qform_code img) (img_sform img) (img_sform_code img)
          (fun i => img_dataobj img (flip_index (img_shape img) flips i))).

(** All foreground counted as one component. *)
Definition one_component (a : ndarray Z) : ndarray Z * Z :=
  (NdArray (shape a) (fun i => if data a i =? 0 then 0 else 1),
   if existsb (fun i => negb (data a i =? 0)) (all_indices (shape a)) then 1 else 0).

Definition externals_with
    (resize_ : ndarray Z -> list Z -> Z -> option bool -> result (ndarray Z))
  : Externals Z := {|
  resize := resize_;
  normalizer := no_norm;
  get_bbox_for_foreground := foreground_bbox;
  crop_to_box := crop;
  pad_to_size := zero_pad;
  get_nib_spacing := img_zooms;
  get_nib_orientation := orientation_of;
  reorient_nib_image := reorient;
  nib_to_np := fun img => NdArray (img_shape img) (img_dataobj img);
  connected_components := one_component;
  yucca_preprocessed := "/data/preprocessed";
  yucca_raw_data := "/data/raw"
|}.

Definition externals_Z : Externals Z := externals_with nn_resize.

(** *** A case to run the pipeline on

    One modality of shape (4, 4, 4) with spacing (1, 1, 1); its foreground
    is the box [1:3, 0:4, 1:4].  The plan crops to the foreground,
    resamples to spacing (2, 1, 1), keeps the axis order and declares the
    classes 0 and 1.  The patch size is (4, 4, 4). *)

Definition identity_affine : list (list Q) :=
  [[1; 0; 0; 0]; [0; 1; 0; 0]; [0; 0; 1; 0]; [0; 0; 0; 1]]%Q.

Definition case_data (i : list Z) : Z :=
  match i with
  | [x; y; z] => if (1 <=? x) && (x <? 3) && (1 <=? z) then 7 else 0
  | _ => 0
  end.

Definition case_image (qform_code sform_code : Z) : nib_image Z :=
  NibImage [4; 4; 4] [1; 1; 1]%Q identity_affine
           identity_affine qform_code identity_affine sform_code case_data.

Definition case_plans (crop : bool) (target : option string) : Plans Z :=
  MkPlans "YuccaPlanner" crop ["no_norm"] [0; 1; 2] [0; 1; 2] [2; 1; 1]%Q
          target [0; 1] 3 [∅].

Definition case_path : string := "/data/raw/Task000_Test/imagesTs/case_000.nii.gz".

Definition case_world (E : Externals Z) (crop : bool) (target : option string)
    (qform_code sform_code : Z) : world Z :=
  World ∅ (<[case_path := FNifti (case_image qform_code sform_code)]> ∅) []
        (init_preprocessor (case_plans crop target) "Task000_Test" false).

(** The forward run, and the world in which the record sits on the heap
    next to a prediction batch of [nb] items with [nc] channels, all ones. *)
Definition forward (E : Externals Z) (crop : bool) (target : option string)
    (qform_code sform_code : Z) :=
  @preprocess_case_for_inference Z voxel_Z E [case_path] [4; 4; 4]
    (case_world E crop target qform_code sform_code).

Definition forward_tensor (E : Externals Z) crop target q s : ndarray Z :=
  match fst (forward E crop target q s) with
  | Ok (t, _) => t
  | Raise _ => NdArray [] (fun _ => 0)
  end.

Definition forward_props (E : Externals Z) crop target q s : gmap string propval :=
  match fst (forward E crop target q s) with
  | Ok (_, props) => props
  | Raise _ => ∅
  end.

Definition predictions (nb nc : Z) : ndarray Z :=
  NdArray [nb; nc; 4; 4; 4] (fun _ => 1).

Definition predictions_view (nb nc : Z) : view :=
  View 1%positive (map (ARange 0) [nb; nc; 4; 4; 4]).

Definition record_loc : loc := 2%positive.

Definition world_with_predictions (E : Externals Z) crop target q s (nb nc : Z) : world Z :=
  let w1 := snd (forward E crop target q s) in
  World (<[1%positive := OArray (predictions nb nc)]>
           (<[record_loc := ODict (forward_props E crop target q s)]> ∅))
        (files w1) (trace w1) (self w1).

Definition reversal (E : Externals Z) crop target q s (nb nc : Z) :=
  @reverse_preprocessing Z voxel_Z E (predictions_view nb nc) record_loc
    (world_with_predictions E crop target q s nb nc).

(** The value of the returned canvas at an index. *)
Definition canvas_at {A} (r : result view * world Z) (i : list Z) (dflt : A)
    (f : Z -> A) : A :=
  match fst r with
  | Ok canvas =>
      match heap (snd r) !! base canvas with
      | Some (OArray a) => f (data a i)
      | _ => dflt
      end
  | Raise _ => dflt
  end.

(** *** A training case

    The modality volumes [case_000], [case_001], ... and the label volume of
    the subject [case], in the raw-data layout; the preprocessor is set up
    as [run] leaves it. *)

Definition volume (zooms : list Q) (affine : list (list Q)) (qform_code sform_code : Z)
    (voxels : list Z -> Z) : nib_image Z :=
  NibImage [4; 4; 4] zooms affine affine qform_code affine sform_code voxels.

Definition label_data (bad : Z) (i : list Z) : Z :=
  match i with
  | [x; y; z] => if (1 <=? x) && (x <? 3) && (1 <=? z)
                 then (if (x =? 2) && (y =? 0) && (z =? 1) then bad else 1)
                 else 0
  | _ => 0
  end.

Definition modality_path (k : nat) : string :=
  match k with
  | O => "/data/raw/Task000_Test/imagesTr/case_000.nii.gz"
  | _ => "/data/raw/Task000_Test/imagesTr/case_001.nii.gz"
  end.

Definition label_path : string := "/data/raw/Task000_Test/labelsTr/case.nii.gz".
Definition array_path : string := "/data/preprocessed/Task000_Test/YuccaPlanner/case.npy".
Definition pickle_path : string := "/data/preprocessed/Task000_Test/YuccaPlanner/case.pkl".

Definition train_plans (modalities : nat) (target_spacing_ : list Q) : Plans Z :=
  MkPlans "YuccaPlanner" true (repeat "no_norm" modalities) [0; 1; 2] [0; 1; 2]
          target_spacing_ (Some "RAS") [0; 1] 3 (repeat ∅ modalities).

Definition train_files (modalities : list (nib_image Z)) (label : nib_image Z)
  : gmap string (file Z) :=
  <[label_path := FNifti label]>
    (foldr (fun kv m => <[modality_path (fst kv) := FNifti (snd kv)]> m) ∅
           (imap (fun k v => (k, v)) modalities)).

Definition train_world (E : Externals Z) (no_unittests : bool) (target_spacing_ : list Q)
    (modalities : list (nib_image Z)) (label : nib_image Z) : world Z :=
  let this :=
    initialized (init_preprocessor (train_plans (length modalities) target_spacing_)
                   "Task000_Test" no_unittests) in
  World ∅ (train_files modalities label) []
        (MkPreprocessor (task this) (plans this) (disable_unittests this)
           (transpose_forward this) (transpose_backward this) (target_spacing this)
           (intensities this)
           (Some "/data/preprocessed/Task000_Test/YuccaPlanner")
           (Some "/data/raw/Task000_Test")
           (Some (imap (fun k _ => modality_path k) modalities))).

Definition train (E : Externals Z) (w : world Z) : result unit * world Z :=
  @_preprocess_train_subject Z voxel_Z E "case.nii.gz" w.

(** The regular case: one modality with a coded header, labels 0 and 1. *)
Definition good_volume : nib_image Z := volume [1; 1; 1]%Q identity_affine 1 1 case_data.
Definition good_label : nib_image Z := volume [1; 1; 1]%Q identity_affine 1 1 (label_data 1).

(** A second modality whose voxels are twice as long along the last axis,
    and a label volume in which one voxel carries the undeclared value 5. *)
Definition stretched_volume : nib_image Z :=
  volume [1; 1; 2]%Q identity_affine 1 1 case_data.
Definition bad_label : nib_image Z := volume [1; 1; 1]%Q identity_affine 1 1 (label_data 5).

(** What loading the volumes of the subject leaves behind. *)
Definition load_props (modalities : nat) : gmap string propval :=
  <["segmentation file" := PStr label_path]>
    (<["image files" := PStrs (map modality_path (seq 0 modalities))]> ∅).

Definition after_load (w : world Z) (modalities : nat) : world Z :=
  World (heap w) (files w)
        (trace w ++ EvPrint "Preprocessing: case"
                 :: map EvLoad (map modality_path (seq 0 modalities) ++ [label_path]))
        (self w).

(** A volume with a coded header as the orientation block hands it on. *)
Definition oriented (E : Externals Z) (img : nib_image Z) : ndarray Z :=
  match @reorient_nib_image Z E img (@get_nib_orientation Z E img) "RAS" with
  | Ok r => @nib_to_np Z E r
  | Raise _ => @nib_to_np Z E img
  end.

(** The functions of the example with a [resize] that always overflows. *)
Definition externals_overflowing : Externals Z := externals_with overflowing_resize.

(** The resampling block on the cropped arrays of the training case. *)
Definition cropped_image : ndarray Z := NdArray [2; 4; 3] case_data.
Definition cropped_label : ndarray Z := NdArray [2; 4; 3] (label_data 1).

Definition resampled (E : Externals Z) (w : world Z) :=
  @_resample_and_normalize_case Z E [cropped_image] (Some cropped_label)
    ["no_norm"] [0; 1; 2] [1; 1; 1]%Q
    (choose_target_spacing (self w) [1; 1; 1]%Q) w.

Definition resampled_images (E : Externals Z) (w : world Z) : list (ndarray Z) :=
  match fst (resampled E w) with Ok (images, _) => images | Raise _ => [] end.

Definition resampled_label (E : Externals Z) (w : world Z) : option (ndarray Z) :=
  match fst (resampled E w) with Ok (_, seg) => seg | Raise _ => None end.

(** A modality and a label volume whose headers carry no coded transform. *)
Definition uncoded_volume : nib_image Z := volume [1; 1; 1]%Q identity_affine 0 0 case_data.
Definition uncoded_label : nib_image Z :=
  volume [1; 1; 1]%Q identity_affine 0 0 (label_data 1).

End Example.

(** ** The geometry an ImageProperties record holds, and what reversal
       makes of it (spec sections 3 and 4.6) *)

Record geometry : Type := Geometry {
  g_uncropped : list Z;
  g_box : list Z;
  g_cropped : list Z;
  g_resampled : list Z;
  g_padded : list Z;
  g_padding : list Z
}.

(** The record [d] holds the geometry [g] of a case preprocessed with
    cropping: every entry reversal reads is there, and the entries agree
    with one another as crop, resample and pad leave them. *)
Record record_ok (d : gmap string propval) (g : geometry) : Prop := {
  rec_original : is_Some (d !! "original_shape");
  rec_uncropped : d !! "uncropped_shape" = Some (PInts (g_uncropped g));
  rec_box : d !! "nonzero_box" = Some (PInts (g_box g));
  rec_cropped : d !! "cropped_shape" = Some (PInts (g_cropped g));
  rec_resampled : d !! "resampled_transposed_shape" = Some (PInts (g_resampled g));
  rec_padded : d !! "padded_shape" = Some (PInts (g_padded g));
  rec_padding : d !! "padding" = Some (PInts (g_padding g));
  rec_dim : length (g_uncropped g) = 2%nat \/ length (g_uncropped g) = 3%nat;
  rec_within : box_within (g_uncropped g) (g_box g);
  rec_extents : g_cropped g = box_extents (g_box g);
  rec_rank : length (g_resampled g) = length (g_uncropped g);
  rec_nonneg : Forall (Z.le 0) (g_resampled g);
  rec_pads : pads_between (g_resampled g) (g_padding g) (g_padded g)
}.

(** Whether a spatial index lies inside the bounding box. *)
Definition inside_box (box i : list Z) : bool :=
  in_bounds (box_extents box) (zip_with Z.sub i (box_starts box)).

Section ReversalSpec.
Context {V : Type} `{!Voxel V} `{!Externals V}.

(** Modelled from the spec: section 4.6, step 1.  [stripped] is channel [c]
    of the prediction batch [A] with exactly the recorded pad widths taken
    off: it has the resampled, transposed shape, and its voxel [i] is the
    voxel of the padded channel that lies [before] further along each
    axis. *)
Definition depadded (A : ndarray V) (c : Z) (g : geometry) (stripped : ndarray V) : Prop :=
  shape stripped = g_resampled g /\
  forall i, in_bounds (g_resampled g) i = true ->
    data stripped i = data A (0 :: c :: zip_with Z.add (pad_befores (g_padding g)) i).

(** Modelled from the spec: section 4.6, step 2.  [R] is the de-padded
    channel resampled (order 3) to the cropped shape taken in transposed
    axis order and then transposed backward; it has the cropped shape. *)
Definition channel_reversed (tf tb : list Z) (A : ndarray V) (c : Z) (g : geometry)
    (R : ndarray V) : Prop :=
  exists stripped sact R',
    depadded A c g stripped /\
    np_take (g_cropped g) tf = Ok sact /\
    resize stripped sact 3 None = Ok R' /\
    np_transpose R' tb = Ok R /\
    shape R = g_cropped g.

(** Modelled from the spec: section 4.6, step 3.  Channel [c] of the canvas
    [Cv] is [R] re-seated at the bounding box: [R] inside the box, zero
    outside it. *)
Definition reseated (g : geometry) (R Cv : ndarray V) (c : Z) : Prop :=
  forall i, in_bounds (g_uncropped g) i = true ->
    data Cv (0 :: c :: i) =
      if inside_box (g_box g) i then data R (zip_with Z.sub i (box_starts (g_box g)))
      else zero.

(** What the resampling loops leave of an array [t]: the result of [resize]
    to [target], or [t] itself when [resize] raised [OverflowError]. *)
Definition resized_to (target : list Z) (order : Z) (aa : option bool)
    (t r : ndarray V) : Prop :=
  resize t target order aa = Ok r \/
  (resize t target order aa = Raise OverflowError /\ r = t).

End ReversalSpec.

(** ** The checks on a training case *)

Section TrainingSpec.
Context {V : Type} `{!Voxel V} `{!Externals V}.

(** Volumes that agree with the first modality. *)
Definition agrees (image0 vol : nib_image V) : Prop :=
  img_shape vol = img_shape image0 /\
  np_allclose (get_nib_spacing image0) (get_nib_spacing vol) = Ok true /\
  get_nib_orientation vol = get_nib_orientation image0.

(** The ways in which the volumes of a case can fail to agree. *)
Inductive inconsistent (dimensions : Z) (images : list (nib_image V)) (seg : nib_image V)
  : Prop :=
| no_modality :
    images = [] -> inconsistent dimensions images seg
| wrong_dimensionality vol :
    vol ∈ (images ++ [seg])%list -> py_len (img_shape vol) <> dimensions ->
    inconsistent dimensions images seg
| shape_mismatch image :
    image ∈ images -> img_shape image <> img_shape seg ->
    inconsistent dimensions images seg
| spacing_mismatch image0 vol :
    images !! 0%nat = Some image0 -> vol ∈ (images ++ [seg])%list ->
    np_allclose (get_nib_spacing image0) (get_nib_spacing vol) <> Ok true ->
    inconsistent dimensions images seg
| orientation_mismatch vol vol' :
    vol ∈ (images ++ [seg])%list -> vol' ∈ (images ++ [seg])%list ->
    get_nib_orientation vol <> get_nib_orientation vol' ->
    inconsistent dimensions images seg.

(** The world in which the work on a subject that is not skipped starts. *)
Definition announced (subject_id : string) (w : world V) : world V :=
  World (heap w) (files w)
        (trace w ++ [EvPrint ("Preprocessing: " +:+ drop_last_chars 7 subject_id)])
        (self w).

End TrainingSpec.

(** ** Orientation and the per-case record *)

Section OrientationSpec.
Context {V : Type} `{!Voxel V} `{!Externals V}.

(** The header of the volume carries a coded qform or sform. *)
Definition coded (image0 : nib_image V) : bool :=
  truthy_code (img_qform_code image0) || truthy_code (img_sform_code image0).

(** The volumes of a training case, each reoriented and turned into an
    array. *)
Definition reoriented_for_training (images : list (nib_image V)) (seg : nib_image V)
    (from to : string) : result (string * string * list (ndarray V) * ndarray V) :=
  rbind (rmapM (fun image => rbind (reorient_nib_image image from to)
                                   (fun r => Ok (nib_to_np r))) images)
        (fun arrays =>
  rbind (reorient_nib_image seg from to)
        (fun r => Ok (from, to, arrays, nib_to_np r))).

(** The volumes of an inference case, each reoriented, and the entries this
    adds to the record. *)
Definition reoriented_for_inference (images : list (nib_image V)) (from to : string)
    (image_properties : gmap string propval)
  : result (list (nib_image V) * gmap string propval) :=
  rbind (rmapM (fun image => reorient_nib_image image from to) images)
        (fun images' =>
  rbind (py_getitem images' 0)
        (fun image0 =>
           Ok (images',
               <["new_orientation" := PStr (get_nib_orientation image0)]>
                 (<["original_orientation" := PStr from]>
                    (<["reoriented" := PBool true]> image_properties))))).

(** The entries of the record that are written when the volumes are loaded. *)
Definition loaded_properties (image0 : nib_image V) : gmap string propval :=
  <["sform" := PMatrix (img_sform image0)]>
    (<["qform" := PMatrix (img_qform image0)]>
       (<["original_shape" := PInts (img_shape image0)]>
          (<["original_spacing" := PFloats (get_nib_spacing image0)]> ∅))).

(** The entries that are written after the orientation block. *)
Definition geometry_properties (image1 : nib_image V) (box : option (list Z))
    (cropped resampled padded padding : list Z) (oriented : gmap string propval)
  : gmap string propval :=
  let d := <["uncropped_shape" := PInts (shape (nib_to_np image1))]>
             (<["affine" := PMatrix (img_affine image1)]> oriented) in
  let d := match box with Some b => <["nonzero_box" := PInts b]> d | None => d end in
  <["padding" := PInts padding]>
    (<["padded_shape" := PInts padded]>
       (<["resampled_transposed_shape" := PInts resampled]>
          (<["cropped_shape" := PInts cropped]> d))).

(** The entries of the record that [reverse_preprocessing] reads. *)
Definition reversal_keys : list string :=
  ["original_shape"; "uncropped_shape"; "cropped_shape"; "padding"; "padded_shape";
   "resampled_transposed_shape"; "nonzero_box"].

End OrientationSpec.

(** ** The caller: [YuccaLightningModule.predict_step] *)

(** [self.model.predict(mode, data, patch_size, overlap, mirror)] of the
    network architecture. *)
Class Network (V : Type) : Type := {
  predict : string -> ndarray V -> list Z -> Q -> bool -> result (ndarray V)
}.

(** The attributes of the module that [predict_step] reads. *)
Record lightning_module : Type := LightningModule {
  model_dimensions : string;
  patch_size : list Z;
  sliding_window_overlap : Q;
  test_time_augmentation : bool
}.

Section PredictStep.
Context {V : Type} `{!Voxel V} `{!Externals V} `{!Network V}.

(** An array, or a dict, that has just been created, as an object of the
    heap. *)
Definition new_array (a : ndarray V) : M V view :=
  fun w =>
    let l := fresh (dom (heap w)) in
    (Ok (View l (map (ARange 0) (shape a))),
     World (<[l := OArray a]> (heap w)) (files w) (trace w) (self w)).

Definition new_dict (d : gmap string propval) : M V loc :=
  fun w =>
    let l := fresh (dom (heap w)) in
    (Ok l, World (<[l := ODict d]> (heap w)) (files w) (trace w) (self w)).

(** [predict_step] (YuccaLightningModule.py, lines 139-156); [self.preprocessor]
    is the preprocessor object of the world.  The record and the logits are
    objects that [reverse_preprocessing] is handed by reference. *)
Definition predict_step (module : lightning_module) (batch : list string * list string)
  : M V (view * loc * string) :=
  let (case, case_id) := batch in
  let* (case_preprocessed, case_properties) :=
    preprocess_case_for_inference case (patch_size module) in
  let* case_properties := new_dict case_properties in
  let* logits :=
    lift (predict (model_dimensions module) case_preprocessed (patch_size module)
                  (sliding_window_overlap module) (test_time_augmentation module)) in
  let* logits := new_array logits in
  let* logits := reverse_preprocessing logits case_properties in
  let* case_id0 := lift (py_getitem case_id 0) in
  ret (logits, case_properties, case_id0).

End PredictStep.

(** ** Further cases to run the code on *)

Module Scenarios.
Import Example.

(** Predictions whose last axis is one voxel too long, next to the record of
    the inference case. *)
Definition long_predictions : ndarray Z := NdArray [1; 2; 4; 4; 5] (fun _ => 1).

Definition world_with_long_predictions : world Z :=
  let w1 := snd (forward externals_Z true (Some "RAS") 1 1) in
  World (<[1%positive := OArray long_predictions]>
           (<[record_loc := ODict (forward_props externals_Z true (Some "RAS") 1 1)]> ∅))
        (files w1) (trace w1) (self w1).

(** A volume with four axes, and a world that holds it at the path of the
    inference case. *)
Definition image_4d : nib_image Z :=
  NibImage [4; 4; 4; 2] [1; 1; 1; 1]%Q identity_affine
           identity_affine 1 identity_affine 1 (fun _ => 7).

Definition world_4d : world Z :=
  World ∅ (<[case_path := FNifti image_4d]> ∅) []
        (init_preprocessor (case_plans true (Some "RAS")) "Task000_Test" false).

(** The plan of the inference case without a target spacing. *)
Definition plans_without_spacing : Plans Z :=
  MkPlans "YuccaPlanner" true ["no_norm"] [0; 1; 2] [0; 1; 2] []
          (Some "RAS") [0; 1] 3 [∅].

Definition world_without_spacing : world Z :=
  World ∅ (<[case_path := FNifti (case_image 1 1)]> ∅) []
        (init_preprocessor plans_without_spacing "Task000_Test" false).

(** The training case under a plan that names no target coordinate system. *)
Definition plans_without_target : Plans Z :=
  MkPlans "YuccaPlanner" true ["no_norm"] [0; 1; 2] [0; 1; 2] [2; 1; 1]%Q
          None [0; 1] 3 [∅].

Definition world_without_target : world Z :=
  let this := initialized (init_preprocessor plans_without_target "Task000_Test" false) in
  World ∅ (train_files [good_volume] good_label) []
        (MkPreprocessor (task this) (plans this) (disable_unittests this)
           (transpose_forward this) (transpose_backward this) (target_spacing this)
           (intensities this)
           (Some "/data/preprocessed/Task000_Test/YuccaPlanner")
           (Some "/data/raw/Task000_Test")
           (Some [modality_path 0])).

(** The arrays of the training case as the resampling block returns them. *)
Definition resampled_image : ndarray Z := NdArray [1; 4; 3] case_data.
Definition resampled_label_array : ndarray Z := NdArray [1; 4; 3] (label_data 1).

Definition saving (w : world Z) : result unit * world Z :=
  @save_train_subject Z voxel_Z externals_Z "case" array_path pickle_path ∅
    [resampled_image] resampled_label_array [1; 1; 1]%Q [4; 4; 4] "RAS" "RAS"
    [2; 1; 1]%Q w.

(** A network that answers with two channels of ones over the spatial axes
    of its input. *)
Definition ones_network : Network Z :=
  {| predict := fun mode data patch overlap mirror =>
       Ok (NdArray (1 :: 2 :: drop 2 (shape data)) (fun _ => 1)) |}.

Definition module_3d : lightning_module :=
  LightningModule "3D" [4; 4; 4] (1 # 2) false.

End Scenarios.

(** ** Assertions about runs *)

Section ProgramLogic.
Context {V : Type}.

(** Nothing but the heap object at [l] and the trace changes. *)
Definition frame_but (l : option loc) (w w' : world V) : Prop :=
  files w' = files w /\ self w' = self w /\
  forall l', Some l' <> l -> heap w' !! l' = heap w !! l'.

(** Every run of [m] from a world that satisfies [I] ends in a world
    related to it by [R]. *)
Definition keeps (I : world V -> Prop) (R : relation (world V)) {A} (m : M V A) : Prop :=
  forall w r w', I w -> m w = (r, w') -> R w w'.

(** The objects that exist in [w0] keep their contents. *)
Definition preserves_objects (w0 w w' : world V) : Prop :=
  files w' = files w /\ self w' = self w /\
  forall l, is_Some (heap w0 !! l) -> heap w' !! l = heap w !! l.

Definition still_alive (w0 w : world V) : Prop :=
  forall l, is_Some (heap w0 !! l) -> is_Some (heap w !! l).

(** Every normal return of [m] satisfies [Q]. *)
Definition ensures {A} (Q : world V -> Prop) (m : M V A) : Prop :=
  forall w a w', m w = (Ok a, w') -> Q w'.

(** The preprocessor object is not modified. *)
Definition same_self (w w' : world V) : Prop := self w' = self w.

Definition always (w : world V) : Prop := True.

(** Two worlds that differ in the files, in the trace and in the entries of
    the record at [p] that reversal does not read. *)
Definition alike (p : loc) (wa wb : world V) : Prop :=
  self wa = self wb /\
  dom (heap wa) = dom (heap wb) /\
  (forall l, l <> p -> heap wa !! l = heap wb !! l) /\
  exists da db,
    heap wa !! p = Some (ODict da) /\ heap wb !! p = Some (ODict db) /\
    forall k, k ∈ reversal_keys -> da !! k = db !! k.

(** [m] does the same in worlds that are alike. *)
Definition sim (p : loc) {A} (m : M V A) : Prop :=
  forall wa wb, alike p wa wb ->
    fst (m wa) = fst (m wb) /\ alike p (snd (m wa)) (snd (m wb)).

End ProgramLogic.

(** ** What a run may write *)

Section Outcomes.
Context {V : Type}.

(** A run that leaves the heap and the preprocessor alone and that, if it
    touches the file system at all, returns after saving an array at
    [arraypath] and then a pickle at [picklepath]. *)
Definition saves_case (arraypath picklepath : string) {A}
    (w : world V) (r : result A) (w' : world V) : Prop :=
  (forall l, heap w' !! l = heap w !! l) /\
  self w' = self w /\
  (files w' = files w \/
   (is_ok r = true /\
    exists a d, files w' = <[picklepath := FPkl d]> (<[arraypath := FNpy a]> (files w)))).

(** A run that leaves the preprocessor alone and whose events all satisfy
    [P]. *)
Definition emits_only (P : event -> Prop) (w w' : world V) : Prop :=
  self w' = self w /\ exists evs, trace w' = (trace w ++ evs)%list /\ Forall P evs.

(** The preprocessor object is [this]. *)
Definition at_preprocessor (this : preprocessor V) (w : world V) : Prop := self w = this.

(** The events of the training case [subject_id] of the preprocessor
    [this]: loading its label volume or one of the image paths whose file
    name starts with [subject_id + '_'], saving its array or its pickle, and
    any output or call of [resize]. *)
Definition own_event (this : preprocessor V) (subject_id : string) (e : event) : Prop :=
  match e with
  | EvLoad p =>
      (exists dir, input_dir this = Some dir /\
                   p = path_join (path_join dir "labelsTr") (subject_id +:+ ".nii.gz")) \/
      (exists all, imagepaths this = Some all /\ p ∈ all /\
                   startswith (basename p) (subject_id +:+ "_") = true)
  | EvSave p =>
      exists dir, target_dir this = Some dir /\
                  (p = path_join dir (subject_id +:+ ".npy") \/
                   p = path_join dir (subject_id +:+ ".pkl"))
  | _ => True
  end.

End Outcomes.

(** * Proofs *)

(** ** Running monadic code *)

Section Logic.
Context {V : Type}.

Lemma bind_ok {A B} (m : M V A) (k : A -> M V B) w a w1 :
  m w = (Ok a, w1) -> bind m k w = k a w1.
Proof. intros E. unfold bind. now rewrite E. Qed.

Lemma bind_raise {A B} (m : M V A) (k : A -> M V B) w e w1 :
  m w = (Raise e, w1) -> bind m k w = (Raise e, w1).
Proof. intros E. unfold bind. now rewrite E. Qed.

Lemma bind_ok_inv {A B} (m : M V A) (k : A -> M V B) w b w' :
  bind m k w = (Ok b, w') ->
  exists a w1, m w = (Ok a, w1) /\ k a w1 = (Ok b, w').
Proof.
  unfold bind. destruct (m w) as [[a|e] w1]; intros E.
  - now exists a, w1.
  - discriminate.
Qed.

Lemma lift_inv {A} (r : result A) (w : world V) x w' :
  lift r w = (x, w') -> x = r /\ w' = w.
Proof. unfold lift. intros E. now inversion E. Qed.

Lemma ret_inv {A} (a : A) (w : world V) x w' :
  ret a w = (x, w') -> x = Ok a /\ w' = w.
Proof. unfold ret. intros E. now inversion E. Qed.

Lemma py_assert_ok_inv (c : bool) msg (w : world V) u w' :
  py_assert c msg w = (Ok u, w') -> c = true /\ w' = w.
Proof.
  unfold py_assert. destruct c; cbn; intros E; inversion E; auto.
Qed.

#[export] Instance frame_but_preorder l : PreOrder (frame_but (V:=V) l).
Proof.
  split.
  - intros w. now repeat split.
  - intros w1 w2 w3 (F1 & S1 & H1) (F2 & S2 & H2). repeat split.
    + congruence.
    + congruence.
    + intros l' Hl. rewrite H2, H1; auto.
Qed.

(** The rules of [keeps]; [I] is kept by [R]. *)
Section Keeps.
Variable I : world V -> Prop.
Variable R : relation (world V).
Hypothesis R_pre : PreOrder R.
Hypothesis I_stable : forall w w', I w -> R w w' -> I w'.

Lemma keeps_ret {A} (a : A) : keeps I R (ret a).
Proof. intros w r w' _ E. apply ret_inv in E as [_ ->]. reflexivity. Qed.

Lemma keeps_raise {A} e : keeps I R (@raise V A e).
Proof. intros w r w' _ E. inversion E. reflexivity. Qed.

Lemma keeps_lift {A} (r : result A) : keeps I R (lift r).
Proof. intros w x w' _ E. apply lift_inv in E as [_ ->]. reflexivity. Qed.

Lemma keeps_assert c msg : keeps I R (py_assert c msg).
Proof. destruct c; [apply keeps_ret | apply keeps_raise]. Qed.

Lemma keeps_get_self : keeps I R get_self.
Proof. intros w r w' _ E. inversion E. reflexivity. Qed.

Lemma keeps_getattr {A} name (o : option A) : keeps I R (getattr name o).
Proof. destruct o; [apply keeps_ret | apply keeps_raise]. Qed.

Lemma keeps_bind {A B} (m : M V A) (k : A -> M V B) :
  keeps I R m ->
  (forall a w w1, I w -> m w = (Ok a, w1) -> keeps I R (k a)) ->
  keeps I R (bind m k).
Proof.
  intros Hm Hk w r w' Hw E. unfold bind in E.
  destruct (m w) as [[a|e] w1] eqn:Em.
  - transitivity w1; [eapply Hm; eauto |].
    eapply Hk; eauto.
  - inversion E; subst. eapply Hm; eauto.
Qed.

Lemma keeps_for {A} (xs : list A) (body : A -> M V unit) :
  (forall x, x ∈ xs -> keeps I R (body x)) -> keeps I R (py_for xs body).
Proof.
  induction xs as [|x xs IH]; intros Hb; cbn.
  - apply keeps_ret.
  - apply keeps_bind; [apply Hb; left |].
    intros _ _ _ _ _. apply IH. intros y Hy. apply Hb. now right.
Qed.

Lemma keeps_map {A B} (f : A -> M V B) (xs : list A) :
  (forall x, x ∈ xs -> keeps I R (f x)) -> keeps I R (py_map f xs).
Proof.
  induction xs as [|x xs IH]; intros Hb; cbn.
  - apply keeps_ret.
  - apply keeps_bind; [apply Hb; left |].
    intros y _ _ _ _. apply keeps_bind.
    + apply IH. intros z Hz. apply Hb. now right.
    + intros ys _ _ _ _. apply keeps_ret.
Qed.

Lemma keeps_try {A} (body handler : M V A) :
  keeps I R body -> keeps I R handler -> keeps I R (try_except_OverflowError body handler).
Proof.
  intros Hb Hh w r w' Hw E. unfold try_except_OverflowError in E.
  destruct (body w) as [[a|e] w1] eqn:Eb.
  - inversion E; subst. eapply Hb; eauto.
  - destruct e; try solve [inversion E; subst; eapply Hb; eauto].
    transitivity w1; [eapply Hb; eauto |].
    eapply Hh; eauto.
Qed.

End Keeps.

Lemma keeps_emit (I : world V -> Prop) l e : keeps I (frame_but l) (emit e).
Proof. intros w r w' _ E. inversion E; subst. now repeat split. Qed.

End Logic.

(** ** [reverse_preprocessing] writes to its canvas only *)

Section ReverseFrame.
Context {V : Type} `{!Voxel V} `{!Externals V}.

Lemma axes_index_ok_view v ks v' : view_index v ks = Ok v' -> base v' = base v.
Proof.
  unfold view_index. destruct (axes_index (axes v) ks); intros E; inversion E; reflexivity.
Qed.

Lemma view_slice_base v sl v' : view_slice v sl = Ok v' -> base v' = base v.
Proof.
  unfold view_slice. destruct (axes_slice (axes v) sl); intros E; inversion E; reflexivity.
Qed.

Lemma rbind_ok_inv {A B} (r : result A) (k : A -> result B) b :
  rbind r k = Ok b -> exists a, r = Ok a /\ k a = Ok b.
Proof. destruct r; cbn; intros E; [eauto | discriminate]. Qed.

Lemma strip_padding_base image pad v' :
  strip_padding image pad = Ok v' -> base v' = base image.
Proof.
  unfold strip_padding.
  destruct (5 <? py_len pad); [|destruct (py_len pad <? 5)]; intros E.
  - apply rbind_ok_inv in E as (sl & _ & E). eapply view_slice_base; eauto.
  - apply rbind_ok_inv in E as (sl & _ & E). eapply view_slice_base; eauto.
  - now inversion E.
Qed.

Section Rules.
Variable I : world V -> Prop.
Variable l : option loc.
Hypothesis I_stable : forall w w', I w -> frame_but l w w' -> I w'.

Lemma keeps_dict_getitem d key : keeps I (frame_but l) (dict_getitem d key).
Proof.
  intros w r w' _ E. unfold dict_getitem in E.
  destruct (heap w !! d) as [[a|m]|]; try destruct (m !! key);
    inversion E; subst; reflexivity.
Qed.

Lemma keeps_dict_getitem_ints d key : keeps I (frame_but l) (dict_getitem_ints d key).
Proof.
  unfold dict_getitem_ints. apply keeps_bind; try apply _; auto.
  - apply keeps_dict_getitem.
  - intros. apply keeps_lift. apply _.
Qed.

Lemma keeps_view_read v : keeps I (frame_but l) (view_read v).
Proof.
  intros w r w' _ E. unfold view_read in E.
  destruct (heap w !! base v) as [[a|m]|]; inversion E; subst; reflexivity.
Qed.

Lemma keeps_call_resize image s order aa :
  keeps I (frame_but l) (call_resize image s order aa).
Proof.
  unfold call_resize. apply keeps_bind; try apply _; auto.
  - apply keeps_emit.
  - intros. apply keeps_lift. apply _.
Qed.

Lemma keeps_view_assign v src :
  l = Some (base v) -> keeps I (frame_but l) (view_assign v src).
Proof.
  intros -> w r w' _ E. unfold view_assign in E.
  destruct (heap w !! base v) as [[a|m]|]; try (inversion E; subst; reflexivity).
  destruct (broadcastable _ _); inversion E; subst; try reflexivity.
  repeat split. cbn. intros l' Hl. apply lookup_insert_ne. congruence.
Qed.

End Rules.

Ltac kbind Hst := apply keeps_bind; [apply _ | exact Hst | | ].
Ltac kleaf Hst :=
  first [ apply keeps_ret; apply _
        | apply keeps_raise; apply _
        | apply keeps_lift; apply _
        | apply keeps_assert; apply _
        | apply keeps_get_self; apply _
        | apply keeps_dict_getitem_ints; exact Hst
        | apply keeps_dict_getitem
        | apply keeps_view_read
        | apply keeps_call_resize; exact Hst ].

Lemma reverse_channel_keeps (I : world V -> Prop) l images p canvas sact pad b c :
  (forall w w', I w -> frame_but l w w' -> I w') ->
  (forall w, I w -> plans_crop_to_nonzero (plans (self w)) = true ->
             l = Some (base canvas)) ->
  keeps I (frame_but l) (reverse_channel images p canvas sact pad b c).
Proof.
  intros Hst Hl. unfold reverse_channel.
  kbind Hst; [kleaf Hst |]. intros this w0 w1 Hw0 Ethis.
  assert (this = self w0) as -> by (inversion Ethis; reflexivity).
  do 3 (kbind Hst; [kleaf Hst | intros ? ? ? _ _]).
  kbind Hst; [kleaf Hst | intros _ _ _ _ _].
  do 3 (kbind Hst; [kleaf Hst | intros ? ? ? _ _]).
  kbind Hst; [kleaf Hst | intros _ _ _ _ _].
  do 5 (kbind Hst; [kleaf Hst | intros ? ? ? _ _]).
  kbind Hst; [kleaf Hst | intros _ _ _ _ _].
  destruct (plans_crop_to_nonzero (plans (self w0))) eqn:Ecrop; [|kleaf Hst].
  kbind Hst; [kleaf Hst | intros ? ? ? _ _].
  kbind Hst; [kleaf Hst | intros ? ? ? _ _].
  kbind Hst; [kleaf Hst | intros t1 ? ? _ E1].
  kbind Hst; [kleaf Hst | intros t2 ? ? _ E2].
  apply lift_inv in E1 as [E1 _], E2 as [E2 _].
  apply keeps_view_assign; [exact Hst |].
  rewrite (view_slice_base _ _ _ (eq_sym E2)), (axes_index_ok_view _ _ _ (eq_sym E1)).
  eauto.
Qed.

(** The loops of [reverse_preprocessing] over batch items and channels. *)
Lemma reverse_loops_keeps (I : world V -> Prop) l images p canvas sact pad nb :
  (forall w w', I w -> frame_but l w w' -> I w') ->
  (forall w, I w -> plans_crop_to_nonzero (plans (self w)) = true ->
             l = Some (base canvas)) ->
  keeps I (frame_but l)
    (py_for (py_range nb) (fun b =>
       let* nc := lift (py_getitem (view_shape images) 1) in
       py_for (py_range nc) (fun c =>
         reverse_channel images p canvas sact pad b c))).
Proof.
  intros Hst Hl.
  apply keeps_for; [apply _ | exact Hst |]. intros b _.
  kbind Hst; [kleaf Hst | intros nc ? ? _ _].
  apply keeps_for; [apply _ | exact Hst |]. intros c _.
  now apply reverse_channel_keeps.
Qed.


Lemma dict_getitem_world d key (w : world V) r w' :
  dict_getitem d key w = (r, w') -> w' = w.
Proof.
  unfold dict_getitem.
  destruct (heap w !! d) as [[a|m]|]; try destruct (m !! key);
    intros E; inversion E; reflexivity.
Qed.

Lemma dict_getitem_ints_world d key (w : world V) r w' :
  dict_getitem_ints d key w = (r, w') -> w' = w.
Proof.
  unfold dict_getitem_ints, bind.
  destruct (dict_getitem d key w) as [[v|e] w1] eqn:E1; intros E.
  - apply dict_getitem_world in E1 as ->. now apply lift_inv in E as [_ ->].
  - apply dict_getitem_world in E1 as ->. now inversion E.
Qed.

Lemma keeps_weaken (I : world V -> Prop) (R1 R2 : relation (world V)) {A} (m : M V A) :
  (forall w w', I w -> R1 w w' -> R2 w w') -> keeps I R1 m -> keeps I R2 m.
Proof. intros HR Hm w r w' Hw E. eauto. Qed.

#[local] Instance preserves_objects_preorder (w0 : world V) : PreOrder (preserves_objects w0).
Proof.
  split.
  - intros w. now repeat split.
  - intros w1 w2 w3 (F1 & S1 & H1) (F2 & S2 & H2). repeat split.
    + congruence.
    + congruence.
    + intros l Hl. rewrite H2, H1; auto.
Qed.

Lemma still_alive_stable (w0 w w' : world V) :
  still_alive w0 w -> preserves_objects w0 w w' -> still_alive w0 w'.
Proof. intros Hw (_ & _ & Hh) l Hl. rewrite Hh; auto. Qed.

Lemma frame_preserves_objects (w0 : world V) l w w' :
  (forall l', l = Some l' -> heap w0 !! l' = None) ->
  frame_but l w w' -> preserves_objects w0 w w'.
Proof.
  intros Hl (F & S & Hh). repeat split; auto.
  intros l' [o Ho]. apply Hh. intros <-. specialize (Hl l' eq_refl). congruence.
Qed.

Lemma axes_shape_full sh : axes_shape (map (ARange 0) sh) = sh.
Proof. induction sh as [|d sh IH]; cbn; [reflexivity | now rewrite IH]. Qed.

Lemma np_zeros_inv sh (w : world V) r w' :
  np_zeros sh w = (r, w') ->
  (w' = w /\ r = Raise ValueError) \/
  (r = Ok (View (fresh (dom (heap w))) (map (ARange 0) sh)) /\
   w' = World (<[fresh (dom (heap w)) := OArray (NdArray sh (fun _ => zero))]> (heap w))
              (files w) (trace w) (self w)).
Proof.
  unfold np_zeros. destruct (forallb _ _); intros E; inversion E; auto.
Qed.

Lemma fresh_loc_unused (w : world V) : heap w !! fresh (dom (heap w)) = None.
Proof. apply not_elem_of_dom. apply is_fresh. Qed.

Lemma reverse_preprocessing_keeps w0 images p :
  keeps (still_alive w0) (preserves_objects w0) (reverse_preprocessing images p).
Proof.
  pose proof (still_alive_stable w0) as Hst.
  assert (forall w w', still_alive w0 w -> frame_but None w w' -> preserves_objects w0 w w')
    as Hnone.
  { intros w w' _. apply frame_preserves_objects. discriminate. }
  assert (forall w w', still_alive w0 w -> frame_but None w w' -> still_alive w0 w')
    as Hst0 by eauto.
  unfold reverse_preprocessing.
  kbind Hst; [kleaf Hst | intros this ? ? _ _].
  kbind Hst; [eapply keeps_weaken; [exact Hnone | kleaf Hst0] | intros ? ? ? _ _].
  kbind Hst; [eapply keeps_weaken; [exact Hnone | kleaf Hst0] | intros U ? ? _ _].
  kbind Hst.
  { intros wa r wb Hw E. apply np_zeros_inv in E as [[-> _]|[_ ->]]; [reflexivity|].
    repeat split. cbn. intros l [o Ho]. apply lookup_insert_ne. intros Heq.
    destruct (Hw l) as [o' Ho']; [eauto|].
    rewrite <- Heq, fresh_loc_unused in Ho'. discriminate. }
  intros canvas wa wb Hw Ecanvas.
  assert (heap w0 !! base canvas = None) as Hfresh.
  { apply np_zeros_inv in Ecanvas as [[_ ?]|[Hc _]]; [discriminate|].
    inversion Hc; subst canvas; cbn.
    destruct (heap w0 !! fresh (dom (heap wa))) as [o|] eqn:Eo; [|reflexivity].
    destruct (Hw (fresh (dom (heap wa)))) as [o' Ho']; [eauto|].
    rewrite fresh_loc_unused in Ho'. discriminate. }
  assert (forall w w', still_alive w0 w -> frame_but (Some (base canvas)) w w' ->
                       preserves_objects w0 w w') as Hsome.
  { intros ? ? _. apply frame_preserves_objects. intros l' [= <-]. exact Hfresh. }
  assert (forall w w', still_alive w0 w -> frame_but (Some (base canvas)) w w' ->
                       still_alive w0 w') as Hst1 by eauto.
  kbind Hst; [eapply keeps_weaken; [exact Hnone | kleaf Hst0] | intros ? ? ? _ _].
  kbind Hst; [kleaf Hst | intros ? ? ? _ _].
  kbind Hst; [eapply keeps_weaken; [exact Hnone | kleaf Hst0] | intros ? ? ? _ _].
  kbind Hst; [kleaf Hst | intros ? ? ? _ _].
  kbind Hst; [| intros ? ? ? _ _; kleaf Hst].
  eapply keeps_weaken; [exact Hsome |].
  apply reverse_loops_keeps; [exact Hst1 | reflexivity].
Qed.

(** C10. [reverse_preprocessing] does not mutate its inputs: whatever the
    outcome, every object that existed before the call (the buffer of the
    predictions, the ImageProperties dict, anything else) still holds what
    it held, the file system and the preprocessor are as they were, and the
    canvas it returns lives at a location that was unused before the call,
    so it shares no storage with any input. *)
Theorem reverse_preprocessing_frame images p (w : world V) r w' :
  reverse_preprocessing images p w = (r, w') ->
  (forall l o, heap w !! l = Some o -> heap w' !! l = Some o) /\
  files w' = files w /\ self w' = self w /\
  (forall canvas, r = Ok canvas -> heap w !! base canvas = None).
Proof.
  intros E.
  pose proof (reverse_preprocessing_keeps w images p w r w') as (F & S & Hh);
    [intros l Hl; exact Hl | exact E |].
  repeat split; auto.
  - intros l o Ho. rewrite Hh; eauto.
  - intros canvas ->.
    unfold reverse_preprocessing in E.
    apply bind_ok_inv in E as (this & w1 & E1 & E). inversion E1; subst w1 this.
    apply bind_ok_inv in E as (os & w1 & E1' & E).
    apply dict_getitem_world in E1' as ->.
    apply bind_ok_inv in E as (U & w1 & E2 & E).
    apply dict_getitem_ints_world in E2 as ->.
    apply bind_ok_inv in E as (cv & w1 & E3 & E).
    apply np_zeros_inv in E3 as [[_ ?]|[Hc _]]; [discriminate|].
    do 5 (apply bind_ok_inv in E as (? & ? & _ & E)).
    apply ret_inv in E as [E _]. inversion E; subst canvas.
    inversion Hc; subst cv. cbn. apply fresh_loc_unused.
Qed.

(** C2 (what the code does).  With cropping disabled no channel is ever
    written to the canvas: whenever [reverse_preprocessing] returns, the
    canvas has shape [(1, number-of-classes, *uncropped_shape)] and is zero
    everywhere, whatever the predictions were. *)
Theorem reverse_preprocessing_without_crop images p (w : world V) canvas w' :
  plans_crop_to_nonzero (plans (self w)) = false ->
  reverse_preprocessing images p w = (Ok canvas, w') ->
  exists uncropped,
    view_shape canvas = 1 :: py_len (plans_classes (plans (self w))) :: uncropped /\
    heap w' !! base canvas =
      Some (OArray (NdArray (1 :: py_len (plans_classes (plans (self w))) :: uncropped)
                            (fun _ => zero))).
Proof.
  intros Hcrop E. unfold reverse_preprocessing in E.
  apply bind_ok_inv in E as (this & w1 & E1 & E). inversion E1; subst w1 this.
  apply bind_ok_inv in E as (os & w1 & E1' & E).
  apply dict_getitem_world in E1' as ->.
  apply bind_ok_inv in E as (U & w1 & E2 & E).
  apply dict_getitem_ints_world in E2 as ->.
  apply bind_ok_inv in E as (cv & w1 & E3 & E).
  apply np_zeros_inv in E3 as [[_ ?]|[Hc Hw1]]; [discriminate|].
  apply bind_ok_inv in E as (Cs & w2 & E4 & E).
  apply dict_getitem_ints_world in E4 as ->.
  apply bind_ok_inv in E as (sact & w2 & E5 & E). apply lift_inv in E5 as [_ ->].
  apply bind_ok_inv in E as (pad & w2 & E6 & E).
  apply dict_getitem_ints_world in E6 as ->.
  apply bind_ok_inv in E as (nb & w2 & E7 & E). apply lift_inv in E7 as [_ ->].
  apply bind_ok_inv in E as ([] & w2 & Eloop & E).
  apply ret_inv in E as [E ->]. inversion E; subst canvas.
  pose (I := fun w : world V => plans_crop_to_nonzero (plans (self w)) = false).
  assert (frame_but None w1 w2) as (_ & _ & Hh).
  { eapply (reverse_loops_keeps I None); [| |  | exact Eloop].
    - intros wa wb Ha (_ & S & _). unfold I in *. now rewrite S.
    - intros wa Ha Hb. unfold I in Ha. congruence.
    - unfold I. now subst w1. }
  exists U. inversion Hc; subst cv. split.
  - unfold view_shape. cbn [axes].
    apply (axes_shape_full (1 :: py_len (plans_classes (plans (self w))) :: U)).
  - rewrite Hh by discriminate. subst w1. cbn. apply lookup_insert_eq.
Qed.

End ReverseFrame.

(** ** Arithmetic of shapes, slices and axis permutations *)

Section Shapes.

Lemma np_all_eq_refl s : np_all_eq s s = Ok true.
Proof.
  unfold np_all_eq. rewrite Nat.eqb_refl. f_equal.
  induction s as [|x s IH]; cbn; [reflexivity|].
  now rewrite Z.eqb_refl, IH.
Qed.

Lemma np_all_eq_true_same_length t a :
  length t = length a -> np_all_eq t a = Ok true -> t = a.
Proof.
  unfold np_all_eq. intros Hlen. rewrite Hlen, Nat.eqb_refl. intros [= E].
  revert a Hlen E. induction t as [|x t IH]; intros [|y a] Hlen E; try discriminate.
  - reflexivity.
  - cbn in E. apply andb_prop in E as [E1 E2]. apply Z.eqb_eq in E1 as ->.
    f_equal. apply IH; [now inversion Hlen | exact E2].
Qed.

Lemma slice_range_inner lo hi n :
  0 <= lo -> lo <= hi -> hi <= n -> slice_range lo hi n = (lo, hi - lo).
Proof.
  intros H1 H2 H3. unfold slice_range, slice_bound.
  destruct (lo <? 0) eqn:E1; [apply Z.ltb_lt in E1; lia|].
  destruct (hi <? 0) eqn:E2; [apply Z.ltb_lt in E2; lia|].
  f_equal; lia.
Qed.

Lemma py_getitem_lookup {A} (l : list A) (k : nat) x :
  l !! k = Some x -> py_getitem l (Z.of_nat k) = Ok x.
Proof.
  intros Hk. unfold py_getitem.
  pose proof (lookup_lt_Some _ _ _ Hk) as Hlt.
  destruct (Z.of_nat k <? 0) eqn:E1; [apply Z.ltb_lt in E1; lia|].
  destruct (0 <=? Z.of_nat k) eqn:E2; [|apply Z.leb_gt in E2; lia].
  destruct (Z.of_nat k <? Z.of_nat (length l)) eqn:E3; [|apply Z.ltb_ge in E3; lia].
  cbn. now rewrite Nat2Z.id, Hk.
Qed.

Lemma py_getitem_nonneg_inv {A} (l : list A) (i : Z) x :
  0 <= i -> py_getitem l i = Ok x -> l !! Z.to_nat i = Some x.
Proof.
  intros Hi. unfold py_getitem.
  destruct (i <? 0) eqn:E1; [apply Z.ltb_lt in E1; lia|].
  destruct ((0 <=? i) && (i <? Z.of_nat (length l))); [|discriminate].
  destruct (l !! Z.to_nat i); [|discriminate]. now intros [= ->].
Qed.

Lemma rmapM_ok_inv {A B} (f : A -> result B) l r :
  rmapM f l = Ok r ->
  length r = length l /\
  forall k x, l !! k = Some x -> exists y, r !! k = Some y /\ f x = Ok y.
Proof.
  revert r. induction l as [|a l IH]; cbn; intros r E.
  - inversion E. split; [reflexivity | intros k x Hk; discriminate].
  - destruct (f a) as [y|] eqn:Ef; [|discriminate].
    destruct (rmapM f l) as [ys|] eqn:El; [|discriminate].
    inversion E; subst r. destruct (IH ys eq_refl) as [Hlen Hall].
    split; [cbn; congruence|].
    intros [|k] x Hk; cbn in *.
    + inversion Hk; subst. eauto.
    + eauto.
Qed.

Lemma rmapM_ok_intro {A B} (f : A -> result B) (g : A -> B) l :
  (forall x, x ∈ l -> f x = Ok (g x)) -> rmapM f l = Ok (map g l).
Proof.
  induction l as [|a l IH]; cbn; intros H; [reflexivity|].
  rewrite H by left. rewrite IH; [reflexivity|].
  intros x Hx. apply H. now right.
Qed.

Lemma rmapM_id (f : Z -> result Z) l :
  (forall x, x ∈ l -> f x = Ok x) -> rmapM f l = Ok l.
Proof.
  intros H. rewrite (rmapM_ok_intro f (fun x => x)) by exact H. now rewrite map_id.
Qed.

Lemma no_dup_NoDup l : NoDup l -> no_dup l = true.
Proof.
  induction 1 as [|x l Hx _ IH]; cbn; [reflexivity|].
  rewrite IH, andb_true_r. apply negb_true_iff.
  destruct (existsb (Z.eqb x) l) eqn:E; [|reflexivity].
  apply existsb_exists in E as (y & Hy & Exy). apply Z.eqb_eq in Exy as <-.
  exfalso. apply Hx. now apply list_elem_of_In.
Qed.

Lemma maps_back_spec f g :
  maps_back f g = true ->
  forall k j, g !! k = Some j -> 0 <= j /\ f !! Z.to_nat j = Some (Z.of_nat k).
Proof.
  unfold maps_back. intros E k j Hk. rewrite forallb_forall in E.
  specialize (E k). rewrite Hk in E.
  assert (In k (seq 0 (length g))) as Hin.
  { apply in_seq. apply lookup_lt_Some in Hk. lia. }
  apply E in Hin. apply andb_prop in Hin as [H1 H2].
  apply Z.leb_le in H1. apply bool_decide_eq_true in H2. auto.
Qed.

Lemma inverse_axes_spec tf tb :
  inverse_axes tf tb = true ->
  length tf = length tb /\
  (forall k j, tb !! k = Some j -> 0 <= j /\ tf !! Z.to_nat j = Some (Z.of_nat k)) /\
  (forall k j, tf !! k = Some j -> 0 <= j /\ tb !! Z.to_nat j = Some (Z.of_nat k)).
Proof.
  unfold inverse_axes. intros E. apply andb_prop in E as [E E3].
  apply andb_prop in E as [E1 E2]. apply Nat.eqb_eq in E1.
  split; [exact E1|]. split; now apply maps_back_spec.
Qed.

(** A forward permutation with an inverse indexes every shape of its
    length. *)
Lemma np_take_inverse_axes tf tb (cs : list Z) :
  inverse_axes tf tb = true -> length tf = length cs ->
  exists sact, np_take cs tf = Ok sact.
Proof.
  intros Hinv Hlen. destruct (inverse_axes_spec _ _ Hinv) as (Hl & _ & Hall).
  exists (map (fun j => nthZ cs (Z.to_nat j)) tf).
  apply rmapM_ok_intro. intros j Hj. apply list_elem_of_lookup in Hj as [k Hk].
  destruct (Hall _ _ Hk) as [H0 H1]. apply lookup_lt_Some in H1.
  destruct (lookup_lt_is_Some_2 cs (Z.to_nat j)) as [x Hx]; [lia|].
  unfold nthZ. rewrite (nth_lookup_Some _ _ _ _ Hx).
  rewrite <- (Z2Nat.id j) at 1 by lia. now apply py_getitem_lookup.
Qed.

(** The backward permutation is accepted by [transpose] and takes a shape
    that was permuted forward back to what it was. *)
Lemma transpose_backward_shape {A} (r : ndarray A) tf tb cs sact :
  inverse_axes tf tb = true ->
  length tf = length cs ->
  np_take cs tf = Ok sact ->
  shape r = sact ->
  exists r', np_transpose r tb = Ok r' /\ shape r' = cs /\
             forall i, data r' i = data r (transpose_index tb i).
Proof.
  intros Hinv Hlen Htake Hshape.
  destruct (inverse_axes_spec _ _ Hinv) as (Hl & Hall & _).
  destruct (rmapM_ok_inv _ _ _ Htake) as [Hls Hsact].
  assert (forall k j, tb !! k = Some j -> 0 <= j < Z.of_nat (length tf)) as Hrange.
  { intros k j Hk. destruct (Hall k j Hk) as [H0 Hj]. apply lookup_lt_Some in Hj. lia. }
  assert (NoDup tb) as Hnd.
  { apply NoDup_alt. intros i j x Hi Hj.
    destruct (Hall i x Hi) as [_ H1]. destruct (Hall j x Hj) as [_ H2].
    rewrite H1 in H2. inversion H2. lia. }
  unfold np_transpose.
  assert (length tb = length (shape r)) as Hlr by (rewrite Hshape; congruence).
  rewrite Hlr, Nat.eqb_refl. cbn [negb].
  rewrite rmapM_id.
  2:{ intros x Hx. apply list_elem_of_lookup in Hx as [k Hk].
      destruct (Hrange k x Hk) as [H0 H1]. unfold normalize_axis, ndim, py_len.
      rewrite <- Hlr, <- Hl.
      destruct (- Z.of_nat (length tf) <=? x) eqn:E1; [|apply Z.leb_gt in E1; lia].
      destruct (x <? Z.of_nat (length tf)) eqn:E2; [|apply Z.ltb_ge in E2; lia].
      destruct (x <? 0) eqn:E3; [apply Z.ltb_lt in E3; lia|]. reflexivity. }
  cbn [rbind]. rewrite (no_dup_NoDup _ Hnd). cbn [negb].
  eexists. split; [reflexivity|]. split; [|reflexivity].
  cbn [shape]. apply list_eq. intros k. rewrite list_lookup_fmap.
  destruct (tb !! k) as [j|] eqn:Hk; cbn.
  - destruct (Hall k j Hk) as [H0 Hj].
    destruct (Hsact _ _ Hj) as (y & Hy & Hget).
    unfold nthZ. rewrite Hshape.
    rewrite (nth_lookup_Some _ _ _ _ Hy).
    symmetry. apply py_getitem_nonneg_inv in Hget; [|lia].
    now rewrite Nat2Z.id in Hget.
  - symmetry. apply lookup_ge_None. apply lookup_ge_None in Hk. lia.
Qed.

Lemma drop_leading_ones_0 s : drop_leading_ones 0 s = s.
Proof. destruct s; reflexivity. Qed.

Lemma broadcastable_refl s : broadcastable s s = true.
Proof.
  unfold broadcastable. rewrite Nat.sub_diag, drop_leading_ones_0.
  rewrite Nat.sub_diag, Nat.leb_refl, drop_0. cbn [andb].
  induction s as [|x s IH]; cbn; [reflexivity|].
  now rewrite Z.eqb_refl, IH.
Qed.

Lemma broadcast_index_refl s i :
  in_bounds s i = true -> broadcast_index s s i = i.
Proof.
  unfold broadcast_index. rewrite Nat.sub_diag, drop_leading_ones_0.
  rewrite !Nat.sub_diag, drop_0. cbn [repeat app].
  revert i. induction s as [|d s IH]; intros [|x i] H; try discriminate; cbn.
  - reflexivity.
  - cbn in H. apply andb_prop in H as [H1 H2]. apply andb_prop in H1 as [H0 H1].
    rewrite (IH _ H2). apply Z.leb_le in H0. apply Z.ltb_lt in H1.
    destruct (d =? 1) eqn:E; [apply Z.eqb_eq in E; f_equal; lia | reflexivity].
Qed.

End Shapes.

(** ** [reverse_preprocessing] re-seats every channel *)

(** Evaluation of indexing with literal indices into lists of known
    length (the elements stay as they are). *)
Ltac eval_getitem :=
  repeat match goal with
  | |- context [py_len ?l] =>
      let n := eval cbv in (Z.of_nat (length l)) in change (py_len l) with n
  | |- context [py_getitem ?l ?i] =>
      let k := eval vm_compute in i in
      let r := eval cbv -[Z.add Z.sub Z.mul Z.opp Z.div Z.modulo Z.max Z.min]
                 in (py_getitem l k) in
      change (py_getitem l i) with r
  | |- context [Z.ltb ?a ?b] =>
      let v := eval vm_compute in (Z.ltb a b) in
      first [constr_eq v true | constr_eq v false];
      change (Z.ltb a b) with v
  end.

Ltac eval_index :=
  repeat first [progress eval_getitem | progress cbn -[slice_range]].


Section ReverseCorrect.
Context {V : Type} `{!Voxel V} `{!Externals V}.
Hypothesis Hext : externals_ok V.

Lemma run_get_self {B} (k : preprocessor V -> M V B) w :
  bind get_self k w = k (self w) w.
Proof. reflexivity. Qed.

Lemma run_lift_ok {A B} (a : A) (k : A -> M V B) w : bind (lift (Ok a)) k w = k a w.
Proof. reflexivity. Qed.

Lemma run_assert_true {B} msg (k : unit -> M V B) w :
  bind (py_assert true msg) k w = k tt w.
Proof. reflexivity. Qed.

Lemma run_dict_ints {B} p key l d (k : list Z -> M V B) (w : world V) :
  heap w !! p = Some (ODict d) -> d !! key = Some (PInts l) ->
  bind (dict_getitem_ints p key) k w = k l w.
Proof.
  intros Hp Hk. unfold dict_getitem_ints, dict_getitem, bind. now rewrite Hp, Hk.
Qed.

Lemma run_view_read {B} v a (k : ndarray V -> M V B) (w : world V) :
  heap w !! base v = Some (OArray a) ->
  bind (view_read v) k w =
  k (NdArray (view_shape v) (fun i => data a (to_base (axes v) i))) w.
Proof. intros Hv. unfold view_read, bind. now rewrite Hv. Qed.

Lemma run_call_resize {B} image s order aa r (k : ndarray V -> M V B) (w : world V) :
  resize image s order aa = Ok r ->
  bind (call_resize image s order aa) k w =
  k r (World (heap w) (files w) (trace w ++ [EvResize (shape image) s order]) (self w)).
Proof. intros Hr. unfold call_resize, bind, emit, lift. now rewrite Hr. Qed.


Lemma to_base_ranges offs lens i :
  length offs = length lens -> length i = length offs ->
  to_base (zip_with ARange offs lens) i = zip_with Z.add offs i.
Proof.
  revert lens i. induction offs as [|o offs IH]; intros [|n lens] [|x i] H1 H2;
    try discriminate; cbn; [reflexivity|].
  f_equal. apply IH; [now inversion H1 | now inversion H2].
Qed.

Lemma axes_shape_ranges offs lens :
  length offs = length lens -> axes_shape (zip_with ARange offs lens) = lens.
Proof.
  revert lens. induction offs as [|o offs IH]; intros [|n lens] H; try discriminate; cbn.
  - reflexivity.
  - f_equal. apply IH. now inversion H.
Qed.

Lemma in_bounds_length sh i : in_bounds sh i = true -> length i = length sh.
Proof.
  revert i. induction sh as [|d sh IH]; intros [|x i] H; try discriminate; cbn.
  - reflexivity.
  - cbn in H. apply andb_prop in H as [_ H]. f_equal. now apply IH.
Qed.

Lemma of_base_ranges offs lens i :
  length offs = length lens -> length i = length offs ->
  of_base (zip_with ARange offs lens) i =
    if in_bounds lens (zip_with Z.sub i offs) then Some (zip_with Z.sub i offs) else None.
Proof.
  revert lens i. induction offs as [|o offs IH]; intros [|n lens] [|x i] H1 H2;
    try discriminate; cbn; [reflexivity|].
  rewrite (IH lens i); [| now inversion H1 | now inversion H2].
  assert (((o <=? x) && (x <? o + n)) = ((0 <=? x - o) && (x - o <? n))) as ->.
  { destruct (o <=? x) eqn:E1, (0 <=? x - o) eqn:E2,
             (x <? o + n) eqn:E3, (x - o <? n) eqn:E4; try reflexivity;
      repeat match goal with
             | H : (_ <=? _) = true |- _ => apply Z.leb_le in H
             | H : (_ <=? _) = false |- _ => apply Z.leb_gt in H
             | H : (_ <? _) = true |- _ => apply Z.ltb_lt in H
             | H : (_ <? _) = false |- _ => apply Z.ltb_ge in H
             end; lia. }
  destruct ((0 <=? x - o) && (x - o <? n)); [|reflexivity].
  destruct (in_bounds lens (zip_with Z.sub i offs)); reflexivity.
Qed.


Lemma strip_padding_ok li c Rs pad Ps :
  length Rs = 2%nat \/ length Rs = 3%nat ->
  pads_between Rs pad Ps -> Forall (Z.le 0) Rs ->
  strip_padding (View li (AFixed 0 :: AFixed c :: map (ARange 0) Ps)) pad =
  Ok (View li (AFixed 0 :: AFixed c :: zip_with ARange (pad_befores pad) Rs)).
Proof.
  intros Hdim Hpads Hnn.
  destruct Rs as [|r0 [|r1 [|r2 [|r3 Rs]]]]; cbn in Hdim; try (exfalso; lia).
  - destruct pad as [|b0 [|a0 [|b1 [|a1 [|x pad]]]]]; cbn in Hpads; try (exfalso; tauto);
      destruct Ps as [|p0 [|p1 [|y Ps]]]; cbn in Hpads; try (exfalso; tauto).
    destruct Hpads as (? & ? & -> & ? & ? & -> & _).
    inversion Hnn as [|? ? ? Hnn1]; subst. inversion Hnn1; subst.
    unfold strip_padding, view_slice. eval_index.
    rewrite !slice_range_inner by lia. cbn.
    repeat f_equal; lia.
  - destruct pad as [|b0 [|a0 [|b1 [|a1 [|b2 [|a2 [|x pad]]]]]]]; cbn in Hpads;
      try (exfalso; tauto);
      destruct Ps as [|p0 [|p1 [|p2 [|y Ps]]]]; cbn in Hpads; try (exfalso; tauto).
    destruct Hpads as (? & ? & -> & ? & ? & -> & ? & ? & -> & _).
    inversion Hnn as [|? ? ? Hnn1]; subst. inversion Hnn1 as [|? ? ? Hnn2]; subst.
    inversion Hnn2; subst.
    unfold strip_padding, view_slice. eval_index.
    rewrite !slice_range_inner by lia. cbn.
    repeat f_equal; lia.
Qed.

Lemma canvas_target_ok lc c ncls U box :
  length U = 2%nat \/ length U = 3%nat ->
  box_within U box -> 0 <= c < ncls ->
  exists slices,
    bbox_slices box = Ok slices /\
    view_index (View lc (map (ARange 0) (1 :: ncls :: U))) [0; c] =
      Ok (View lc (AFixed 0 :: AFixed c :: map (ARange 0) U)) /\
    view_slice (View lc (AFixed 0 :: AFixed c :: map (ARange 0) U)) slices =
      Ok (View lc (AFixed 0 :: AFixed c ::
                   zip_with ARange (box_starts box) (box_extents box))).
Proof.
  intros Hdim Hw Hc.
  assert (view_index (View lc (map (ARange 0) (1 :: ncls :: U))) [0; c] =
          Ok (View lc (AFixed 0 :: AFixed c :: map (ARange 0) U))) as Hvi.
  { unfold view_index. cbn.
    destruct (c <? 0) eqn:E1; [apply Z.ltb_lt in E1; lia|].
    destruct (0 <=? c) eqn:E2; [|apply Z.leb_gt in E2; lia].
    destruct (c <? ncls) eqn:E3; [|apply Z.ltb_ge in E3; lia]. cbn.
    now rewrite Z.add_0_l. }
  destruct U as [|u0 [|u1 [|u2 [|u3 U]]]]; cbn in Hdim; try (exfalso; lia).
  - destruct box as [|l0 [|h0 [|l1 [|h1 [|x box]]]]]; cbn in Hw; try (exfalso; tauto).
    destruct Hw as (? & ? & ? & ? & ? & ? & _).
    unfold bbox_slices. eval_index.
    eexists. split; [reflexivity|]. split; [exact Hvi|].
    unfold view_slice. cbn -[slice_range].
    rewrite !slice_range_inner by lia. cbn. reflexivity.
  - destruct box as [|l0 [|h0 [|l1 [|h1 [|l2 [|h2 [|x box]]]]]]]; cbn in Hw;
      try (exfalso; tauto).
    destruct Hw as (? & ? & ? & ? & ? & ? & ? & ? & ? & _).
    unfold bbox_slices. eval_index.
    eexists. split; [reflexivity|]. split; [exact Hvi|].
    unfold view_slice. cbn -[slice_range].
    rewrite !slice_range_inner by lia. cbn. reflexivity.
Qed.

Lemma box_within_lengths U box :
  box_within U box ->
  length (box_starts box) = length U /\ length (box_extents box) = length U /\
  Forall (Z.lt 0) (box_extents box).
Proof.
  revert box. induction U as [|u U IH]; intros [|lo [|hi box]] H; cbn in H; try tauto.
  - cbn. auto.
  - destruct H as (H1 & H2 & H3 & H4). destruct (IH _ H4) as (? & ? & ?).
    cbn. repeat split; try congruence. constructor; [lia | assumption].
Qed.

Lemma pads_between_lengths Rs pad Ps :
  pads_between Rs pad Ps ->
  length (pad_befores pad) = length Rs /\ length Ps = length Rs.
Proof.
  revert pad Ps. induction Rs as [|r Rs IH]; intros [|b [|a pad]] [|q Ps] H;
    cbn in H; try tauto.
  destruct H as (_ & _ & _ & H). destruct (IH _ _ H). cbn. split; congruence.
Qed.

Lemma np_take_positive cs tf sact :
  Forall (Z.lt 0) cs -> np_take cs tf = Ok sact ->
  Forall (Z.lt 0) sact /\ length sact = length tf.
Proof.
  intros Hcs Htake. destruct (rmapM_ok_inv _ _ _ Htake) as [Hl Hall].
  split; [|exact Hl].
  apply Forall_lookup. intros k y Hy.
  destruct (tf !! k) as [j|] eqn:Hj.
  - destruct (Hall _ _ Hj) as (y' & Hy' & Hget). rewrite Hy in Hy'. inversion Hy'; subst y'.
    unfold py_getitem in Hget.
    destruct ((0 <=? _) && _); [|discriminate].
    destruct (cs !! _) eqn:Hcsk; [|discriminate]. inversion Hget; subst.
    eapply Forall_lookup in Hcs; eauto.
  - apply lookup_ge_None in Hj. apply lookup_lt_Some in Hy. lia.
Qed.

Lemma reverse_channel_run d g tf tb sact A Cv images canvas p c C ncls (w : world V) :
  record_ok d g ->
  inverse_axes tf tb = true ->
  length tf = length (g_cropped g) ->
  np_take (g_cropped g) tf = Ok sact ->
  heap w !! p = Some (ODict d) ->
  heap w !! base images = Some (OArray A) ->
  axes images = map (ARange 0) (1 :: C :: g_padded g) ->
  heap w !! base canvas = Some (OArray Cv) ->
  axes canvas = map (ARange 0) (1 :: ncls :: g_uncropped g) ->
  base canvas <> base images ->
  base canvas <> p ->
  0 <= c < C -> c < ncls ->
  transpose_forward (self w) = tf ->
  transpose_backward (self w) = tb ->
  plans_crop_to_nonzero (plans (self w)) = true ->
  exists R Cv' w',
    channel_reversed tf tb A c g R /\
    reverse_channel images p canvas sact (g_padding g) 0 c w = (Ok tt, w') /\
    heap w' !! base canvas = Some (OArray Cv') /\
    shape Cv' = shape Cv /\
    (forall l, l <> base canvas -> heap w' !! l = heap w !! l) /\
    self w' = self w /\ files w' = files w /\
    (forall c' i, in_bounds (g_uncropped g) i = true ->
       data Cv' (0 :: c' :: i) =
         if (c' =? c) && inside_box (g_box g) i
         then data R (zip_with Z.sub i (box_starts (g_box g)))
         else data Cv (0 :: c' :: i)).
Proof.
  intros Hrec Hinv Hlen Htake Hp HA Himg HCv Hcan Hne1 Hne2 Hc Hcn Htf Htb Hcrop.
  destruct Hrec as [_ HrU Hrbox HrCs HrRs HrPs Hrpad Hdim Hwithin Hext' Hrank Hnn Hpads].
  destruct g as [U box Cs Rs Ps pad].
  cbn [g_uncropped g_box g_cropped g_resampled g_padded g_padding] in *.
  destruct canvas as [lc cax]. cbn [base axes] in *. subst cax.
  unfold reverse_channel.
  rewrite run_get_self.
  assert (view_index images [0; c] =
          Ok (View (base images) (AFixed 0 :: AFixed c :: map (ARange 0) Ps))) as ->.
  { unfold view_index. rewrite Himg. cbn.
    destruct (c <? 0) eqn:E1; [apply Z.ltb_lt in E1; lia|].
    destruct (0 <=? c) eqn:E2; [|apply Z.leb_gt in E2; lia].
    destruct (c <? C) eqn:E3; [|apply Z.ltb_ge in E3; lia]. cbn.
    now rewrite Z.add_0_l. }
  rewrite run_lift_ok.
  rewrite (run_dict_ints _ _ _ _ _ _ Hp HrPs).
  unfold view_shape at 1. cbn [axes axes_shape]. rewrite axes_shape_full.
  rewrite np_all_eq_refl, run_lift_ok, run_assert_true.
  destruct (box_within_lengths _ _ Hwithin) as (Hls & Hle & Hpos).
  destruct (pads_between_lengths _ _ _ Hpads) as (Hlb & HlP).
  assert (length Rs = 2%nat \/ length Rs = 3%nat) as HdimR by (rewrite Hrank; exact Hdim).
  rewrite (strip_padding_ok _ _ Rs pad Ps HdimR Hpads Hnn).
  rewrite run_lift_ok, (run_dict_ints _ _ _ _ _ _ Hp HrRs).
  unfold view_shape at 1. cbn [axes axes_shape].
  rewrite axes_shape_ranges by exact Hlb.
  rewrite np_all_eq_refl, run_lift_ok, run_assert_true.
  rewrite (run_view_read _ A) by exact HA.
  unfold view_shape at 1. cbn [axes axes_shape base].
  rewrite axes_shape_ranges by exact Hlb.
  set (stripped := NdArray Rs _).
  rewrite <- Hext' in Hpos, Hle.
  destruct (np_take_positive _ _ _ Hpos Htake) as (Hsp & Hsl).
  destruct (resize_total Hext stripped sact 3 None Hsp) as [R' HR'].
  { cbn. lia. }
  destruct (resize_ok Hext _ _ _ _ _ HR') as [HsR' _].
  destruct (transpose_backward_shape R' tf tb Cs sact Hinv Hlen Htake HsR')
    as (R & HR & HsR & _).
  exists R. eexists. eexists.
  split.
  { exists stripped, sact, R'. repeat split; auto.
    intros i Hi. subst stripped. cbn [data axes to_base].
    rewrite to_base_ranges; [reflexivity | exact Hlb |].
    apply in_bounds_length in Hi. cbn in Hi. congruence. }
  rewrite (run_call_resize _ _ _ _ _ _ _ HR').
  rewrite Htb, HR, run_lift_ok.
  rewrite (run_dict_ints p _ Cs d) by (cbn; assumption).
  rewrite HsR, np_all_eq_refl, run_lift_ok, run_assert_true.
  cbn [self]. rewrite Hcrop.
  rewrite (run_dict_ints p _ box d) by (cbn; assumption).
  destruct (canvas_target_ok lc c ncls U box Hdim Hwithin ltac:(lia))
    as (slices & Hsl1 & Hvi & Hvs).
  rewrite Hsl1, run_lift_ok, Hvi, run_lift_ok, Hvs, run_lift_ok.
  unfold view_assign. cbn [heap base axes files trace self].
  rewrite HCv. unfold view_shape. cbn [axes axes_shape].
  rewrite axes_shape_ranges by congruence.
  rewrite HsR, <- Hext', broadcastable_refl.
  split; [reflexivity|].
  cbn [heap self files]. rewrite lookup_insert_eq.
  split; [reflexivity|]. split; [reflexivity|].
  split; [intros l Hl; now apply lookup_insert_ne|].
  split; [reflexivity|]. split; [reflexivity|].
  intros c' i Hi. cbn [data of_base].
  change (0 =? 0) with true. cbn [andb].
  pose proof (in_bounds_length _ _ Hi) as Hli.
  destruct (c' =? c) eqn:Ec; cbn [andb]; [|reflexivity].
  rewrite of_base_ranges by congruence.
  unfold inside_box. rewrite <- ?Hext'.
  destruct (in_bounds Cs (zip_with Z.sub i (box_starts box))) eqn:Eb;
    [|reflexivity].
  now rewrite broadcast_index_refl.
Qed.

(** The loop over the channels of one batch item. *)
Lemma reverse_channels_run d g tf tb sact A images canvas p C ncls :
  record_ok d g ->
  inverse_axes tf tb = true ->
  length tf = length (g_cropped g) ->
  np_take (g_cropped g) tf = Ok sact ->
  axes images = map (ARange 0) (1 :: C :: g_padded g) ->
  axes canvas = map (ARange 0) (1 :: ncls :: g_uncropped g) ->
  base canvas <> base images ->
  base canvas <> p ->
  forall xs, NoDup xs -> (forall c, c ∈ xs -> 0 <= c < C /\ c < ncls) ->
  forall (w : world V) Cv,
    heap w !! p = Some (ODict d) ->
    heap w !! base images = Some (OArray A) ->
    heap w !! base canvas = Some (OArray Cv) ->
    transpose_forward (self w) = tf ->
    transpose_backward (self w) = tb ->
    plans_crop_to_nonzero (plans (self w)) = true ->
    exists w' Cv',
      py_for xs (fun c => reverse_channel images p canvas sact (g_padding g) 0 c) w
        = (Ok tt, w') /\
      heap w' !! base canvas = Some (OArray Cv') /\
      shape Cv' = shape Cv /\
      (forall l, l <> base canvas -> heap w' !! l = heap w !! l) /\
      self w' = self w /\ files w' = files w /\
      (forall c i, in_bounds (g_uncropped g) i = true -> c ∉ xs ->
         data Cv' (0 :: c :: i) = data Cv (0 :: c :: i)) /\
      (forall c, c ∈ xs -> exists R,
         channel_reversed tf tb A c g R /\
         forall i, in_bounds (g_uncropped g) i = true ->
           data Cv' (0 :: c :: i) =
             if inside_box (g_box g) i
             then data R (zip_with Z.sub i (box_starts (g_box g)))
             else data Cv (0 :: c :: i)).
Proof.
  intros Hrec Hinv Hlen Htake Himg Hcan Hne1 Hne2 xs.
  induction xs as [|x xs IH]; intros Hnd Hxs w Cv Hp HA HCv Htf Htb Hcrop.
  - exists w, Cv. cbn. repeat split; auto. intros c Hc. inversion Hc.
  - apply NoDup_cons in Hnd as [Hx Hnd].
    destruct (Hxs x ltac:(left)) as [Hx1 Hx2].
    destruct (reverse_channel_run d g tf tb sact A Cv images canvas p x C ncls w)
      as (R & Cv1 & w1 & HR & Hrun & HCv1 & Hs1 & Hh1 & Hself1 & Hf1 & Hd1); auto.
    destruct (IH Hnd (fun c Hc => Hxs c ltac:(now right)) w1 Cv1)
      as (w' & Cv' & Hrun' & HCv' & Hs' & Hh' & Hself' & Hf' & Hout & Hin); auto.
    { rewrite Hh1; auto. }
    { rewrite Hh1; auto. }
    { now rewrite Hself1. }
    { now rewrite Hself1. }
    { now rewrite Hself1. }
    exists w', Cv'. cbn [py_for]. rewrite (bind_ok _ _ _ _ _ Hrun).
    split; [exact Hrun'|]. split; [exact HCv'|]. split; [congruence|].
    split; [intros l Hl; rewrite Hh', Hh1; auto|].
    split; [congruence|]. split; [congruence|]. split.
    + intros c i Hi Hc. apply not_elem_of_cons in Hc as [Hcx Hc].
      rewrite Hout, Hd1 by auto.
      destruct (c =? x) eqn:E; [apply Z.eqb_eq in E; contradiction | reflexivity].
    + intros c Hc. apply elem_of_cons in Hc as [-> | Hc].
      * exists R. split; [exact HR|]. intros i Hi.
        rewrite Hout, Hd1 by auto. now rewrite Z.eqb_refl.
      * destruct (Hin c Hc) as (R0 & HR0 & Hd0). exists R0. split; [exact HR0|].
        intros i Hi. rewrite Hd0, Hd1 by auto.
        destruct (c =? x) eqn:E; [|reflexivity].
        apply Z.eqb_eq in E; subst c. contradiction.
Qed.

Lemma py_range_NoDup n : NoDup (py_range n).
Proof.
  unfold py_range. apply NoDup_fmap; [apply Nat2Z.inj'|]. apply NoDup_seq.
Qed.

Lemma elem_of_py_range n x : x ∈ py_range n -> 0 <= x < n.
Proof.
  unfold py_range. intros Hx. apply list_elem_of_fmap in Hx as (k & -> & Hk).
  apply elem_of_seq in Hk. lia.
Qed.

Lemma box_within_positive U box : box_within U box -> Forall (Z.lt 0) U.
Proof.
  revert box. induction U as [|u U IH]; intros [|lo [|hi box]] H; cbn in H; try tauto.
  - constructor.
  - destruct H as (? & ? & ? & H). constructor; [lia | eauto].
Qed.

Lemma run_dict {B} p key v d (k : propval -> M V B) (w : world V) :
  heap w !! p = Some (ODict d) -> d !! key = Some v ->
  bind (dict_getitem p key) k w = k v w.
Proof. intros Hp Hk. unfold dict_getitem, bind. now rewrite Hp, Hk. Qed.

(** Reversal on a record that holds a consistent geometry: a batch of one
    item with [C] channels is turned into a canvas whose channel [c] is the
    reversed channel [c] of the batch inside the box and zero outside, and
    whose remaining channels are zero. *)
Lemma reverse_preprocessing_reseats d g tf tb A images p C (w : world V) :
  record_ok d g ->
  inverse_axes tf tb = true ->
  length tf = length (g_cropped g) ->
  heap w !! p = Some (ODict d) ->
  heap w !! base images = Some (OArray A) ->
  axes images = map (ARange 0) (1 :: C :: g_padded g) ->
  0 <= C <= py_len (plans_classes (plans (self w))) ->
  transpose_forward (self w) = tf ->
  transpose_backward (self w) = tb ->
  plans_crop_to_nonzero (plans (self w)) = true ->
  exists canvas w' Cv,
    reverse_preprocessing images p w = (Ok canvas, w') /\
    axes canvas =
      map (ARange 0) (1 :: py_len (plans_classes (plans (self w))) :: g_uncropped g) /\
    heap w' !! base canvas = Some (OArray Cv) /\
    shape Cv = 1 :: py_len (plans_classes (plans (self w))) :: g_uncropped g /\
    (forall c, 0 <= c < C ->
       exists R, channel_reversed tf tb A c g R /\ reseated g R Cv c) /\
    (forall c i, C <= c -> in_bounds (g_uncropped g) i = true ->
       data Cv (0 :: c :: i) = zero).
Proof.
  intros Hrec Hinv Hlen Hp HA Himg HC Htf Htb Hcrop.
  destruct (np_take_inverse_axes tf tb (g_cropped g) Hinv Hlen) as [sact Htake].
  pose proof Hrec as [Hos HrU _ HrCs _ _ Hrpad _ Hwithin _ _ _ _].
  destruct Hos as [os Hos].
  set (ncls := py_len (plans_classes (plans (self w)))) in *.
  set (lc := fresh (dom (heap w))).
  set (Cv0 := NdArray (1 :: ncls :: g_uncropped g) (fun _ : list Z => zero)).
  set (w1 := World (<[lc := OArray Cv0]> (heap w)) (files w) (trace w) (self w)).
  set (canvas := View lc (map (ARange 0) (1 :: ncls :: g_uncropped g))).
  assert (lc <> p) as Hlp.
  { intros E. unfold lc in E. rewrite <- E, fresh_loc_unused in Hp. discriminate. }
  assert (lc <> base images) as Hli.
  { intros E. unfold lc in E. rewrite <- E, fresh_loc_unused in HA. discriminate. }
  destruct (reverse_channels_run d g tf tb sact A images canvas p C ncls
              Hrec Hinv Hlen Htake Himg eq_refl Hli Hlp
              (py_range C) (py_range_NoDup C)) with (w := w1) (Cv := Cv0)
    as (w' & Cv' & Hrun & HCv' & Hs' & Hh' & Hself' & Hf' & Hout & Hin).
  { intros c Hc. apply elem_of_py_range in Hc. lia. }
  { unfold w1. cbn. now rewrite lookup_insert_ne. }
  { unfold w1. cbn. now rewrite lookup_insert_ne. }
  { unfold w1. cbn. apply lookup_insert_eq. }
  { exact Htf. }
  { exact Htb. }
  { exact Hcrop. }
  exists canvas, w', Cv'.
  split.
  - unfold reverse_preprocessing.
    rewrite run_get_self, (run_dict _ _ _ _ _ _ Hp Hos), (run_dict_ints _ _ _ _ _ _ Hp HrU).
    fold ncls.
    assert (np_zeros (1 :: ncls :: g_uncropped g) w = (Ok canvas, w1)) as Hz.
    { unfold np_zeros.
      assert (forallb (Z.leb 0) (1 :: ncls :: g_uncropped g) = true) as ->; [|reflexivity].
      apply forallb_forall. intros x Hx. apply Z.leb_le.
      destruct Hx as [<- | [<- | Hx]]; [lia | lia |].
      pose proof (box_within_positive _ _ Hwithin) as Hpos.
      rewrite Forall_forall in Hpos. apply list_elem_of_In in Hx.
      specialize (Hpos _ Hx). lia. }
    rewrite (bind_ok _ _ _ _ _ Hz).
    rewrite (run_dict_ints p _ (g_cropped g) d) by (unfold w1; cbn; now rewrite ?lookup_insert_ne).
    change (transpose_forward (self w)) with (transpose_forward (self w1)).
    cbn [self w1]. rewrite Htf, Htake, run_lift_ok.
    rewrite (run_dict_ints p _ (g_padding g) d) by (unfold w1; cbn; now rewrite ?lookup_insert_ne).
    unfold view_shape. rewrite Himg, axes_shape_full.
    change (py_getitem (1 :: C :: g_padded g) 0) with (Ok (A:=Z) 1).
    rewrite run_lift_ok.
    change (py_range 1) with [0]. cbn [py_for].
    assert (py_getitem (1 :: C :: g_padded g) 1 = Ok C) as ->.
    { apply (py_getitem_lookup _ 1%nat). reflexivity. }
    rewrite (bind_ok _ _ _ tt w').
    2:{ rewrite (bind_ok _ _ _ tt w'); [reflexivity|].
        rewrite run_lift_ok. exact Hrun. }
    reflexivity.
  - split; [reflexivity|]. split; [exact HCv'|]. split; [exact Hs'|]. split.
    + intros c Hc.
      destruct (Hin c) as (R & HR & Hd).
      { unfold py_range. apply list_elem_of_fmap. exists (Z.to_nat c).
        split; [lia|]. apply elem_of_seq. lia. }
      exists R. split; [exact HR|]. intros i Hi. now rewrite Hd.
    + intros c i Hc Hi. rewrite Hout; [reflexivity | exact Hi |].
      intros Hx. apply elem_of_py_range in Hx. lia.
Qed.

End ReverseCorrect.

(** ** The record that [preprocess_case_for_inference] produces *)

Section ForwardInference.
Context {V : Type} `{!Voxel V} `{!Externals V}.

Lemma run_lift_raise {A B} e (k : A -> M V B) w : bind (lift (Raise e)) k w = (Raise e, w).
Proof. reflexivity. Qed.

Lemma run_ret {A B} (a : A) (k : A -> M V B) w : bind (ret a) k w = k a w.
Proof. reflexivity. Qed.

Lemma py_map_Forall2 {A B} (f : A -> M V B) (P : A -> B -> Prop)
    (R : relation (world V)) `{!PreOrder R} xs :
  (forall x w y w', x ∈ xs -> f x w = (Ok y, w') -> P x y /\ R w w') ->
  forall w ys w', py_map f xs w = (Ok ys, w') -> Forall2 P xs ys /\ R w w'.
Proof.
  induction xs as [|x xs IH]; intros Hf w ys w' E; cbn in E.
  - apply ret_inv in E as [E ->]. inversion E. split; [constructor | reflexivity].
  - apply bind_ok_inv in E as (y & w1 & E1 & E).
    apply bind_ok_inv in E as (ys' & w2 & E2 & E).
    apply ret_inv in E as [E ->]. inversion E; subst ys.
    destruct (Hf x w y w1 ltac:(left) E1) as [HP HR1].
    destruct (IH (fun x' w0 y' w0' Hx => Hf x' w0 y' w0' ltac:(now right)) _ _ _ E2)
      as [HF HR2].
    split; [now constructor | now transitivity w1].
Qed.

Lemma lift_ok_inv {A} (r : result A) (w : world V) a w' :
  lift r w = (Ok a, w') -> r = Ok a /\ w' = w.
Proof. intros E. apply lift_inv in E as [<- ->]. auto. Qed.

Lemma nib_load_inv path (w : world V) img w' :
  nib_load path w = (Ok img, w') ->
  files w !! path = Some (FNifti img) /\ frame_but None w w'.
Proof.
  unfold nib_load, bind, emit. cbn.
  destruct (files w !! path) as [[i|a|d]|]; intros E; inversion E; subst.
  split; [reflexivity | now repeat split].
Qed.

Lemma np_transpose_ok_inv {A} (a r : ndarray A) axes_ :
  np_transpose a axes_ = Ok r ->
  length axes_ = length (shape a) /\ length (shape r) = length axes_.
Proof.
  unfold np_transpose.
  destruct (length axes_ =? length (shape a))%nat eqn:E; cbn [negb]; [|discriminate].
  apply Nat.eqb_eq in E. intros Hr. apply rbind_ok_inv in Hr as (axes' & Hax & Hr).
  destruct (no_dup axes'); cbn [negb] in Hr; [|discriminate].
  inversion Hr; subst r. cbn. rewrite length_map.
  apply rmapM_ok_inv in Hax as [Hl _]. split; [exact E | exact Hl].
Qed.

Lemma zip3_with_length {A B C D} (f : A -> B -> C -> D) la lb lc :
  length la = length lc -> length lb = length lc ->
  length (zip3_with f la lb lc) = length lc.
Proof.
  revert lb lc. induction la as [|a la IH]; intros [|b lb] [|c lc] H1 H2;
    try discriminate; cbn; [reflexivity|].
  f_equal. apply IH; [now inversion H1 | now inversion H2].
Qed.

Lemma np_stack_ok_inv (l : list (ndarray V)) stacked :
  np_stack zero l = Ok stacked ->
  exists a0, l !! 0%nat = Some a0 /\
             shape stacked = py_len l :: shape a0 /\
             Forall (fun a => shape a = shape a0) l.
Proof.
  unfold np_stack. destruct l as [|a0 l]; [discriminate|].
  destruct (forallb _ _) eqn:E; [|discriminate]. intros [= <-].
  exists a0. split; [reflexivity|]. split; [reflexivity|].
  apply Forall_forall. intros a Ha. rewrite forallb_forall in E.
  apply list_elem_of_In in Ha. specialize (E a Ha). now apply bool_decide_eq_true in E.
Qed.

Lemma py_getitem_0_inv {A} (l : list A) x : py_getitem l 0 = Ok x -> l !! 0%nat = Some x.
Proof. intros E. now apply py_getitem_nonneg_inv in E. Qed.

Lemma py_getitem_last_inv {A} (l : list A) x : py_getitem l (-1) = Ok x -> last l = Some x.
Proof.
  unfold py_getitem. change (-1 <? 0) with true. cbn [Z.add].
  destruct ((0 <=? -1 + Z.of_nat (length l)) && _) eqn:E; [|discriminate].
  apply andb_prop in E as [E _]. apply Z.leb_le in E.
  destruct (l !! Z.to_nat (-1 + Z.of_nat (length l))) as [y|] eqn:Hy; [|discriminate].
  intros [= <-]. rewrite last_lookup.
  replace (Nat.pred (length l)) with (Z.to_nat (-1 + Z.of_nat (length l))) by lia.
  exact Hy.
Qed.


Lemma call_resize_inv image s order aa (w : world V) r w' :
  call_resize image s order aa w = (r, w') ->
  r = resize image s order aa /\ frame_but None w w'.
Proof.
  unfold call_resize, bind, emit, lift. cbn. intros E. inversion E; subst.
  split; [reflexivity | now repeat split].
Qed.

Lemma try_resize_inv image s order aa msg (w : world V) r w' :
  try_except_OverflowError (call_resize image s order aa)
    (print msg ;; ret image) w = (Ok r, w') ->
  resized_to s order aa image r /\ frame_but None w w'.
Proof.
  unfold try_except_OverflowError, resized_to.
  destruct (call_resize image s order aa w) as [[a|e] w1] eqn:E1;
    apply call_resize_inv in E1 as [E1 F1]; intros E.
  - inversion E; subst. split; [left; congruence | exact F1].
  - destruct e; try discriminate E.
    unfold print, emit, bind, ret in E. cbn in E. inversion E; subst.
    split; [right; split; congruence|].
    destruct F1 as (F & S & Hh). now repeat split.
Qed.

Lemma resample_inv images seg norm_op tf os ts (w : world V) imgs' seg' w' :
  _resample_and_normalize_case images seg norm_op tf os ts w = (Ok (imgs', seg'), w') ->
  exists imgs_t os_t ts_t image0,
    length imgs_t = length images /\
    (forall k t, imgs_t !! k = Some t ->
       exists a scheme stats n,
         images !! k = Some a /\ normalizer a scheme stats = Ok n /\
         np_transpose n tf = Ok t) /\
    imgs_t !! 0%nat = Some image0 /\
    np_take os tf = Ok os_t /\ np_take ts tf = Ok ts_t /\
    Forall2 (resized_to (target_shape_of os_t ts_t (shape image0)) 3 None) imgs_t imgs' /\
    match seg, seg' with
    | Some s, Some s' =>
        exists st, np_transpose s tf = Ok st /\
          resized_to (target_shape_of os_t ts_t (shape image0)) 0 (Some false) st s'
    | None, None => True
    | _, _ => False
    end /\
    frame_but None w w'.
Proof.
  unfold _resample_and_normalize_case. intros E.
  rewrite run_get_self in E.
  apply bind_ok_inv in E as (intens & w1 & E1 & E).
  assert (w1 = w) as ->.
  { destruct (intensities (self w)); inversion E1; reflexivity. }
  apply bind_ok_inv in E as ([] & w1 & E2 & E).
  apply py_assert_ok_inv in E2 as [_ ->].
  apply bind_ok_inv in E as (imgs_t & w1 & E3 & E).
  apply (py_map_Forall2 _
           (fun i t => exists a scheme stats n,
              py_getitem images i = Ok a /\ normalizer a scheme stats = Ok n /\
              np_transpose n tf = Ok t) (frame_but None)) in E3 as [HF F3].
  2:{ intros i w0 t w0' _ Ei.
      apply bind_ok_inv in Ei as (a & wa & Ea & Ei). apply lift_ok_inv in Ea as [Ea ->].
      apply bind_ok_inv in Ei as (sc & wa & Es & Ei). apply lift_ok_inv in Es as [Es ->].
      apply bind_ok_inv in Ei as (st & wa & Est & Ei). apply lift_ok_inv in Est as [Est ->].
      apply bind_ok_inv in Ei as (n & wa & En & Ei). apply lift_ok_inv in En as [En ->].
      apply bind_ok_inv in Ei as ([] & wa & Ec & Ei).
      assert (wa = w0) as ->.
      { destruct (ndim n =? py_len tf); inversion Ec; reflexivity. }
      apply lift_ok_inv in Ei as [Ei ->].
      split; [|reflexivity]. exists a, sc, st, n. auto. }
  apply bind_ok_inv in E as (scheme0 & w2 & E4 & E). apply lift_ok_inv in E4 as [_ ->].
  apply bind_ok_inv in E as ([] & w2 & E5 & E).
  assert (frame_but None w1 w2) as F5.
  { unfold print, emit in E5. inversion E5; subst. now repeat split. }
  apply bind_ok_inv in E as (image0 & w3 & E6 & E). apply lift_ok_inv in E6 as [E6 ->].
  apply bind_ok_inv in E as (os_t & w3 & E7 & E). apply lift_ok_inv in E7 as [E7 ->].
  apply bind_ok_inv in E as (ts_t & w3 & E8 & E). apply lift_ok_inv in E8 as [E8 ->].
  apply bind_ok_inv in E as (imgs_r & w3 & E9 & E).
  apply (py_map_Forall2 _
           (resized_to (target_shape_of os_t ts_t (shape image0)) 3 None)
           (frame_but None)) in E9 as [HR F9].
  2:{ intros t w0 r w0' _ Et. unfold resample_image in Et.
      apply try_resize_inv in Et as [Hr Hf]. auto. }
  assert (imgs' = imgs_r /\
          match seg, seg' with
          | Some s, Some s' =>
              exists st, np_transpose s tf = Ok st /\
                resized_to (target_shape_of os_t ts_t (shape image0)) 0 (Some false) st s'
          | None, None => True
          | _, _ => False
          end /\ frame_but None w3 w') as (-> & Hseg & Fseg).
  { destruct seg as [s|].
    - apply bind_ok_inv in E as (st & w4 & E10 & E). apply lift_ok_inv in E10 as [E10 ->].
      apply bind_ok_inv in E as (s' & w4 & E11 & E).
      unfold resample_seg in E11. apply try_resize_inv in E11 as [Hs F11].
      apply ret_inv in E as [E ->]. inversion E; subst.
      split; [reflexivity|]. split; [exists st; auto | exact F11].
    - apply ret_inv in E as [E ->]. inversion E; subst.
      split; [reflexivity|]. split; [exact I | reflexivity]. }
  exists imgs_t, os_t, ts_t, image0.
  assert (length imgs_t = length images) as Hlen.
  { apply Forall2_length in HF. rewrite <- HF. unfold py_range, py_len.
    now rewrite length_map, length_seq, Nat2Z.id. }
  split; [exact Hlen|]. split.
  { intros k t Hk.
    destruct (Forall2_lookup_r _ _ _ _ _ HF Hk) as (i & Hi & a & sc & st & n & Ha & Hn & Ht).
    exists a, sc, st, n. repeat split; auto.
    unfold py_range in Hi. rewrite list_lookup_fmap in Hi.
    destruct (seq 0 _ !! k) as [k'|] eqn:Hk'; [|discriminate]. cbn in Hi.
    apply lookup_seq in Hk' as [-> _]. inversion Hi; subst i. cbn in Ha.
    apply py_getitem_nonneg_inv in Ha; [|lia]. now rewrite Nat2Z.id in Ha. }
  split; [now apply py_getitem_0_inv|].
  split; [exact E7|]. split; [exact E8|]. split; [exact HR|].
  split; [exact Hseg|].
  transitivity w1; [exact F3|]. transitivity w2; [exact F5|].
  transitivity w3; [exact F9 | exact Fseg].
Qed.

End ForwardInference.

Section ForwardRecord.
Context {V : Type} `{!Voxel V} `{!Externals V}.
Hypothesis Hext : externals_ok V.

Lemma print_inv msg (w : world V) r w' :
  print msg w = (r, w') -> frame_but None w w'.
Proof. unfold print, emit. intros E. inversion E; subst. now repeat split. Qed.

Lemma resized_to_shape target order aa (t r : ndarray V) :
  resized_to target order aa t r -> shape r = target /\ Forall (Z.le 0) target.
Proof.
  intros [Hr | [Hr _]].
  - eapply resize_ok; eauto.
  - exfalso. eapply resize_no_overflow; eauto.
Qed.

Lemma preprocess_record_ok paths patch (w : world V) tensor props w1 :
  plans_crop_to_nonzero (plans (self w)) = true ->
  preprocess_case_for_inference paths patch w = (Ok (tensor, props), w1) ->
  exists g,
    record_ok props g /\
    length (plans_transpose_forward (plans (self w))) = length (g_cropped g) /\
    shape tensor = 1 :: py_len paths :: g_padded g /\
    self w1 = initialized (self w) /\ heap w1 = heap w /\ files w1 = files w.
Proof.
  intros Hcrop E. unfold preprocess_case_for_inference in E.
  apply bind_ok_inv in E as ([] & wi & Einit & E).
  assert (wi = World (heap w) (files w) (trace w) (initialized (self w))) as Hwi.
  { unfold initialize_properties in Einit. rewrite run_get_self in Einit.
    unfold set_self in Einit. now inversion Einit. }
  rewrite run_get_self in E.
  assert (self wi = initialized (self w)) as Hself by (now subst wi).
  rewrite Hself in E.
  apply bind_ok_inv in E as (imgs & w2 & Eload & E).
  apply (py_map_Forall2 _ (fun _ _ => True) (frame_but None)) in Eload as [Hload F2].
  2:{ intros x w0 y w0' _ Ex. apply nib_load_inv in Ex as [_ F]. auto. }
  apply bind_ok_inv in E as (image0 & w3 & E0 & E). apply lift_ok_inv in E0 as [E0 ->].
  apply bind_ok_inv in E as ([] & w3 & Edim & E). apply py_assert_ok_inv in Edim as [Edim ->].
  apply bool_decide_eq_true in Edim.
  apply bind_ok_inv in E as ([images2 props0] & w3 & Ebr & E).
  assert (Forall2 (fun a b : nib_image V => length (img_shape b) = length (img_shape a))
            imgs images2 /\
          frame_but None w2 w3 /\
          props0 !! "original_shape" = Some (PInts (img_shape image0))) as (Himgs2 & F3 & Hos).
  { unfold orient_case_for_inference in Ebr. rewrite run_get_self in Ebr.
    destruct (truthy_code (img_qform_code image0) || _).
    - apply bind_ok_inv in Ebr as (imgs' & w4 & Ere & Ebr).
      apply (py_map_Forall2 _
               (fun a b : nib_image V => length (img_shape b) = length (img_shape a))
               (frame_but None)) in Ere as [Hre F4].
      2:{ intros x w0 y w0' _ Ex.
          apply bind_ok_inv in Ex as (t & wt & Et & Ex).
          assert (wt = w0) as ->.
          { destruct (plans_target_coordinate_system _); inversion Et; reflexivity. }
          apply lift_ok_inv in Ex as [Ex ->]. split; [|reflexivity].
          eapply reorient_ok; eauto. }
      apply bind_ok_inv in Ebr as (i1 & w5 & E1 & Ebr). apply lift_ok_inv in E1 as [_ ->].
      apply ret_inv in Ebr as [Ebr ->]. inversion Ebr; subst.
      split; [exact Hre|]. split; [exact F4|].
      now rewrite !lookup_insert_ne, lookup_insert_eq by discriminate.
    - apply bind_ok_inv in Ebr as ([] & w4 & Epr & Ebr). apply print_inv in Epr.
      apply ret_inv in Ebr as [Ebr ->]. inversion Ebr; subst.
      split; [apply Forall2_same_length_lookup_2; [reflexivity | congruence]|].
      split; [exact Epr|].
      now rewrite !lookup_insert_ne, lookup_insert_eq by discriminate. }
  clear Ebr.
  apply bind_ok_inv in E as (image1 & w4 & E1 & E). apply lift_ok_inv in E1 as [E1 ->].
  apply bind_ok_inv in E as (arr0 & w4 & E2 & E). apply lift_ok_inv in E2 as [E2 ->].
  rewrite Hself, Hcrop in E || (cbn [plans initialized] in E; rewrite Hcrop in E).
  apply bind_ok_inv in E as ([images4 props4] & w4 & Ecrop & E).
  apply bind_ok_inv in Ecrop as (box & w5 & Ebox & Ecrop). apply lift_ok_inv in Ebox as [Ebox ->].
  apply bind_ok_inv in Ecrop as (crops & w5 & Ecr & Ecrop).
  apply (py_map_Forall2 _ (fun a b : ndarray V => crop_to_box a box = Ok b) eq) in Ecr
    as [Hcr <-].
  2:{ intros x w0 y w0' _ Ex. apply lift_ok_inv in Ex as [Ex ->]. auto. }
  apply ret_inv in Ecrop as [Ecrop ->]. inversion Ecrop; subst images4 props4. clear Ecrop.
  apply bind_ok_inv in E as (c0 & w5 & E3 & E). apply lift_ok_inv in E3 as [E3 ->].
  apply bind_ok_inv in E as ([images5 seg5] & w5 & Ers & E).
  apply resample_inv in Ers
    as (imgs_t & os_t & ts_t & it0 & Hlt & Ht & Hit0 & Hos_t & Hts_t & Hrs & _ & F5).
  apply bind_ok_inv in E as (r0 & w6 & E4 & E). apply lift_ok_inv in E4 as [E4 ->].
  apply bind_ok_inv in E as (padded & w6 & Epad & E).
  apply (py_map_Forall2 _ (fun a (b : ndarray V * list Z) => pad_to_size a patch = Ok b) eq)
    in Epad as [Hpad <-].
  2:{ intros x w0 y w0' _ Ex. apply lift_ok_inv in Ex as [Ex ->]. auto. }
  apply bind_ok_inv in E as (padding & w6 & E5 & E). apply lift_ok_inv in E5 as [E5 ->].
  apply bind_ok_inv in E as (p0 & w6 & E6 & E). apply lift_ok_inv in E6 as [E6 ->].
  apply bind_ok_inv in E as (stacked & w6 & E7 & E). apply lift_ok_inv in E7 as [E7 ->].
  apply ret_inv in E as [E ->]. inversion E; subst tensor props. clear E.
  (* the first volume, its array, its crop *)
  apply py_getitem_0_inv in E0, E1, E2, E3, E4, E6.
  assert (arr0 = nib_to_np image1) as Harr0.
  { rewrite list_lookup_fmap, E1 in E2. now inversion E2. }
  assert (length (shape arr0) = 2%nat \/ length (shape arr0) = 3%nat) as Hdim.
  { rewrite Harr0, (nib_to_np_ok Hext).
    destruct (Forall2_lookup_l _ _ _ _ _ Himgs2 E0) as (i1 & Hi1 & Hl1).
    rewrite E1 in Hi1. inversion Hi1; subst i1. rewrite Hl1.
    unfold py_len in Edim. apply elem_of_cons in Edim as [Hd | Hd]; [left; lia|].
    apply elem_of_cons in Hd as [Hd | Hd]; [right; lia | inversion Hd]. }
  pose proof (bbox_ok Hext _ _ _ Ebox) as Hwithin.
  destruct (box_within_lengths _ _ Hwithin) as (_ & Hle & _).
  assert (crop_to_box arr0 box = Ok c0) as Hc0.
  { destruct (Forall2_lookup_l _ _ _ _ _ Hcr E2) as (c & Hc & Hcc).
    rewrite E3 in Hc. now inversion Hc. }
  pose proof (crop_ok Hext _ _ _ Hc0 Hwithin) as Hsc0.
  (* normalize, transpose, resample *)
  destruct (Ht _ _ Hit0) as (a & sc & st & n & Ha & Hn & Htr).
  rewrite E3 in Ha. inversion Ha; subst a. clear Ha.
  apply (normalizer_ok Hext) in Hn.
  apply np_transpose_ok_inv in Htr as [Htf1 Htf2].
  cbn [transpose_forward initialized] in *.
  set (target := target_shape_of os_t ts_t (shape it0)) in *.
  assert (length target = length (plans_transpose_forward (plans (self w)))) as Hltarget.
  { unfold target, target_shape_of.
    apply rmapM_ok_inv in Hos_t as [Hlo _]. apply rmapM_ok_inv in Hts_t as [Hlts _].
    rewrite zip3_with_length; congruence. }
  assert (Forall (fun r : ndarray V => shape r = target) images5 /\
          (images5 <> [] -> Forall (Z.le 0) target)) as [Hall Hnn].
  { clear -Hrs Hext. induction Hrs as [|t r ts rs Hr _ [IH1 IH2]].
    - split; [constructor | congruence].
    - destruct (resized_to_shape _ _ _ _ _ Hr) as [H1 H2].
      split; [constructor; assumption | auto]. }
  assert (shape r0 = target) as Hsr0.
  { rewrite Forall_lookup in Hall. eapply Hall; eauto. }
  specialize (Hnn ltac:(intros ->; discriminate)).
  (* pad and stack *)
  apply np_stack_ok_inv in E7 as (a0 & Ha0 & Hss & Hsame).
  rewrite E6 in Ha0. inversion Ha0; subst a0. clear Ha0.
  apply py_getitem_last_inv in E5.
  assert (pads_between target padding (shape p0)) as Hpads.
  { rewrite fmap_last in E5.
    destruct (last padded) as [[pl pd]|] eqn:Hlast; [|discriminate].
    cbn in E5. inversion E5; subst pd.
    rewrite last_lookup in Hlast.
    destruct (Forall2_lookup_r _ _ _ _ _ Hpad Hlast) as (rl & Hrl & Hp).
    apply (pad_ok Hext) in Hp.
    rewrite Forall_lookup in Hall. rewrite (Hall _ _ Hrl) in Hp.
    assert (shape pl = shape p0) as <-; [|exact Hp].
    rewrite Forall_lookup in Hsame. apply (Hsame (Nat.pred (length padded))).
    now rewrite list_lookup_fmap, Hlast. }
  exists (Geometry (shape arr0) box (shape c0) (shape r0) (shape p0) padding).
  cbn [g_uncropped g_box g_cropped g_resampled g_padded g_padding].
  split.
  { constructor; cbn [g_uncropped g_box g_cropped g_resampled g_padded g_padding].
    - rewrite !lookup_insert_ne by discriminate. eauto.
    - now rewrite !lookup_insert_ne, lookup_insert_eq by discriminate.
    - now rewrite !lookup_insert_ne, lookup_insert_eq by discriminate.
    - now rewrite !lookup_insert_ne, lookup_insert_eq by discriminate.
    - now rewrite !lookup_insert_ne, lookup_insert_eq by discriminate.
    - now rewrite !lookup_insert_ne, lookup_insert_eq by discriminate.
    - now rewrite lookup_insert_eq.
    - exact Hdim.
    - exact Hwithin.
    - exact Hsc0.
    - rewrite Hsr0, Hltarget, Htf1, Hn, Hsc0. exact Hle.
    - now rewrite Hsr0.
    - now rewrite Hsr0. }
  split; [now rewrite Htf1, Hn|].
  split.
  { cbn. rewrite Hss. f_equal. f_equal. unfold py_len. f_equal.
    rewrite length_map.
    apply Forall2_length in Hload, Himgs2, Hcr, Hrs, Hpad.
    rewrite length_map in Hcr. congruence. }
  destruct F2 as (Ff2 & Fs2 & Fh2), F3 as (Ff3 & Fs3 & Fh3), F5 as (Ff5 & Fs5 & Fh5).
  subst wi. cbn in *.
  split; [congruence|]. split; [|congruence].
  apply map_eq. intros l. rewrite Fh5, Fh3, Fh2 by discriminate. reflexivity.
Qed.


End ForwardRecord.

(** ** The concrete instance meets the assumptions *)

(** ** An overflow in [resize] *)

Section Overflow.
Context {V : Type} `{!Voxel V} `{!Externals V}.

Lemma py_range_pos n : 0 < n -> exists l, py_range n = 0 :: l.
Proof.
  intros Hn. unfold py_range. destruct (Z.to_nat n) as [|k] eqn:E; [lia|].
  cbn. eauto.
Qed.

Lemma resample_overflow (image : ndarray V) target order aa msg (w : world V) :
  resize image target order aa = Raise OverflowError ->
  try_except_OverflowError (call_resize image target order aa) (print msg ;; ret image) w
  = (Ok image,
     World (heap w) (files w)
           (trace w ++ [EvResize (shape image) target order; EvPrint msg]) (self w)).
Proof.
  intros E. unfold try_except_OverflowError, call_resize, bind, emit, lift, print, ret.
  cbn. rewrite E. cbn. now rewrite <- app_assoc.
Qed.

Lemma reverse_channel_overflow images p canvas sact pad b c (w : world V) u w' :
  (forall a, resize a sact 3 None = Raise OverflowError) ->
  reverse_channel images p canvas sact pad b c w = (Ok u, w') -> False.
Proof.
  intros Hov E. unfold reverse_channel in E. rewrite run_get_self in E.
  do 9 (apply bind_ok_inv in E as (? & ? & _ & E)).
  apply bind_ok_inv in E as (r & w1 & Er & _).
  apply call_resize_inv in Er as [Er _]. rewrite Hov in Er. discriminate.
Qed.


End Overflow.

(** ** The shape that a case is resampled to *)

Section TargetShape.
Context {V : Type} `{!Voxel V} `{!Externals V}.
Hypothesis Hext : externals_ok V.

Lemma zip3_with_lookup {A B C D} (f : A -> B -> C -> D) la lb lc (k : nat) a b c :
  la !! k = Some a -> lb !! k = Some b -> lc !! k = Some c ->
  zip3_with f la lb lc !! k = Some (f a b c).
Proof.
  revert la lb lc. induction k as [|k IH]; intros [|a' la] [|b' lb] [|c' lc] Ha Hb Hc;
    try discriminate; cbn in *.
  - congruence.
  - now apply IH.
Qed.

Lemma np_take_length {A} (l : list A) idx r : np_take l idx = Ok r -> length r = length idx.
Proof. intros E. now apply rmapM_ok_inv in E as [E _]. Qed.

Lemma choose_target_spacing_spec (this : preprocessor V) os :
  choose_target_spacing this os =
  match target_spacing this with [] => os | _ :: _ => target_spacing this end.
Proof.
  unfold choose_target_spacing, py_len. destruct (target_spacing this) as [|t ts]; cbn.
  - reflexivity.
  - destruct (0 <? Z.of_nat (S (length ts))) eqn:E; [reflexivity|].
    apply Z.ltb_ge in E. lia.
Qed.


End TargetShape.

Module ExampleFacts.
Import Example.

Lemma all_indices_in_bounds sh i : i ∈ all_indices sh -> in_bounds sh i = true.
Proof.
  revert i. induction sh as [|d sh IH]; intros i Hi; cbn in Hi.
  - apply list_elem_of_singleton in Hi as ->. reflexivity.
  - apply list_elem_of_In, in_flat_map in Hi as (x & Hx & Hi).
    apply list_elem_of_In, elem_of_py_range in Hx.
    apply list_elem_of_In, list_elem_of_fmap in Hi as (i' & -> & Hi').
    cbn. rewrite (IH _ Hi'), andb_true_r.
    apply andb_true_intro. split; [apply Z.leb_le | apply Z.ltb_lt]; lia.
Qed.

Lemma list_min_bounds a b x0 xs :
  a <= x0 < b -> Forall (fun x => a <= x < b) xs ->
  a <= list_min x0 xs < b /\ list_min x0 xs <= x0.
Proof.
  intros H0. induction 1 as [|x xs Hx _ IH]; cbn; [lia|].
  fold (list_min x0 xs). lia.
Qed.

Lemma list_max_bounds a b x0 xs :
  a <= x0 < b -> Forall (fun x => a <= x < b) xs ->
  a <= list_max x0 xs < b /\ x0 <= list_max x0 xs.
Proof.
  intros H0. induction 1 as [|x xs Hx _ IH]; cbn; [lia|].
  fold (list_max x0 xs). lia.
Qed.

Lemma bbox_axes_within sh fg :
  fg <> [] -> Forall (fun i => in_bounds sh i = true) fg ->
  box_within sh (bbox_axes fg sh).
Proof.
  revert fg. induction sh as [|d sh IH]; intros fg Hne Hfg; cbn; [exact I|].
  assert (Forall (fun x => 0 <= x < d) (map headZ fg)) as Hxs.
  { apply Forall_fmap. eapply Forall_impl; [exact Hfg|].
    intros [|x i] Hi; [discriminate|]. cbn in Hi.
    apply andb_prop in Hi as [Hi _]. apply andb_prop in Hi as [H1 H2].
    apply Z.leb_le in H1. apply Z.ltb_lt in H2. cbn. unfold headZ, nthZ. cbn. lia. }
  assert (0 <= headZ (map headZ fg) < d) as H0.
  { destruct fg as [|i fg]; [congruence|]. inversion Hxs; subst. assumption. }
  destruct (list_min_bounds 0 d _ _ H0 Hxs) as [Hmin Hmin'].
  destruct (list_max_bounds 0 d _ _ H0 Hxs) as [Hmax Hmax'].
  repeat split; try lia.
  apply IH.
  - destruct fg; [congruence | discriminate].
  - apply Forall_fmap. eapply Forall_impl; [exact Hfg|].
    intros [|x i] Hi; [discriminate|]. cbn in Hi. apply andb_prop in Hi as [_ Hi].
    exact Hi.
Qed.

Lemma foreground_bbox_within (a : ndarray Z) bg box :
  foreground_bbox a bg = Ok box -> box_within (shape a) box.
Proof.
  unfold foreground_bbox.
  destruct (filter _ (all_indices (shape a))) as [|i fg] eqn:E; [discriminate|].
  intros [= <-]. apply bbox_axes_within; [discriminate|].
  rewrite <- E. apply Forall_forall. intros j Hj.
  apply list_elem_of_filter in Hj as [_ Hj]. now apply all_indices_in_bounds.
Qed.

Lemma slice_shape_box sh box :
  box_within sh box -> slice_shape (box_slices box) sh = box_extents box.
Proof.
  revert box. induction sh as [|d sh IH]; intros [|lo [|hi box]] H; cbn in H; try tauto.
  destruct H as (H1 & H2 & H3 & H4). cbn -[slice_range].
  rewrite slice_range_inner by lia. cbn. f_equal. now apply IH.
Qed.

Lemma pad_widths_between sh size :
  length size = length sh ->
  pads_between sh (pad_widths sh size) (padded_shape sh (pad_widths sh size)).
Proof.
  revert size. induction sh as [|d sh IH]; intros [|t size] H; try discriminate; cbn.
  - exact I.
  - assert (0 <= Z.max 0 (t - d)) as Hv by lia.
    repeat split.
    + apply Z.div_pos; lia.
    + pose proof (Z.div_pos _ 2 Hv ltac:(lia)).
      pose proof (Z.mod_pos_bound (Z.max 0 (t - d)) 2 ltac:(lia)). lia.
    + apply IH. now inversion H.
Qed.

Lemma externals_with_ok resize_ :
  (forall a r s order aa, resize_ a s order aa = Ok r -> shape r = s /\ Forall (Z.le 0) s) ->
  (forall a s order aa, resize_ a s order aa <> Raise OverflowError) ->
  (forall a s order aa, Forall (Z.lt 0) s -> length s = length (shape a) ->
                        exists r, resize_ a s order aa = Ok r) ->
  @externals_ok Z voxel_Z (externals_with resize_).
Proof.
  intros H1 H2 H3. constructor; cbn.
  - apply foreground_bbox_within.
  - intros a a' box Hc Hw. unfold crop, np_slice in Hc.
    destruct (_ <? _)%nat; [discriminate|]. inversion Hc; subst a'. cbn.
    now apply slice_shape_box.
  - intros a a' scheme stats. unfold no_norm. destruct (bool_decide _); [|discriminate].
    now intros [= <-].
  - exact H1.
  - exact H2.
  - exact H3.
  - intros a a' size pad. unfold zero_pad.
    destruct (length size =? length (shape a))%nat eqn:E; cbn [negb]; [|discriminate].
    apply Nat.eqb_eq in E. intros [= <- <-]. cbn. now apply pad_widths_between.
  - reflexivity.
  - intros img img' from to. unfold reorient. destruct (negb _); [discriminate|].
    now intros [= <-].
Qed.

Lemma externals_Z_ok : @externals_ok Z voxel_Z externals_Z.
Proof.
  apply externals_with_ok.
  - intros a r s order aa. unfold nn_resize.
    destruct (negb _); [discriminate|].
    destruct (forallb (Z.leb 0) s) eqn:E; [|discriminate].
    intros [= <-]. split; [reflexivity|].
    apply Forall_forall. intros x Hx. rewrite forallb_forall in E.
    apply Z.leb_le, E. now apply list_elem_of_In.
  - intros a s order aa. unfold nn_resize.
    destruct (negb _); [discriminate|]. destruct (forallb _ _); discriminate.
  - intros a s order aa Hs Hl. unfold nn_resize. rewrite Hl, Nat.eqb_refl. cbn [negb].
    assert (forallb (Z.leb 0) s = true) as ->; [|eauto].
    apply forallb_forall. intros x Hx. apply Z.leb_le.
    rewrite Forall_forall in Hs. apply list_elem_of_In in Hx. specialize (Hs _ Hx). lia.
Qed.

End ExampleFacts.

(** ** The training preprocessor *)

Section Training.
Context {V : Type} `{!Voxel V} `{!Externals V}.

Lemma run_print {B} msg (k : unit -> M V B) (w : world V) :
  bind (print msg) k w =
  k tt (World (heap w) (files w) (trace w ++ [EvPrint msg]) (self w)).
Proof. reflexivity. Qed.

Lemma run_isfile {B} path (k : bool -> M V B) (w : world V) :
  bind (isfile path) k w = k (bool_decide (is_Some (files w !! path))) w.
Proof. reflexivity. Qed.

Lemma run_getattr {A B} name (a : A) (k : A -> M V B) (w : world V) :
  bind (getattr name (Some a)) k w = k a w.
Proof. reflexivity. Qed.

Lemma ensures_bind {A B} Q (m : M V A) (k : A -> M V B) :
  (forall a, ensures Q (k a)) -> ensures Q (bind m k).
Proof.
  intros Hk w b w' E. apply bind_ok_inv in E as (a & w1 & _ & E). eapply Hk; eauto.
Qed.

Lemma save_train_subject_writes sid ap pp props images seg os osz oo fd ts :
  ensures (fun w => is_Some (files w !! ap) /\ is_Some (files w !! pp))
          (save_train_subject sid ap pp props images seg os osz oo fd ts).
Proof.
  unfold save_train_subject.
  apply ensures_bind; intros this.
  apply ensures_bind; intros stacked.
  apply ensures_bind; intros imgs.
  apply ensures_bind; intros gt.
  destruct (connected_components gt) as [numbered n].
  apply ensures_bind; intros ns.
  apply ensures_bind; intros [].
  intros w [] w' E. unfold np_save, save_pickle, write_file in E.
  unfold bind, emit in E. cbn in E. inversion E; subst. cbn.
  split.
  - destruct (decide (pp = ap)) as [->|Hne].
    + rewrite lookup_insert_eq. eauto.
    + rewrite lookup_insert_ne, lookup_insert_eq by congruence. eauto.
  - rewrite lookup_insert_eq. eauto.
Qed.

Lemma process_train_subject_writes sid ap pp :
  ensures (fun w => is_Some (files w !! ap) /\ is_Some (files w !! pp))
          (process_train_subject sid ap pp).
Proof.
  unfold process_train_subject.
  apply ensures_bind; intros this.
  apply ensures_bind; intros [[props images] seg].
  apply ensures_bind; intros [].
  apply ensures_bind; intros image0.
  apply ensures_bind; intros [[[oo fd] imgs] sarr].
  apply ensures_bind; intros [].
  apply ensures_bind; intros [[props' imgs'] seg'].
  apply ensures_bind; intros [imgs'' seg''].
  apply ensures_bind; intros seg3.
  apply save_train_subject_writes.
Qed.

#[local] Instance same_self_preorder : PreOrder (same_self (V:=V)).
Proof. split; [intros w; reflexivity | intros a b c; unfold same_self; congruence]. Qed.

Lemma always_stable (R : relation (world V)) w w' : always w -> R w w' -> always w'.
Proof. intros _ _. exact I. Qed.

Lemma frame_same_self l (w w' : world V) : frame_but l w w' -> same_self w w'.
Proof. intros (_ & S & _). exact S. Qed.

Lemma keeps_same_self_of_frame {A} (m : M V A) :
  (forall w r w', m w = (r, w') -> frame_but None w w') -> keeps always same_self m.
Proof. intros H w r w' _ E. eapply frame_same_self, H, E. Qed.

Lemma nib_load_frame path (w : world V) r w' :
  nib_load path w = (r, w') -> frame_but None w w'.
Proof.
  unfold nib_load, bind, emit. cbn.
  destruct (files w !! path) as [[i|a|d]|]; intros E; inversion E; subst;
    now repeat split.
Qed.

Lemma write_file_same_self path (f : file V) :
  keeps always same_self (write_file path f).
Proof. intros w r w' _ E. inversion E; subst. reflexivity. Qed.

Ltac sbind := apply keeps_bind; [apply _ | apply always_stable | | ].
Ltac sleaf :=
  first [ apply keeps_ret; apply _
        | apply keeps_raise; apply _
        | apply keeps_lift; apply _
        | apply keeps_assert; apply _
        | apply keeps_get_self; apply _
        | apply keeps_getattr; apply _
        | apply keeps_same_self_of_frame; intros ? ? ?; apply print_inv
        | apply keeps_same_self_of_frame; intros ? ? ?; apply nib_load_frame
        | apply keeps_same_self_of_frame; intros ? ? ? HE;
          apply call_resize_inv in HE as [_ HE]; exact HE
        | apply write_file_same_self ].

Lemma resample_same_self images seg norm tf os ts :
  keeps always same_self (_resample_and_normalize_case images seg norm tf os ts).
Proof.
  unfold _resample_and_normalize_case.
  sbind; [sleaf | intros ? ? ? _ _].
  sbind; [sleaf | intros ? ? ? _ _].
  sbind; [sleaf | intros ? ? ? _ _].
  sbind.
  { apply keeps_map; [apply _ | apply always_stable |]. intros i _.
    do 4 (sbind; [sleaf | intros ? ? ? _ _]).
    sbind; [destruct (_ =? _); sleaf | intros ? ? ? _ _]. sleaf. }
  intros ? ? ? _ _.
  do 5 (sbind; [sleaf | intros ? ? ? _ _]).
  sbind.
  { apply keeps_map; [apply _ | apply always_stable |]. intros i _.
    apply keeps_try; [apply _ | apply always_stable | sleaf |].
    sbind; [sleaf | intros ? ? ? _ _; sleaf]. }
  intros ? ? ? _ _.
  destruct seg as [sg|]; [|sleaf].
  sbind; [sleaf | intros ? ? ? _ _].
  sbind; [|intros ? ? ? _ _; sleaf].
  apply keeps_try; [apply _ | apply always_stable | sleaf |].
  sbind; [sleaf | intros ? ? ? _ _; sleaf].
Qed.

Lemma process_train_subject_same_self sid ap pp :
  keeps always same_self (process_train_subject sid ap pp).
Proof.
  unfold process_train_subject.
  sbind; [sleaf | intros ? ? ? _ _].
  sbind.
  { unfold load_train_subject.
    do 2 (sbind; [sleaf | intros ? ? ? _ _]).
    sbind; [apply keeps_map; [apply _ | apply always_stable | intros; sleaf]
           | intros ? ? ? _ _].
    do 2 (sbind; [sleaf | intros ? ? ? _ _]). sleaf. }
  intros [[props images] seg] ? ? _ _.
  sbind.
  { unfold validate_train_subject.
    sbind; [sleaf | intros ? ? ? _ _].
    destruct (disable_unittests _); [sleaf|].
    do 3 (sbind; [sleaf | intros ? ? ? _ _]).
    do 4 (sbind; [sleaf | intros ? ? ? _ _]).
    destruct (1 <? _); [|sleaf].
    apply keeps_for; [apply _ | apply always_stable |]. intros img _.
    do 3 (sbind; [sleaf | intros ? ? ? _ _]). sleaf. }
  intros ? ? ? _ _.
  sbind; [sleaf | intros ? ? ? _ _].
  sbind.
  { unfold orient_train_subject.
    do 2 (sbind; [sleaf | intros ? ? ? _ _]).
    destruct (_ || _); [|sleaf].
    sbind; [destruct (plans_target_coordinate_system _); sleaf | intros ? ? ? _ _].
    sbind.
    { apply keeps_map; [apply _ | apply always_stable |]. intros img _.
      sbind; [sleaf | intros ? ? ? _ _; sleaf]. }
    intros ? ? ? _ _. sbind; [sleaf | intros ? ? ? _ _; sleaf]. }
  intros [[[oo fd] imgs] sarr] ? ? _ _.
  sbind; [unfold check_labels; sbind; [sleaf | intros ? ? ? _ _; sleaf]
         | intros ? ? ? _ _].
  sbind.
  { unfold crop_train_subject.
    sbind; [sleaf | intros ? ? ? _ _].
    destruct (plans_crop_to_nonzero _); [|sleaf].
    do 2 (sbind; [sleaf | intros ? ? ? _ _]).
    sbind; [apply keeps_map; [apply _ | apply always_stable | intros; sleaf]
           | intros ? ? ? _ _].
    sbind; [sleaf | intros ? ? ? _ _; sleaf]. }
  intros [[props' imgs'] seg'] ? ? _ _.
  sbind; [apply resample_same_self | intros [imgs'' seg''] ? ? _ _].
  sbind; [destruct seg''; sleaf | intros ? ? ? _ _].
  unfold save_train_subject.
  do 4 (sbind; [sleaf | intros ? ? ? _ _]).
  destruct (connected_components _) as [numbered n].
  sbind; [sleaf | intros ? ? ? _ _].
  sbind; [sleaf | intros ? ? ? _ _].
  sbind; [unfold np_save; sleaf | intros ? ? ? _ _].
  unfold save_pickle. sleaf.
Qed.

(** C8. A case whose array file and metadata file both exist is skipped:
    the call returns at once, having printed its two messages and nothing
    else - no file is loaded, nothing is resampled, nothing is written.  So
    a second run over a case that a first run completed leaves the files
    exactly as the first run left them. *)
Theorem preprocess_train_subject_idempotent subject_id dir (w : world V) :
  target_dir (self w) = Some dir ->
  let case_id := drop_last_chars 7 subject_id in
  let arraypath := path_join dir (case_id +:+ ".npy") in
  let picklepath := path_join dir (case_id +:+ ".pkl") in
  let skipped (w0 : world V) :=
    World (heap w0) (files w0)
          (trace w0 ++ [EvPrint ("Preprocessing: " +:+ case_id);
                        EvPrint ("Case: " +:+ case_id +:+ " already exists. Skipping.")])
          (self w0) in
  (is_Some (files w !! arraypath) -> is_Some (files w !! picklepath) ->
   _preprocess_train_subject subject_id w = (Ok tt, skipped w)) /\
  (forall w1, _preprocess_train_subject subject_id w = (Ok tt, w1) ->
              _preprocess_train_subject subject_id w1 = (Ok tt, skipped w1)).
Proof.
  intros Hdir case_id arraypath picklepath skipped.
  assert (forall w0 : world V,
            target_dir (self w0) = Some dir ->
            is_Some (files w0 !! arraypath) -> is_Some (files w0 !! picklepath) ->
            _preprocess_train_subject subject_id w0 = (Ok tt, skipped w0)) as Hskip.
  { intros w0 Hd Ha Hp. unfold _preprocess_train_subject.
    rewrite run_get_self. fold case_id. rewrite run_print.
    cbn [self]. rewrite Hd, run_getattr. fold arraypath picklepath.
    rewrite !run_isfile. cbn [files].
    rewrite !bool_decide_eq_true_2 by assumption. cbn [andb].
    unfold print, emit, skipped. cbn. now rewrite <- app_assoc. }
  split; [now apply Hskip|].
  intros w1 E. unfold _preprocess_train_subject in E.
  rewrite run_get_self in E. fold case_id in E. rewrite run_print in E.
  cbn [self] in E. rewrite Hdir, run_getattr in E. fold arraypath picklepath in E.
  rewrite !run_isfile in E. cbn [files] in E.
  destruct (bool_decide (is_Some (files w !! arraypath))) eqn:Ea;
    [destruct (bool_decide (is_Some (files w !! picklepath))) eqn:Ep|]; cbn [andb] in E.
  - apply bool_decide_eq_true in Ea, Ep.
    unfold print, emit in E. inversion E; subst w1. now apply Hskip.
  - pose proof (process_train_subject_writes _ _ _ _ _ _ E) as [Ha Hp].
    apply process_train_subject_same_self in E; [|exact I].
    apply Hskip; auto. unfold same_self in E. cbn in E. congruence.
  - pose proof (process_train_subject_writes _ _ _ _ _ _ E) as [Ha Hp].
    apply process_train_subject_same_self in E; [|exact I].
    apply Hskip; auto. unfold same_self in E. cbn in E. congruence.
Qed.


Lemma isclose_refl a : isclose a a = true.
Proof.
  unfold isclose. apply Qle_bool_iff.
  assert (Qabs (a - a) == 0)%Q as ->.
  { assert (a - a == 0)%Q as -> by ring. reflexivity. }
  pose proof (Qabs_nonneg a).
  apply (Qle_trans _ ((1 # 100000000) + 0)%Q); [discriminate|].
  apply Qplus_le_compat; [apply Qle_refl|].
  apply Qmult_le_0_compat; [discriminate | assumption].
Qed.

Lemma np_allclose_refl l : np_allclose l l = Ok true.
Proof.
  unfold np_allclose. rewrite Nat.eqb_refl. f_equal.
  induction l as [|a l IH]; cbn; [reflexivity|]. now rewrite isclose_refl, IH.
Qed.

Lemma py_for_ok_inv {A} (xs : list A) (body : A -> M V unit) (P : A -> Prop) :
  (forall x w w', body x w = (Ok tt, w') -> P x /\ w' = w) ->
  forall w w', py_for xs body w = (Ok tt, w') -> Forall P xs /\ w' = w.
Proof.
  intros Hb. induction xs as [|x xs IH]; intros w w' E; cbn in E.
  - apply ret_inv in E as [_ ->]. split; [constructor | reflexivity].
  - apply bind_ok_inv in E as ([] & w1 & E1 & E).
    apply Hb in E1 as [HP ->]. apply IH in E as [HF ->].
    split; [now constructor | reflexivity].
Qed.

Lemma agrees_checks subject_id image0 vol (k : M V unit) (w w' : world V) :
  (py_assert (bool_decide (img_shape image0 = img_shape vol))
     ("Sizes do not match for " +:+ subject_id) ;;
   let* close := lift (np_allclose (get_nib_spacing image0) (get_nib_spacing vol)) in
   py_assert close ("Spacings do not match for " +:+ subject_id) ;;
   py_assert (bool_decide (get_nib_orientation image0 = get_nib_orientation vol))
     ("Directions do not match for " +:+ subject_id) ;; k) w = (Ok tt, w') ->
  agrees image0 vol /\ k w = (Ok tt, w').
Proof.
  intros E.
  apply bind_ok_inv in E as ([] & w1 & E1 & E). apply py_assert_ok_inv in E1 as [H1 ->].
  apply bind_ok_inv in E as (c & w1 & E2 & E). apply lift_ok_inv in E2 as [H2 ->].
  apply bind_ok_inv in E as ([] & w1 & E3 & E). apply py_assert_ok_inv in E3 as [-> ->].
  apply bind_ok_inv in E as ([] & w1 & E4 & E). apply py_assert_ok_inv in E4 as [H4 ->].
  apply bool_decide_eq_true in H1, H4. split; [|exact E]. now repeat split.
Qed.

Lemma validate_ok_inv subject_id images seg (w w' : world V) :
  disable_unittests (self w) = false ->
  validate_train_subject subject_id images seg w = (Ok tt, w') ->
  exists image0,
    images !! 0%nat = Some image0 /\
    py_len (img_shape image0) = plans_data_dimensions (plans (self w)) /\
    Forall (agrees image0) (images ++ [seg]).
Proof.
  intros Hd E. unfold validate_train_subject in E.
  rewrite run_get_self, Hd in E.
  apply bind_ok_inv in E as ([] & w1 & E1 & E). apply py_assert_ok_inv in E1 as [Hlen ->].
  apply bind_ok_inv in E as (image0 & w1 & E2 & E). apply lift_ok_inv in E2 as [E2 ->].
  apply py_getitem_0_inv in E2.
  apply bind_ok_inv in E as ([] & w1 & E3 & E). apply py_assert_ok_inv in E3 as [Hdim ->].
  apply Z.eqb_eq in Hdim.
  apply (agrees_checks subject_id image0 seg) in E as [Hseg E].
  exists image0. split; [exact E2|]. split; [exact Hdim|].
  apply Forall_app. split; [|constructor; [exact Hseg | constructor]].
  destruct (1 <? py_len images) eqn:Hmany.
  - apply (py_for_ok_inv _ _ (agrees image0)) in E as [HF _]; [exact HF|].
    intros img w0 w0' Ei.
    assert (w0' = w0 /\ agrees image0 img) as [-> Ha]; [|auto].
    replace (Ok tt, w0') with (@Ok unit tt, w0') in Ei by reflexivity.
    apply bind_ok_inv in Ei as ([] & wa & E1 & Ei). apply py_assert_ok_inv in E1 as [H1 ->].
    apply bind_ok_inv in Ei as (c & wa & E4 & Ei). apply lift_ok_inv in E4 as [H2 ->].
    apply bind_ok_inv in Ei as ([] & wa & E5 & Ei). apply py_assert_ok_inv in E5 as [-> ->].
    apply py_assert_ok_inv in Ei as [H4 ->].
    apply bool_decide_eq_true in H1, H4. now repeat split.
  - apply Z.ltb_ge in Hmany. apply Z.ltb_lt in Hlen. unfold py_len in *.
    destruct images as [|i0 [|i1 images]]; cbn in *; try lia.
    inversion E2; subst i0. repeat constructor. apply np_allclose_refl.
Qed.

Lemma validate_world subject_id images seg :
  keeps always eq (validate_train_subject subject_id images seg).
Proof.
  unfold validate_train_subject.
  sbind; [apply keeps_get_self; apply _ | intros this ? ? _ _].
  destruct (disable_unittests this); [apply keeps_ret; apply _|].
  assert (forall A (r : result A), keeps always eq (lift (V:=V) r)) as Hlift
    by (intros; apply keeps_lift; apply _).
  assert (forall c msg, keeps always eq (py_assert (V:=V) c msg)) as Hass
    by (intros; apply keeps_assert; apply _).
  do 7 (sbind; [first [apply Hlift | apply Hass] | intros ? ? ? _ _]).
  destruct (1 <? _); [|apply keeps_ret; apply _].
  apply keeps_for; [apply _ | apply always_stable |]. intros img _.
  do 3 (sbind; [first [apply Hlift | apply Hass] | intros ? ? ? _ _]).
  apply Hass.
Qed.

Lemma load_train_subject_frame subject_id (w : world V) r w' :
  load_train_subject subject_id w = (r, w') -> frame_but None w w'.
Proof.
  assert (keeps always (frame_but None) (load_train_subject (V:=V) subject_id)) as Hk.
  { unfold load_train_subject.
    sbind; [apply keeps_get_self; apply _ | intros this ? ? _ _].
    sbind; [apply keeps_getattr; apply _ | intros ? ? ? _ _].
    sbind.
    { apply keeps_map; [apply _ | apply always_stable |]. intros p _ wa ra wb _ E.
      eapply nib_load_frame; eauto. }
    intros ? ? ? _ _.
    sbind; [apply keeps_getattr; apply _ | intros ? ? ? _ _].
    sbind; [intros wa ra wb _ E; eapply nib_load_frame; eauto | intros ? ? ? _ _].
    apply keeps_ret; apply _. }
  intros E. eapply Hk; [exact I | exact E].
Qed.

Lemma preprocess_train_subject_unskipped subject_id dir (w : world V) :
  target_dir (self w) = Some dir ->
  ~ (is_Some (files w !! path_join dir (drop_last_chars 7 subject_id +:+ ".npy")) /\
     is_Some (files w !! path_join dir (drop_last_chars 7 subject_id +:+ ".pkl"))) ->
  _preprocess_train_subject subject_id w =
  process_train_subject (drop_last_chars 7 subject_id)
    (path_join dir (drop_last_chars 7 subject_id +:+ ".npy"))
    (path_join dir (drop_last_chars 7 subject_id +:+ ".pkl"))
    (announced subject_id w).
Proof.
  intros Hdir Hnot. unfold _preprocess_train_subject.
  rewrite run_get_self, run_print. cbn [self]. rewrite Hdir, run_getattr.
  rewrite !run_isfile. cbn [files].
  destruct (bool_decide (is_Some (files w !! _))) eqn:Ea; [|reflexivity].
  destruct (bool_decide (is_Some (files w !! path_join dir (_ +:+ ".pkl")))) eqn:Ep;
    [|reflexivity].
  apply bool_decide_eq_true in Ea, Ep. tauto.
Qed.

(** C6. With validation enabled, a case that is not skipped and whose
    volumes load fails with an exception, and writes nothing, when no
    modality file matched the subject, when a volume does not have the
    plan's dimensionality, when a modality's shape is not the label's, when
    a spacing is not close to the first modality's, or when two orientation
    codes differ. *)
Theorem inconsistent_case_is_fatal subject_id dir (w : world V) props images seg w1 :
  disable_unittests (self w) = false ->
  target_dir (self w) = Some dir ->
  ~ (is_Some (files w !! path_join dir (drop_last_chars 7 subject_id +:+ ".npy")) /\
     is_Some (files w !! path_join dir (drop_last_chars 7 subject_id +:+ ".pkl"))) ->
  load_train_subject (drop_last_chars 7 subject_id) (announced subject_id w)
    = (Ok (props, images, seg), w1) ->
  inconsistent (plans_data_dimensions (plans (self w))) images seg ->
  exists e, _preprocess_train_subject subject_id w = (Raise e, w1) /\ files w1 = files w.
Proof.
  intros Hd Hdir Hnot Hload Hbad.
  rewrite (preprocess_train_subject_unskipped _ _ _ Hdir Hnot).
  pose proof (load_train_subject_frame _ _ _ _ Hload) as (Hf & Hs & _).
  cbn in Hf, Hs.
  unfold process_train_subject. rewrite run_get_self, (bind_ok _ _ _ _ _ Hload).
  destruct (validate_train_subject (drop_last_chars 7 subject_id) images seg w1)
    as [[[]|e] w2] eqn:Ev.
  - exfalso.
    apply validate_ok_inv in Ev as (image0 & H0 & Hdim & Hall); [|congruence].
    rewrite Hs in Hdim. rewrite Forall_forall in Hall.
    assert (seg ∈ (images ++ [seg])%list) as Hseg by (apply elem_of_app; right; left).
    destruct Hbad as [Hnil | vol Hvol Hnd | image Hi Hns | i0 vol Hi0 Hvol Hsp
                     | vol vol' Hvol Hvol' Hor].
    + subst images. discriminate.
    + destruct (Hall _ Hvol) as (Hsh & _). congruence.
    + destruct (Hall image ltac:(apply elem_of_app; now left)) as (Hsh & _).
      destruct (Hall _ Hseg) as (Hsh' & _). congruence.
    + rewrite H0 in Hi0. inversion Hi0; subst i0.
      destruct (Hall _ Hvol) as (_ & Hc & _). contradiction.
    + destruct (Hall _ Hvol) as (_ & _ & Ho). destruct (Hall _ Hvol') as (_ & _ & Ho').
      congruence.
  - exists e. pose proof (validate_world _ _ _ _ _ _ I Ev) as ->.
    rewrite (bind_raise _ _ _ _ _ Ev). auto.
Qed.
Lemma all_indices_complete sh i : in_bounds sh i = true -> i ∈ all_indices sh.
Proof.
  revert i. induction sh as [|d sh IH]; intros [|x i] Hi; cbn in Hi; try discriminate.
  - left.
  - apply andb_prop in Hi as [Hx Hi]. apply andb_prop in Hx as [H0 Hd].
    apply Z.leb_le in H0. apply Z.ltb_lt in Hd.
    cbn. apply list_elem_of_In, in_flat_map. exists x. split.
    + apply list_elem_of_In. unfold py_range. apply list_elem_of_fmap.
      exists (Z.to_nat x). split; [lia|]. apply elem_of_seq. lia.
    + apply list_elem_of_In, list_elem_of_fmap. exists i. auto.
Qed.

Lemma np_unique_spec (a : ndarray V) v :
  v ∈ np_unique a <-> exists i, in_bounds (shape a) i = true /\ v = data a i.
Proof.
  unfold np_unique, np_flatten. rewrite elem_of_remove_dups, list_elem_of_fmap.
  split; intros (i & Hv & Hi).
  - exists i. split; [|exact Hv]. revert Hi. clear. revert i.
    induction (shape a) as [|d sh IH]; intros i Hi; cbn in Hi.
    + apply list_elem_of_singleton in Hi as ->. reflexivity.
    + apply list_elem_of_In, in_flat_map in Hi as (x & Hx & Hi).
      apply list_elem_of_In, elem_of_py_range in Hx.
      apply list_elem_of_In, list_elem_of_fmap in Hi as (i' & -> & Hi').
      cbn. rewrite (IH _ Hi'), andb_true_r.
      apply andb_true_intro. split; [apply Z.leb_le | apply Z.ltb_lt]; lia.
  - exists i. split; [exact Hi|]. now apply all_indices_complete.
Qed.

Lemma run_assert_false {B} msg (k : unit -> M V B) (w : world V) :
  bind (py_assert false msg) k w = (Raise (AssertionError msg), w).
Proof. reflexivity. Qed.

Lemma check_labels_accepts subject_id (seg : ndarray V) (w : world V) :
  (forall i, in_bounds (shape seg) i = true ->
             data seg i ∈ plans_classes (plans (self w))) ->
  check_labels subject_id seg w = (Ok tt, w).
Proof.
  intros Hall. unfold check_labels. rewrite run_get_self.
  assert (np_all_isin (map float32 (np_unique seg))
            (map float32 (plans_classes (plans (self w)))) = true) as ->; [|reflexivity].
  unfold np_all_isin. apply forallb_forall. intros x Hx.
  apply bool_decide_eq_true.
  apply list_elem_of_In, list_elem_of_fmap in Hx as (v & -> & Hv).
  apply np_unique_spec in Hv as (i & Hi & ->).
  apply list_elem_of_fmap. exists (data seg i). auto.
Qed.

Lemma check_labels_rejects subject_id (seg : ndarray V) (w : world V) i :
  in_bounds (shape seg) i = true ->
  float32 (data seg i) ∉ map float32 (plans_classes (plans (self w))) ->
  check_labels subject_id seg w =
  (Raise (AssertionError ("Unexpected labels found for " +:+ subject_id)), w).
Proof.
  intros Hi Hout. unfold check_labels. rewrite run_get_self.
  assert (np_all_isin (map float32 (np_unique seg))
            (map float32 (plans_classes (plans (self w)))) = false) as ->; [|reflexivity].
  apply not_true_is_false. intros Hall. apply Hout.
  unfold np_all_isin in Hall. rewrite forallb_forall in Hall.
  eapply bool_decide_eq_true, Hall, list_elem_of_In, list_elem_of_fmap.
  exists (data seg i). split; [reflexivity|]. apply np_unique_spec. eauto.
Qed.

Lemma orient_world images seg : keeps always eq (orient_train_subject images seg).
Proof.
  unfold orient_train_subject.
  sbind; [apply keeps_get_self; apply _ | intros this ? ? _ _].
  sbind; [apply keeps_lift; apply _ | intros image0 ? ? _ _].
  destruct (_ || _); [|apply keeps_ret; apply _].
  sbind.
  { destruct (plans_target_coordinate_system _);
      [apply keeps_ret | apply keeps_raise]; apply _. }
  intros fd ? ? _ _. sbind.
  { apply keeps_map; [apply _ | apply always_stable |]. intros img _.
    sbind; [apply keeps_lift; apply _ | intros ? ? ? _ _]. apply keeps_ret; apply _. }
  intros ? ? ? _ _.
  sbind; [apply keeps_lift; apply _ | intros ? ? ? _ _]. apply keeps_ret; apply _.
Qed.


End Training.

(** ** The orientation blocks and the record of the inference run *)

Section Orientation.
Context {V : Type} `{!Voxel V} `{!Externals V}.

Lemma py_map_pure {A B} (f : A -> M V B) (g : A -> result B) xs (w : world V) :
  (forall x w0, f x w0 = (g x, w0)) -> py_map f xs w = (rmapM g xs, w).
Proof.
  intros Hf. induction xs as [|x xs IH]; cbn; [reflexivity|].
  unfold bind. rewrite Hf. destruct (g x) as [y|e]; [|reflexivity].
  fold (@py_map V A B f xs). rewrite IH. now destruct (rmapM g xs).
Qed.

Lemma orient_train_subject_eq images seg image0 target (w : world V) :
  images !! 0%nat = Some image0 ->
  plans_target_coordinate_system (plans (self w)) = Some target ->
  orient_train_subject images seg w =
  (if coded image0
   then reoriented_for_training images seg (get_nib_orientation image0) target
   else Ok ("INVALID", "INVALID", map nib_to_np images, nib_to_np seg), w).
Proof.
  intros H0 Ht. unfold orient_train_subject. rewrite run_get_self.
  assert (py_getitem images 0 = Ok image0) as -> by exact (py_getitem_lookup images 0 _ H0).
  rewrite run_lift_ok.
  fold (coded image0). destruct (coded image0); [|reflexivity].
  rewrite Ht, run_ret. unfold bind at 1.
  rewrite (py_map_pure _ (fun image => rbind (reorient_nib_image image
             (get_nib_orientation image0) target) (fun r => Ok (nib_to_np r)))).
  2:{ intros x w0. unfold bind, lift, ret. now destruct (reorient_nib_image x _ _). }
  unfold reoriented_for_training.
  destruct (rmapM _ images) as [arrays|e]; cbn [rbind]; [|reflexivity].
  unfold bind, lift, ret. now destruct (reorient_nib_image seg _ _).
Qed.

Lemma orient_case_for_inference_eq images image0 props target (w : world V) :
  plans_target_coordinate_system (plans (self w)) = Some target -> target <> "" ->
  orient_case_for_inference images image0 props w =
  if coded image0
  then (reoriented_for_inference images (get_nib_orientation image0) target props, w)
  else (Ok (images, <["reoriented" := PBool false]> props),
        World (heap w) (files w)
              (trace w ++ [EvPrint
                 "Insufficient header information. Reorientation will not be attempted."])
              (self w)).
Proof.
  intros Ht Hne. unfold orient_case_for_inference. rewrite run_get_self, Ht.
  assert (truthy_str (Some target) = true) as ->.
  { cbn. now rewrite bool_decide_eq_false_2. }
  rewrite andb_true_r. fold (coded image0). destruct (coded image0); [|reflexivity].
  unfold bind at 1.
  rewrite (py_map_pure _ (fun image => reorient_nib_image image
             (get_nib_orientation image0) target)).
  2:{ intros x w0. reflexivity. }
  unfold reoriented_for_inference.
  destruct (rmapM _ images) as [images'|e]; cbn [rbind]; [|reflexivity].
  unfold bind, lift, ret. now destruct (py_getitem images' 0).
Qed.

(** Without a coded header the inference block leaves the volumes alone,
    whatever the plan says. *)
Lemma orient_case_for_inference_uncoded images image0 props (w : world V) :
  coded image0 = false ->
  orient_case_for_inference images image0 props w =
  (Ok (images, <["reoriented" := PBool false]> props),
   World (heap w) (files w)
         (trace w ++ [EvPrint
            "Insufficient header information. Reorientation will not be attempted."])
         (self w)).
Proof.
  intros Hc. unfold orient_case_for_inference. rewrite run_get_self.
  unfold coded in Hc. apply orb_false_elim in Hc as [-> ->]. reflexivity.
Qed.

Lemma orient_case_for_inference_inv images image0 props (w : world V) images' props' w' :
  orient_case_for_inference images image0 props w = (Ok (images', props'), w') ->
  length images' = length images /\ self w' = self w /\
  ((props' = <["reoriented" := PBool false]> props) \/
   (coded image0 = true /\
    exists new, props' = <["new_orientation" := PStr new]>
                           (<["original_orientation" := PStr (get_nib_orientation image0)]>
                              (<["reoriented" := PBool true]> props)))).
Proof.
  unfold orient_case_for_inference. rewrite run_get_self.
  destruct (truthy_code (img_qform_code image0) || _) eqn:Egate; intros E.
  - apply bind_ok_inv in E as (imgs & w1 & Emap & E).
    apply (py_map_Forall2 _ (fun _ _ => True) eq) in Emap as [Hlen <-].
    2:{ intros x w0 y w0' _ Ex. apply bind_ok_inv in Ex as (t & wt & Et & Ex).
        assert (wt = w0) as ->.
        { destruct (plans_target_coordinate_system _); inversion Et; reflexivity. }
        apply lift_ok_inv in Ex as [_ ->]. auto. }
    apply bind_ok_inv in E as (i1 & w2 & E1 & E). apply lift_ok_inv in E1 as [_ ->].
    apply ret_inv in E as [E ->]. inversion E; subst.
    split; [symmetry; eapply Forall2_length; eauto|]. split; [reflexivity|].
    right. split; [|eauto]. unfold coded.
    destruct (truthy_code (img_qform_code image0)); [reflexivity|].
    cbn in Egate. apply andb_prop in Egate as [-> _]. reflexivity.
  - apply bind_ok_inv in E as ([] & w1 & Ep & E).
    apply print_inv in Ep as (_ & Hs & _).
    apply ret_inv in E as [E ->]. inversion E; subst. auto.
Qed.

Lemma py_map_nib_load_inv paths (w : world V) imgs w' :
  py_map nib_load paths w = (Ok imgs, w') ->
  Forall2 (fun path img => files w !! path = Some (FNifti img)) paths imgs /\
  frame_but None w w'.
Proof.
  revert w imgs. induction paths as [|path paths IH]; intros w imgs E; cbn in E.
  - apply ret_inv in E as [E ->]. inversion E. split; [constructor | reflexivity].
  - apply bind_ok_inv in E as (img & w1 & E1 & E).
    apply bind_ok_inv in E as (rest & w2 & E2 & E).
    apply ret_inv in E as [E ->]. inversion E; subst imgs.
    apply nib_load_inv in E1 as [Hf F1]. apply IH in E2 as [Hrest F2].
    split; [|now transitivity w1].
    constructor; [exact Hf|]. destruct F1 as (Hfiles & _).
    eapply Forall2_impl; [exact Hrest|]. intros p i. cbn. now rewrite Hfiles.
Qed.

Lemma preprocess_inv paths patch (w : world V) tensor props w1 :
  preprocess_case_for_inference paths patch w = (Ok (tensor, props), w1) ->
  exists imgs image0 images2 oriented wa wb image1 box cropped resampled padded padding,
    Forall2 (fun path img => files w !! path = Some (FNifti img)) paths imgs /\
    imgs !! 0%nat = Some image0 /\
    self wa = initialized (self w) /\
    orient_case_for_inference imgs image0 (loaded_properties image0) wa
      = (Ok (images2, oriented), wb) /\
    images2 !! 0%nat = Some image1 /\
    (is_Some box <-> plans_crop_to_nonzero (plans (self w)) = true) /\
    props = geometry_properties image1 box cropped resampled padded padding oriented /\
    shape tensor = 1 :: py_len paths :: padded.
Proof.
  intros E. unfold preprocess_case_for_inference in E.
  apply bind_ok_inv in E as ([] & wi & Einit & E).
  assert (wi = World (heap w) (files w) (trace w) (initialized (self w))) as Hwi.
  { unfold initialize_properties in Einit. rewrite run_get_self in Einit.
    unfold set_self in Einit. now inversion Einit. }
  rewrite run_get_self in E.
  assert (self wi = initialized (self w)) as Hself by (now subst wi).
  rewrite Hself in E.
  apply bind_ok_inv in E as (imgs & w2 & Eload & E).
  apply py_map_nib_load_inv in Eload as [Hload F2].
  assert (files wi = files w) as Hfw by (now subst wi). rewrite Hfw in Hload.
  apply bind_ok_inv in E as (image0 & w3 & E0 & E). apply lift_ok_inv in E0 as [E0 ->].
  apply bind_ok_inv in E as ([] & w3 & Edim & E). apply py_assert_ok_inv in Edim as [_ ->].
  apply bind_ok_inv in E as ([images2 oriented] & w3 & Eor & E).
  pose proof (orient_case_for_inference_inv _ _ _ _ _ _ _ Eor) as (Hlen2 & _ & _).
  apply bind_ok_inv in E as (image1 & w4 & E1 & E). apply lift_ok_inv in E1 as [E1 ->].
  apply bind_ok_inv in E as (arr0 & w4 & E2 & E). apply lift_ok_inv in E2 as [E2 ->].
  apply py_getitem_0_inv in E0, E1, E2.
  assert (arr0 = nib_to_np image1) as ->.
  { rewrite list_lookup_fmap, E1 in E2. now inversion E2. }
  cbn [plans initialized] in E.
  apply bind_ok_inv in E as ([images4 props4] & w4 & Ecrop & E).
  assert (length images4 = length images2 /\
          exists box,
            (is_Some box <-> plans_crop_to_nonzero (plans (self w)) = true) /\
            props4 = match box with
                     | Some b => <["nonzero_box" := PInts b]>
                         (<["uncropped_shape" := PInts (shape (nib_to_np image1))]>
                            (<["affine" := PMatrix (img_affine image1)]> oriented))
                     | None => <["uncropped_shape" := PInts (shape (nib_to_np image1))]>
                            (<["affine" := PMatrix (img_affine image1)]> oriented)
                     end) as (Hlen4 & box & Hbox & ->).
  { destruct (plans_crop_to_nonzero (plans (self w))).
    - apply bind_ok_inv in Ecrop as (b & w5 & Ebox & Ecrop).
      apply bind_ok_inv in Ecrop as (crops & w6 & Ecr & Ecrop).
      apply (py_map_Forall2 _ (fun _ _ => True) eq) in Ecr as [Hcr _].
      2:{ intros x w0 y w0' _ Ex. apply lift_ok_inv in Ex as [_ ->]. auto. }
      apply ret_inv in Ecrop as [Ecrop _]. inversion Ecrop; subst.
      apply Forall2_length in Hcr. rewrite length_map in Hcr.
      split; [congruence|]. exists (Some b). split; [|reflexivity].
      split; [reflexivity | eauto].
    - apply ret_inv in Ecrop as [Ecrop _]. inversion Ecrop; subst.
      split; [apply length_map|]. exists None. split; [|reflexivity].
      split; [intros [? ?] | ]; discriminate. }
  apply bind_ok_inv in E as (c0 & w5 & _ & E).
  apply bind_ok_inv in E as ([images5 seg5] & w6 & Ers & E).
  apply resample_inv in Ers
    as (imgs_t & os_t & ts_t & it0 & Hlt & _ & _ & _ & _ & Hrs & _ & _).
  apply bind_ok_inv in E as (r0 & w7 & _ & E).
  apply bind_ok_inv in E as (pads & w8 & Epad & E).
  apply (py_map_Forall2 _ (fun _ _ => True) eq) in Epad as [Hpad _].
  2:{ intros x w0 y w0' _ Ex. apply lift_ok_inv in Ex as [_ ->]. auto. }
  apply bind_ok_inv in E as (padding & w9 & _ & E).
  apply bind_ok_inv in E as (p0 & w10 & E6 & E). apply lift_ok_inv in E6 as [E6 _].
  apply bind_ok_inv in E as (stacked & w11 & E7 & E). apply lift_ok_inv in E7 as [E7 _].
  apply ret_inv in E as [E _]. inversion E; subst tensor props. clear E.
  apply py_getitem_0_inv in E6.
  apply np_stack_ok_inv in E7 as (a0 & Ha0 & Hss & _).
  rewrite E6 in Ha0. inversion Ha0; subst a0. clear Ha0.
  exists imgs, image0, images2, oriented, w2, w3, image1, box,
         (shape c0), (shape r0), (shape p0), padding.
  destruct F2 as (_ & Hs2 & _).
  repeat split; try assumption; try (apply Hbox; assumption); [congruence|].
  cbn. rewrite Hss. f_equal. f_equal. unfold py_len. f_equal.
  rewrite length_map.
  apply Forall2_length in Hload, Hrs, Hpad. congruence.
Qed.

End Orientation.

(** ** What [reverse_preprocessing] reads *)

Section Reads.
Context {V : Type} `{!Voxel V} `{!Externals V}.
Variable p : loc.

Lemma sim_ret {A} (a : A) : sim (V:=V) p (ret a).
Proof. intros wa wb H. cbn. auto. Qed.

Lemma sim_raise {A} e : sim (V:=V) p (raise (A:=A) e).
Proof. intros wa wb H. cbn. auto. Qed.

Lemma sim_lift {A} (r : result A) : sim (V:=V) p (lift r).
Proof. intros wa wb H. cbn. auto. Qed.

Lemma sim_assert c msg : sim (V:=V) p (py_assert c msg).
Proof. unfold py_assert. destruct c; [apply sim_ret | apply sim_raise]. Qed.

Lemma sim_get_self : sim (V:=V) p get_self.
Proof. intros wa wb H. cbn. split; [|exact H]. destruct H as (-> & _). reflexivity. Qed.

Lemma sim_bind {A B} (m : M V A) (k : A -> M V B) :
  sim (V:=V) p m -> (forall a, sim (V:=V) p (k a)) -> sim (V:=V) p (bind m k).
Proof.
  intros Hm Hk wa wb H. unfold bind.
  destruct (Hm wa wb H) as [Hr Hw].
  destruct (m wa) as [ra wa'], (m wb) as [rb wb']. cbn in Hr, Hw. subst rb.
  destruct ra as [a|e]; [now apply Hk | cbn; auto].
Qed.

Lemma sim_for {A} (xs : list A) (body : A -> M V unit) :
  (forall x, sim (V:=V) p (body x)) -> sim (V:=V) p (py_for xs body).
Proof.
  intros Hb. induction xs as [|x xs IH]; cbn; [apply sim_ret|].
  apply sim_bind; [apply Hb | intros _; exact IH].
Qed.

Lemma sim_emit e : sim (V:=V) p (emit e).
Proof. intros wa wb H. cbn. split; [reflexivity | exact H]. Qed.

Lemma sim_call_resize image s order aa : sim (V:=V) p (call_resize image s order aa).
Proof.
  unfold call_resize. apply sim_bind; [apply sim_emit | intros _; apply sim_lift].
Qed.

Lemma sim_dict_getitem key : key ∈ reversal_keys -> sim (V:=V) p (dict_getitem p key).
Proof.
  intros Hk wa wb H. unfold dict_getitem.
  destruct H as (Hs & Hd & Hh & da & db & Ha & Hb & Hkeys).
  assert (alike (V:=V) p wa wb) as Hal by (repeat split; eauto 8).
  rewrite Ha, Hb, (Hkeys _ Hk). destruct (db !! key); cbn; auto.
Qed.

Lemma sim_dict_getitem_ints key : key ∈ reversal_keys -> sim (V:=V) p (dict_getitem_ints p key).
Proof.
  intros Hk. unfold dict_getitem_ints.
  apply sim_bind; [now apply sim_dict_getitem | intros v; apply sim_lift].
Qed.

Lemma sim_np_zeros sh : sim (V:=V) p (np_zeros sh).
Proof.
  intros wa wb H. unfold np_zeros.
  destruct (forallb _ sh); [|cbn; auto].
  destruct H as (Hs & Hd & Hh & da & db & Ha & Hb & Hkeys). cbn.
  rewrite Hd. split; [reflexivity|].
  assert (fresh (dom (heap wb)) <> p) as Hne.
  { intros Heq. pose proof (fresh_loc_unused wb) as Hf. rewrite Heq, Hb in Hf.
    discriminate. }
  split; [exact Hs|]. cbn. split; [now rewrite !dom_insert_L, Hd|]. split.
  - intros l Hl. destruct (decide (l = fresh (dom (heap wb)))) as [->|Hl'].
    + now rewrite !lookup_insert_eq.
    + rewrite !lookup_insert_ne by congruence. now apply Hh.
  - exists da, db. rewrite !lookup_insert_ne by exact Hne. auto.
Qed.

Lemma sim_view_read v : sim (V:=V) p (view_read v).
Proof.
  intros wa wb H. unfold view_read.
  pose proof H as (Hs & Hd & Hh & da & db & Ha & Hb & Hkeys).
  destruct (decide (base v = p)) as [->|Hne].
  - rewrite Ha, Hb. cbn. auto.
  - rewrite (Hh _ Hne). destruct (heap wb !! base v) as [[a|d]|]; cbn; auto.
Qed.

Lemma sim_view_assign v src : sim (V:=V) p (view_assign v src).
Proof.
  intros wa wb H. unfold view_assign.
  pose proof H as (Hs & Hd & Hh & da & db & Ha & Hb & Hkeys).
  destruct (decide (base v = p)) as [->|Hne].
  - rewrite Ha, Hb. cbn. auto.
  - rewrite (Hh _ Hne). destruct (heap wb !! base v) as [[a|d]|] eqn:Ev; cbn; auto.
    destruct (broadcastable _ _); cbn; [|auto].
    split; [reflexivity|]. split; [exact Hs|]. cbn.
    split; [now rewrite !dom_insert_L, Hd|]. split.
    + intros l Hl. destruct (decide (l = base v)) as [->|Hl'].
      * now rewrite !lookup_insert_eq.
      * rewrite !lookup_insert_ne by congruence. now apply Hh.
    + exists da, db. rewrite !lookup_insert_ne by exact Hne. auto.
Qed.

Ltac simb := apply sim_bind; [| intros ?].
Ltac sim_key := apply sim_dict_getitem_ints; unfold reversal_keys; set_solver.

Lemma reverse_channel_sim images canvas sact pad b c :
  sim (V:=V) p (reverse_channel images p canvas sact pad b c).
Proof.
  unfold reverse_channel.
  simb; [apply sim_get_self|].
  simb; [apply sim_lift|].
  simb; [sim_key|].
  simb; [apply sim_lift|].
  simb; [apply sim_assert|].
  simb; [apply sim_lift|].
  simb; [sim_key|].
  simb; [apply sim_lift|].
  simb; [apply sim_assert|].
  simb; [apply sim_view_read|].
  simb; [apply sim_call_resize|].
  simb; [apply sim_lift|].
  simb; [sim_key|].
  simb; [apply sim_lift|].
  simb; [apply sim_assert|].
  destruct (plans_crop_to_nonzero _); [|apply sim_ret].
  simb; [sim_key|].
  simb; [apply sim_lift|].
  simb; [apply sim_lift|].
  simb; [apply sim_lift|].
  apply sim_view_assign.
Qed.

Lemma reverse_preprocessing_sim images : sim (V:=V) p (reverse_preprocessing images p).
Proof.
  unfold reverse_preprocessing.
  simb; [apply sim_get_self|].
  simb; [apply sim_dict_getitem; unfold reversal_keys; set_solver|].
  simb; [sim_key|].
  simb; [apply sim_np_zeros|].
  simb; [sim_key|].
  simb; [apply sim_lift|].
  simb; [sim_key|].
  simb; [apply sim_lift|].
  simb; [|apply sim_ret].
  apply sim_for. intros b.
  simb; [apply sim_lift|].
  apply sim_for. intros c. apply reverse_channel_sim.
Qed.

Lemma reverse_preprocessing_fresh_canvas images (w : world V) canvas w' :
  reverse_preprocessing images p w = (Ok canvas, w') -> heap w !! base canvas = None.
Proof.
  intros E. unfold reverse_preprocessing in E.
  apply bind_ok_inv in E as (this & w1 & E1 & E). inversion E1; subst w1 this.
  apply bind_ok_inv in E as (os & w1 & E1' & E).
  apply dict_getitem_world in E1' as ->.
  apply bind_ok_inv in E as (U & w1 & E2 & E).
  apply dict_getitem_ints_world in E2 as ->.
  apply bind_ok_inv in E as (cv & w1 & E3 & E).
  apply np_zeros_inv in E3 as [[_ ?]|[Hc _]]; [discriminate|].
  do 5 (apply bind_ok_inv in E as (? & ? & _ & E)).
  apply ret_inv in E as [E _]. inversion E; subst canvas.
  inversion Hc; subst cv. cbn. apply fresh_loc_unused.
Qed.

(** The outcome of reversal is the same in two worlds that are alike (V:=V) p: the
    same canvas or the same exception, and the same contents of the canvas. *)
Lemma reverse_preprocessing_reads images (wa wb : world V) :
  alike (V:=V) p wa wb ->
  fst (reverse_preprocessing images p wa) = fst (reverse_preprocessing images p wb) /\
  forall canvas, fst (reverse_preprocessing images p wa) = Ok canvas ->
    heap (snd (reverse_preprocessing images p wa)) !! base canvas =
    heap (snd (reverse_preprocessing images p wb)) !! base canvas.
Proof.
  intros H. destruct (reverse_preprocessing_sim images wa wb H) as [Hr Hw].
  split; [exact Hr|]. intros canvas Hc.
  destruct Hw as (_ & _ & Hh & _). apply Hh. intros Heq.
  destruct (reverse_preprocessing images p wa) as [ra wa'] eqn:Ea. cbn in Hc. subst ra.
  apply reverse_preprocessing_fresh_canvas in Ea.
  destruct H as (_ & _ & _ & da & _ & Ha & _). rewrite Heq, Ha in Ea. discriminate.
Qed.

(** Reversal does not look at an entry of the record that is not one of
    [reversal_keys]. *)
Lemma reverse_preprocessing_ignores images (w : world V) d key v :
  heap w !! p = Some (ODict d) -> key ∉ reversal_keys ->
  fst (reverse_preprocessing images p w) =
  fst (reverse_preprocessing images p
         (World (<[p := ODict (<[key := v]> d)]> (heap w)) (files w) (trace w) (self w))).
Proof.
  intros Hp Hkey. apply reverse_preprocessing_reads.
  split; [reflexivity|]. cbn. split.
  { rewrite dom_insert_L. apply elem_of_dom_2 in Hp.
    symmetry. apply subseteq_union_1_L, singleton_subseteq_l, Hp. }
  split.
  { intros l Hl. now rewrite lookup_insert_ne by congruence. }
  exists d, (<[key := v]> d). rewrite lookup_insert_eq. repeat split; [exact Hp|].
  intros k Hk. rewrite lookup_insert_ne; [reflexivity|]. intros ->. contradiction.
Qed.

End Reads.

(** ** Orientation in both pipelines, and the record of the inference run *)

Section Records.
Context {V : Type} `{!Voxel V} `{!Externals V}.

Lemma save_train_subject_records sid ap pp props images seg os osz oo fd ts :
  ensures (fun w' : world V =>
             exists d, files w' !! pp = Some (FPkl d) /\
                       d !! "original_orientation" = Some (PStr oo) /\
                       d !! "new_direction" = Some (PStr fd))
          (save_train_subject sid ap pp props images seg os osz oo fd ts).
Proof.
  unfold save_train_subject.
  apply ensures_bind; intros this.
  apply ensures_bind; intros stacked.
  apply ensures_bind; intros imgs.
  apply ensures_bind; intros gt.
  destruct (connected_components gt) as [numbered n].
  apply ensures_bind; intros ns.
  apply ensures_bind; intros [].
  intros w [] w' E. unfold np_save, save_pickle, write_file in E.
  unfold bind, emit in E. cbn in E. inversion E; subst. cbn.
  eexists. split; [apply lookup_insert_eq|].
  split.
  - now rewrite !lookup_insert_ne, lookup_insert_eq by discriminate.
  - now rewrite !lookup_insert_ne, lookup_insert_eq by discriminate.
Qed.

Lemma process_train_subject_records sid ap pp (w : world V) props images seg w1
    image0 target w' :
  load_train_subject sid w = (Ok (props, images, seg), w1) ->
  images !! 0%nat = Some image0 ->
  plans_target_coordinate_system (plans (self w)) = Some target ->
  process_train_subject sid ap pp w = (Ok tt, w') ->
  exists d, files w' !! pp = Some (FPkl d) /\
            d !! "original_orientation" =
              Some (PStr (if coded image0 then get_nib_orientation image0 else "INVALID")) /\
            d !! "new_direction" =
              Some (PStr (if coded image0 then target else "INVALID")).
Proof.
  intros Hload H0 Ht E.
  pose proof (load_train_subject_frame _ _ _ _ Hload) as (_ & Hs & _).
  unfold process_train_subject in E. rewrite run_get_self, (bind_ok _ _ _ _ _ Hload) in E.
  apply bind_ok_inv in E as ([] & w2 & Ev & E).
  pose proof (validate_world _ _ _ _ _ _ I Ev) as <-.
  apply bind_ok_inv in E as (i0 & w2 & Ei & E). apply lift_ok_inv in Ei as [_ ->].
  apply bind_ok_inv in E as ([[[oo fd] arrays] labels] & w3 & Eo & E).
  rewrite (orient_train_subject_eq images seg image0 target) in Eo by congruence.
  apply bind_ok_inv in E as ([] & w4 & _ & E).
  apply bind_ok_inv in E as ([[props' imgs'] seg'] & w5 & _ & E).
  apply bind_ok_inv in E as ([imgs'' seg''] & w6 & _ & E).
  apply bind_ok_inv in E as (seg3 & w7 & _ & E).
  apply save_train_subject_records in E as (d & Hd & Hoo & Hfd).
  exists d. split; [exact Hd|].
  destruct (coded image0).
  - unfold reoriented_for_training in Eo.
    destruct (rmapM _ images); cbn in Eo; [|discriminate].
    destruct (reorient_nib_image seg _ _); cbn in Eo; [|discriminate].
    inversion Eo; subst. auto.
  - inversion Eo; subst. auto.
Qed.

Ltac record_lookup :=
  unfold geometry_properties, loaded_properties; cbn zeta;
  repeat match goal with
         | |- context [match ?b with Some _ => _ | None => _ end] => destruct b
         end;
  rewrite ?lookup_insert_ne by discriminate;
  first [ rewrite lookup_insert_eq | rewrite lookup_empty ].


(** C5, amended.  When [preprocess_case_for_inference] returns, the tensor
    has shape [(1, number of paths, *padded_shape)]; the record holds the
    spacing, the shape and the header matrices of the first volume, the
    affine, the uncropped, cropped, resampled and padded shapes, the pad
    widths and [reoriented]; it holds [nonzero_box] exactly when the plan
    crops, and [original_orientation] exactly when the case was
    reoriented.  Reversal reads the record, the predictions and the
    preprocessor only: in two worlds that agree on these (the entries of
    the record that reversal reads being the ones listed in
    [reversal_keys]) and that differ in their files and in the other
    entries of the record, it has the same outcome and fills the canvas
    with the same values. *)
Theorem inference_tensor_and_record paths patch (w : world V) tensor props w1 :
  preprocess_case_for_inference paths patch w = (Ok (tensor, props), w1) ->
  (exists padded, props !! "padded_shape" = Some (PInts padded) /\
                  shape tensor = 1 :: py_len paths :: padded) /\
  Forall (fun key => is_Some (props !! key))
    ["original_spacing"; "original_shape"; "qform"; "sform"; "affine";
     "uncropped_shape"; "cropped_shape"; "resampled_transposed_shape";
     "padded_shape"; "padding"; "reoriented"] /\
  (is_Some (props !! "nonzero_box") <-> plans_crop_to_nonzero (plans (self w)) = true) /\
  (is_Some (props !! "original_orientation") <->
   props !! "reoriented" = Some (PBool true)) /\
  (forall images p (wa wb : world V) other,
     heap wa !! p = Some (ODict props) ->
     heap wb !! p = Some (ODict other) ->
     (forall key, key ∈ reversal_keys -> props !! key = other !! key) ->
     self wa = self wb ->
     dom (heap wa) = dom (heap wb) ->
     (forall l, l <> p -> heap wa !! l = heap wb !! l) ->
     fst (reverse_preprocessing images p wa) = fst (reverse_preprocessing images p wb) /\
     forall canvas, fst (reverse_preprocessing images p wa) = Ok canvas ->
       heap (snd (reverse_preprocessing images p wa)) !! base canvas =
       heap (snd (reverse_preprocessing images p wb)) !! base canvas).
Proof.
  intros E.
  apply preprocess_inv in E
    as (imgs & image0 & images2 & oriented & wa & wb & image1 & box & cropped & resampled
        & padded & padding & _ & _ & _ & Eor & _ & Hbox & -> & Hshape).
  apply orient_case_for_inference_inv in Eor as (_ & _ & Hor).
  assert (is_Some box <-> plans_crop_to_nonzero (plans (self w)) = true) as Hbox' by exact Hbox.
  clear Hbox.
  split; [|split; [|split; [|split]]].
  - exists padded. split; [|exact Hshape]. record_lookup; reflexivity.
  - apply Forall_forall. intros key Hkey.
    repeat (apply elem_of_cons in Hkey as [-> | Hkey]);
      [.. | now apply elem_of_nil in Hkey];
      destruct Hor as [-> | [_ [new ->]]]; record_lookup; eauto.
  - rewrite <- Hbox'. destruct box as [b|].
    + split; [eauto|]. intros _.
      unfold geometry_properties. cbn zeta.
      rewrite !lookup_insert_ne, lookup_insert_eq by discriminate. eauto.
    + split; [|intros [? ?]; discriminate].
      destruct Hor as [-> | [_ [new ->]]];
        unfold geometry_properties, loaded_properties; cbn zeta;
        rewrite !lookup_insert_ne, lookup_empty by discriminate;
        intros [? ?]; discriminate.
  - destruct Hor as [-> | [_ [new ->]]].
    + split.
      * intros [x Hx]. revert Hx. record_lookup; discriminate.
      * record_lookup; discriminate.
    + split.
      * intros _. record_lookup; reflexivity.
      * intros _. record_lookup; eauto.
  - intros images p wa' wb' other Ha Hb Hkeys Hs Hd Hh.
    apply reverse_preprocessing_reads. repeat split; eauto 8.
Qed.

End Records.

(** ** Reversal: what it needs, and where it stops *)

Section ReverseEdges.
Context {V : Type} `{!Voxel V} `{!Externals V}.

Lemma py_range_elem n x : 0 <= x < n -> x ∈ py_range n.
Proof.
  intros Hx. unfold py_range. apply list_elem_of_fmap.
  exists (Z.to_nat x). split; [lia|]. apply elem_of_seq. lia.
Qed.

Lemma py_for_reaches {A} (I : world V -> Prop) (xs : list A) (body : A -> M V unit)
    (w w' : world V) x :
  py_for xs body w = (Ok tt, w') -> I w -> x ∈ xs ->
  (forall y w0 r w0', I w0 -> body y w0 = (r, w0') -> I w0') ->
  exists wa wb, I wa /\ body x wa = (Ok tt, wb).
Proof.
  intros E Hw Hx Hb. revert w Hw E. induction xs as [|y xs IH]; intros w Hw E.
  - now apply elem_of_nil in Hx.
  - cbn in E. apply bind_ok_inv in E as ([] & w1 & E1 & E).
    apply elem_of_cons in Hx as [-> | Hx]; [eauto|].
    eapply IH; [exact Hx | eapply Hb; eauto | exact E].
Qed.

Lemma py_for_skip {A} (xs : list A) (body : A -> M V unit) (w : world V) :
  (forall x, body x w = (Ok tt, w)) -> py_for xs body w = (Ok tt, w).
Proof.
  intros Hb. induction xs as [|x xs IH]; cbn; [reflexivity|].
  unfold bind. now rewrite Hb.
Qed.

Lemma dict_getitem_ok_inv p key (w : world V) v w' :
  dict_getitem p key w = (Ok v, w') ->
  w' = w /\ exists d, heap w !! p = Some (ODict d) /\ d !! key = Some v.
Proof.
  unfold dict_getitem. destruct (heap w !! p) as [[a|d]|]; try discriminate.
  destruct (d !! key) eqn:Ek; intros E; [|discriminate]. inversion E; subst. eauto.
Qed.

Lemma dict_getitem_ints_ok_inv p key (w : world V) l w' :
  dict_getitem_ints p key w = (Ok l, w') ->
  w' = w /\ exists d, heap w !! p = Some (ODict d) /\ d !! key = Some (PInts l).
Proof.
  unfold dict_getitem_ints. intros E.
  apply bind_ok_inv in E as (v & w1 & E1 & E).
  apply dict_getitem_ok_inv in E1 as (-> & d & Hp & Hk).
  apply lift_ok_inv in E as [E ->]. split; [reflexivity|].
  destruct v; try discriminate. inversion E; subst. eauto.
Qed.

Lemma view_read_ok_inv v (w : world V) a w' :
  view_read v w = (Ok a, w') -> w' = w /\ exists A, heap w !! base v = Some (OArray A).
Proof.
  unfold view_read. destruct (heap w !! base v) as [[A|d]|]; try discriminate.
  intros E. inversion E. eauto.
Qed.

Lemma axes_getitem_range_inv lo len r k ax' :
  axes_getitem (ARange lo len :: r) k = Ok ax' ->
  - len <= k < len /\ exists x, ax' = AFixed x :: r.
Proof.
  cbn [axes_getitem]. cbv zeta.
  destruct (k <? 0) eqn:Hk;
    match goal with |- context [if ?c then _ else _] => destruct c eqn:Hr end;
    try discriminate; intros E; inversion E; subst;
    apply andb_prop in Hr as [H0 H1]; apply Z.leb_le in H0; apply Z.ltb_lt in H1;
    [apply Z.ltb_lt in Hk | apply Z.ltb_ge in Hk]; (split; [lia | eauto]).
Qed.

Lemma axes_index_fixed x r k ks :
  axes_index (AFixed x :: r) (k :: ks) =
  match axes_getitem r k with
  | Ok r' => axes_index (AFixed x :: r') ks
  | Raise e => Raise e
  end.
Proof. cbn [axes_index axes_getitem]. now destruct (axes_getitem r k). Qed.

(** The canvas has one batch item and one channel per class. *)
Lemma canvas_index_inv l ncls U b c v :
  view_index (View l (map (ARange 0) (1 :: ncls :: U))) [b; c] = Ok v ->
  - 1 <= b < 1 /\ - ncls <= c < ncls.
Proof.
  unfold view_index. cbn [axes map].
  change (axes_index ?ax [b; c])
    with (match axes_getitem ax b with
          | Ok ax' => axes_index ax' [c]
          | Raise e => Raise e
          end).
  destruct (axes_getitem _ b) as [ax1|] eqn:E1; [|discriminate].
  apply axes_getitem_range_inv in E1 as [Hb [x ->]].
  rewrite axes_index_fixed.
  destruct (axes_getitem (ARange 0 ncls :: map (ARange 0) U) c) as [ax2|] eqn:E2.
  - apply axes_getitem_range_inv in E2 as [Hc _]. intros _. lia.
  - discriminate.
Qed.

Lemma reverse_channel_self images p canvas sact pad b c (w : world V) r w' :
  reverse_channel images p canvas sact pad b c w = (r, w') -> self w' = self w.
Proof.
  intros E.
  destruct (plans_crop_to_nonzero (plans (self w))) eqn:Hcrop.
  - pose proof (reverse_channel_keeps (fun w0 => self w0 = self w) (Some (base canvas))
                  images p canvas sact pad b c) as Hk.
    destruct (Hk ltac:(intros ? ? ? (_ & ? & _); congruence) ltac:(auto) w r w' eq_refl E)
      as (_ & Hs & _). exact Hs.
  - pose proof (reverse_channel_keeps
                  (fun w0 => self w0 = self w) None images p canvas sact pad b c) as Hk.
    destruct (Hk ltac:(intros ? ? ? (_ & ? & _); congruence)
                 ltac:(intros w0 Hw0 Hc; rewrite Hw0 in Hc; congruence)
                 w r w' eq_refl E)
      as (_ & Hs & _). exact Hs.
Qed.

(** The steps of [reverse_preprocessing] before its loops. *)
Lemma reverse_prologue_inv images p (w : world V) canvas w' :
  reverse_preprocessing images p w = (Ok canvas, w') ->
  exists d U Cs sact pad nb w1,
    heap w !! p = Some (ODict d) /\
    is_Some (d !! "original_shape") /\
    d !! "uncropped_shape" = Some (PInts U) /\
    Forall (Z.le 0) U /\
    d !! "cropped_shape" = Some (PInts Cs) /\
    np_take Cs (transpose_forward (self w)) = Ok sact /\
    d !! "padding" = Some (PInts pad) /\
    py_getitem (view_shape images) 0 = Ok nb /\
    canvas = View (fresh (dom (heap w)))
                  (map (ARange 0) (1 :: py_len (plans_classes (plans (self w))) :: U)) /\
    w1 = World (<[fresh (dom (heap w)) :=
                   OArray (NdArray (1 :: py_len (plans_classes (plans (self w))) :: U)
                                   (fun _ => zero))]> (heap w))
               (files w) (trace w) (self w) /\
    py_for (py_range nb) (fun b =>
      let* nc := lift (py_getitem (view_shape images) 1) in
      py_for (py_range nc) (fun c =>
        reverse_channel images p canvas sact pad b c)) w1 = (Ok tt, w').
Proof.
  intros E. unfold reverse_preprocessing in E. rewrite run_get_self in E.
  apply bind_ok_inv in E as (os & w1 & E1 & E).
  apply dict_getitem_ok_inv in E1 as (-> & d & Hp & Hos).
  apply bind_ok_inv in E as (U & w1 & E2 & E).
  apply dict_getitem_ints_ok_inv in E2 as (-> & d2 & Hp2 & HU).
  assert (d2 = d) as -> by congruence. clear Hp2.
  apply bind_ok_inv in E as (cv & w1 & E3 & E).
  assert (Forall (Z.le 0) U) as HnnU.
  { unfold np_zeros in E3. destruct (forallb (Z.leb 0) _) eqn:Hf; [|discriminate].
    apply Forall_forall. intros x Hx. rewrite forallb_forall in Hf.
    apply Z.leb_le, Hf, list_elem_of_In. now do 2 right. }
  apply np_zeros_inv in E3 as [[_ ?]|[Hc ->]]; [discriminate|]. inversion Hc; subst cv.
  set (w1 := World _ _ _ _) in *.
  assert (heap w1 !! p = Some (ODict d)) as Hp1.
  { unfold w1. cbn. rewrite lookup_insert_ne; [exact Hp|].
    intros Heq. pose proof (fresh_loc_unused w) as Hf. rewrite Heq, Hp in Hf. discriminate. }
  apply bind_ok_inv in E as (Cs & w2 & E4 & E).
  apply dict_getitem_ints_ok_inv in E4 as (-> & d4 & Hp4 & HCs).
  assert (d4 = d) as -> by congruence. clear Hp4.
  apply bind_ok_inv in E as (sact & w2 & E5 & E). apply lift_ok_inv in E5 as [Hsact ->].
  apply bind_ok_inv in E as (pad & w2 & E6 & E).
  apply dict_getitem_ints_ok_inv in E6 as (-> & d6 & Hp6 & Hpad).
  assert (d6 = d) as -> by congruence. clear Hp6.
  apply bind_ok_inv in E as (nb & w2 & E7 & E). apply lift_ok_inv in E7 as [Hnb ->].
  apply bind_ok_inv in E as ([] & w2 & Eloop & E).
  apply ret_inv in E as [E ->]. inversion E; subst canvas.
  exists d, U, Cs, sact, pad, nb, w1. repeat split; eauto.
Qed.

Lemma reverse_channel_ok_inv images p canvas sact pad b c (w : world V) w' :
  reverse_channel images p canvas sact pad b c w = (Ok tt, w') ->
  exists d Ps Rs A,
    heap w !! p = Some (ODict d) /\
    d !! "padded_shape" = Some (PInts Ps) /\
    d !! "resampled_transposed_shape" = Some (PInts Rs) /\
    heap w !! base images = Some (OArray A) /\
    (plans_crop_to_nonzero (plans (self w)) = true ->
     exists box target,
       d !! "nonzero_box" = Some (PInts box) /\
       view_index canvas [b; c] = Ok target).
Proof.
  intros E. unfold reverse_channel in E. rewrite run_get_self in E.
  apply bind_ok_inv in E as (img & w1 & Ei & E). apply lift_ok_inv in Ei as [Ei ->].
  apply bind_ok_inv in E as (Ps & w1 & Eps & E).
  apply dict_getitem_ints_ok_inv in Eps as (-> & d & Hp & HPs).
  apply bind_ok_inv in E as (same1 & w1 & Ex & E). apply lift_ok_inv in Ex as [_ ->].
  apply bind_ok_inv in E as ([] & w1 & Ex & E). apply py_assert_ok_inv in Ex as [_ ->].
  apply bind_ok_inv in E as (stripped & w1 & Est & E). apply lift_ok_inv in Est as [Est ->].
  apply bind_ok_inv in E as (Rs & w1 & Ers & E).
  apply dict_getitem_ints_ok_inv in Ers as (-> & d2 & Hp2 & HRs).
  assert (d2 = d) as -> by congruence. clear Hp2.
  apply bind_ok_inv in E as (same2 & w1 & Ex & E). apply lift_ok_inv in Ex as [_ ->].
  apply bind_ok_inv in E as ([] & w1 & Ex & E). apply py_assert_ok_inv in Ex as [_ ->].
  apply bind_ok_inv in E as (arr & w1 & Erd & E).
  apply view_read_ok_inv in Erd as (-> & A & HA).
  apply strip_padding_base in Est. apply axes_index_ok_view in Ei.
  exists d, Ps, Rs, A. repeat split; try assumption; [congruence|].
  intros Hcrop.
  apply bind_ok_inv in E as (rz & w1 & Erz & E).
  apply call_resize_inv in Erz as [_ (_ & _ & Hh1)].
  apply bind_ok_inv in E as (tr & w2 & Ex & E). apply lift_ok_inv in Ex as [_ ->].
  apply bind_ok_inv in E as (Cs & w2 & Ex & E).
  apply dict_getitem_ints_ok_inv in Ex as (-> & _).
  apply bind_ok_inv in E as (same3 & w2 & Ex & E). apply lift_ok_inv in Ex as [_ ->].
  apply bind_ok_inv in E as ([] & w2 & Ex & E). apply py_assert_ok_inv in Ex as [_ ->].
  rewrite Hcrop in E.
  apply bind_ok_inv in E as (box & w2 & Ebox & E).
  apply dict_getitem_ints_ok_inv in Ebox as (-> & db & Hdb & Hbox).
  rewrite Hh1 in Hdb by discriminate.
  assert (db = d) as -> by congruence.
  apply bind_ok_inv in E as (slices & w2 & Ex & E). apply lift_ok_inv in Ex as [_ ->].
  apply bind_ok_inv in E as (target & w2 & Et & E). apply lift_ok_inv in Et as [Et ->].
  eauto.
Qed.

(** X1: what a successful reversal shows about its inputs.  The record is a
    dict that holds [original_shape], [uncropped_shape], [cropped_shape]
    and [padding], the last three as integer sequences; the uncropped
    extents are not negative; the cropped shape can be indexed by the
    forward transpose; the canvas is a fresh buffer of shape
    [(1, number of classes, *uncropped_shape)].  If the batch has an item
    and a channel, the record also holds [padded_shape] and
    [resampled_transposed_shape], with [nonzero_box] under a plan that
    crops. *)
Theorem reverse_preprocessing_requires images p (w : world V) canvas w' :
  reverse_preprocessing images p w = (Ok canvas, w') ->
  exists d U Cs sact pad,
    heap w !! p = Some (ODict d) /\
    is_Some (d !! "original_shape") /\
    d !! "uncropped_shape" = Some (PInts U) /\
    Forall (Z.le 0) U /\
    d !! "cropped_shape" = Some (PInts Cs) /\
    np_take Cs (transpose_forward (self w)) = Ok sact /\
    d !! "padding" = Some (PInts pad) /\
    canvas = View (fresh (dom (heap w)))
                  (map (ARange 0) (1 :: py_len (plans_classes (plans (self w))) :: U)) /\
    (forall nb nc rest,
       view_shape images = nb :: nc :: rest -> 0 < nb -> 0 < nc ->
       (exists Ps, d !! "padded_shape" = Some (PInts Ps)) /\
       (exists Rs, d !! "resampled_transposed_shape" = Some (PInts Rs)) /\
       (plans_crop_to_nonzero (plans (self w)) = true ->
        exists box, d !! "nonzero_box" = Some (PInts box))).
Proof.
  intros E.
  apply reverse_prologue_inv in E
    as (d & U & Cs & sact & pad & nb0 & w1 & Hp & Hos & HU & HnnU & HCs & Hsact & Hpad
        & Hnb & -> & Hw1 & Eloop).
  exists d, U, Cs, sact, pad.
  split; [exact Hp|]. split; [exact Hos|]. split; [exact HU|]. split; [exact HnnU|].
  split; [exact HCs|]. split; [exact Hsact|]. split; [exact Hpad|]. split; [reflexivity|].
  intros nb nc rest Hsh Hnbpos Hncpos. rewrite Hsh in *.
  apply py_getitem_nonneg_inv in Hnb; [|lia]. injection Hnb as Hnb. subst nb0.
  destruct (py_range_pos nb Hnbpos) as [bs Hbs]. rewrite Hbs in Eloop.
  cbn [py_for] in Eloop.
  apply bind_ok_inv in Eloop as ([] & w2 & Eb & _).
  apply bind_ok_inv in Eb as (nc' & w3 & Enc & Eb).
  apply lift_ok_inv in Enc as [Enc ->].
  apply py_getitem_nonneg_inv in Enc; [|lia]. injection Enc as Enc. subst nc'.
  destruct (py_range_pos nc Hncpos) as [cs Hcs]. rewrite Hcs in Eb.
  cbn [py_for] in Eb.
  apply bind_ok_inv in Eb as ([] & w4 & Ec & _).
  apply reverse_channel_ok_inv in Ec as (d1 & Ps & Rs & A & Hp1 & HPs & HRs & HA & Hbox).
  assert (fresh (dom (heap w)) <> p) as Hne.
  { intros Heq. pose proof (fresh_loc_unused w) as Hf. congruence. }
  subst w1. cbn in Hp1, HA, Hbox.
  rewrite lookup_insert_ne in Hp1 by exact Hne.
  assert (d1 = d) as -> by congruence.
  split; [eauto|]. split; [eauto|].
  intros Hcrop. destruct (Hbox Hcrop) as (box & target & Hb & _). eauto.
Qed.

Lemma py_for_self {A} (xs : list A) (body : A -> M V unit) :
  (forall x (w : world V) r w', body x w = (r, w') -> self w' = self w) ->
  forall (w : world V) r w', py_for xs body w = (r, w') -> self w' = self w.
Proof.
  intros Hb. induction xs as [|x xs IH]; intros w r w' E; cbn in E.
  - now inversion E.
  - unfold bind in E. destruct (body x w) as [[[]|e] w1] eqn:E1.
    + apply Hb in E1. apply IH in E. congruence.
    + apply Hb in E1. inversion E; subst. exact E1.
Qed.

Lemma reverse_channels_self images p canvas sact pad b (w : world V) r w' :
  (let* nc := lift (py_getitem (view_shape images) 1) in
   py_for (py_range nc) (fun c => reverse_channel images p canvas sact pad b c)) w
    = (r, w') ->
  self w' = self w.
Proof.
  unfold bind, lift. destruct (py_getitem (view_shape images) 1) as [nc|e]; intros E.
  - eapply py_for_self; [|exact E]. intros c w0 r0 w0'. apply reverse_channel_self.
  - now inversion E.
Qed.

(** X2: the canvas has room for one batch item and for as many channels as
    the plan has classes.  Under a plan that crops, reversal of a batch with
    a channel and more than one item, or with an item and more channels than
    classes, always ends in an exception. *)
Theorem reverse_preprocessing_capacity images p (w : world V) r w' nb nc rest :
  plans_crop_to_nonzero (plans (self w)) = true ->
  view_shape images = nb :: nc :: rest ->
  (1 < nb /\ 0 < nc) \/ (0 < nb /\ py_len (plans_classes (plans (self w))) < nc) ->
  reverse_preprocessing images p w = (r, w') ->
  exists e, r = Raise e.
Proof.
  intros Hcrop Hsh Hbig E. destruct r as [canvas|e]; [exfalso | eauto].
  apply reverse_prologue_inv in E
    as (d & U & Cs & sact & pad & nb0 & w1 & Hp & Hos & HU & HnnU & HCs & Hsact & Hpad
        & Hnb & -> & Hw1 & Eloop).
  rewrite Hsh in Hnb.
  assert (0 <= py_len (plans_classes (plans (self w)))) as Hncls by (unfold py_len; lia).
  set (ncls := py_len (plans_classes (plans (self w)))) in *.
  assert (exists b c, 0 <= b < nb /\ 0 <= c < nc /\ (b = 1 \/ c = ncls))
    as (b & c & Hb & Hc & Hbad).
  { destruct Hbig as [[? ?]|[? ?]]; [exists 1, 0 | exists 0, ncls]; repeat split; auto; lia. }
  apply py_getitem_nonneg_inv in Hnb; [|lia]. injection Hnb as Hnb. subst nb0.
  assert (self w1 = self w) as Hs1 by (subst w1; reflexivity).
  edestruct (py_for_reaches (A:=Z) (fun w0 => self w0 = self w)) as (wa & wb & Hsa & Eb);
    [exact Eloop | exact Hs1 | exact (py_range_elem _ _ Hb) | |].
  { intros y w0 r0 w0' Hw0 Ex. cbv beta in Ex. apply reverse_channels_self in Ex.
    congruence. }
  cbv beta in Hsa, Eb.
  apply bind_ok_inv in Eb as (nc' & wa' & Enc & Eb). apply lift_ok_inv in Enc as [Enc ->].
  rewrite Hsh in Enc.
  apply py_getitem_nonneg_inv in Enc; [|lia]. injection Enc as Enc. subst nc'.
  edestruct (py_for_reaches (A:=Z) (fun w0 => self w0 = self w)) as (wc & wd & Hsc & Ec);
    [exact Eb | exact Hsa | exact (py_range_elem _ _ Hc) | |].
  { intros y w0 r0 w0' Hw0 Ex. cbv beta in Ex. apply reverse_channel_self in Ex.
    congruence. }
  cbv beta in Hsc, Ec.
  apply reverse_channel_ok_inv in Ec as (d1 & Ps & Rs & A & _ & _ & _ & _ & Hbox).
  rewrite Hsc in Hbox. destruct (Hbox Hcrop) as (box & target & _ & Ht).
  apply canvas_index_inv in Ht. fold ncls in Ht. lia.
Qed.

(** X3: a batch without items, or without channels, leaves nothing to
    reverse: given the four entries that are read up front, the call returns
    a fresh canvas of zeros and calls no [resize]. *)
Theorem reverse_preprocessing_empty_batch images p (w : world V)
    d v U Cs sact pad nb rest :
  heap w !! p = Some (ODict d) ->
  d !! "original_shape" = Some v ->
  d !! "uncropped_shape" = Some (PInts U) ->
  Forall (Z.le 0) U ->
  d !! "cropped_shape" = Some (PInts Cs) ->
  np_take Cs (transpose_forward (self w)) = Ok sact ->
  d !! "padding" = Some (PInts pad) ->
  view_shape images = nb :: rest ->
  nb <= 0 \/ (exists nc rest', rest = nc :: rest' /\ nc <= 0) ->
  reverse_preprocessing images p w =
  (Ok (View (fresh (dom (heap w)))
            (map (ARange 0) (1 :: py_len (plans_classes (plans (self w))) :: U))),
   World (<[fresh (dom (heap w)) :=
             OArray (NdArray (1 :: py_len (plans_classes (plans (self w))) :: U)
                             (fun _ => zero))]> (heap w))
         (files w) (trace w) (self w)).
Proof.
  intros Hp Hos HU HnnU HCs Hsact Hpad Hsh Hempty.
  assert (fresh (dom (heap w)) <> p) as Hne.
  { intros Heq. pose proof (fresh_loc_unused w) as Hf. congruence. }
  unfold reverse_preprocessing. rewrite run_get_self.
  rewrite (run_dict _ _ _ _ _ _ Hp Hos), (run_dict_ints _ _ _ _ _ _ Hp HU).
  unfold bind at 1, np_zeros.
  assert (forallb (Z.leb 0) (1 :: py_len (plans_classes (plans (self w))) :: U) = true)
    as ->.
  { apply forallb_forall. intros x Hx. apply Z.leb_le.
    destruct Hx as [<-|[<-|Hx]]; [lia | unfold py_len; lia |].
    rewrite Forall_forall in HnnU. apply HnnU, list_elem_of_In, Hx. }
  set (w1 := World _ _ _ _).
  assert (heap w1 !! p = Some (ODict d)) as Hp1.
  { unfold w1. cbn. now rewrite lookup_insert_ne. }
  rewrite (run_dict_ints _ _ _ _ _ _ Hp1 HCs).
  change (self w1) with (self w). rewrite Hsact, run_lift_ok.
  rewrite (run_dict_ints _ _ _ _ _ _ Hp1 Hpad).
  rewrite Hsh.
  assert (py_getitem (nb :: rest) 0 = Ok nb) as ->
    by exact (py_getitem_lookup (nb :: rest) 0%nat nb eq_refl).
  rewrite run_lift_ok.
  assert (py_for (py_range nb) (fun b =>
            let* nc := lift (py_getitem (nb :: rest) 1) in
            py_for (py_range nc) (fun c =>
              reverse_channel images p
                (View (fresh (dom (heap w)))
                   (map (ARange 0) (1 :: py_len (plans_classes (plans (self w))) :: U)))
                sact pad b c)) w1 = (Ok tt, w1)) as Hloop.
  { destruct Hempty as [Hnb|(nc & rest' & -> & Hnc)].
    - unfold py_range. replace (Z.to_nat nb) with 0%nat by lia. reflexivity.
    - apply py_for_skip. intros b.
      assert (py_getitem (nb :: nc :: rest') 1 = Ok nc) as ->
        by exact (py_getitem_lookup (nb :: nc :: rest') 1%nat nc eq_refl).
      rewrite run_lift_ok. unfold py_range. replace (Z.to_nat nc) with 0%nat by lia.
      reflexivity. }
  unfold bind at 1. rewrite Hloop. reflexivity.
Qed.

Lemma axes_getitem_shape ax n s k :
  axes_shape ax = n :: s -> 0 <= k < n ->
  exists ax', axes_getitem ax k = Ok ax' /\ axes_shape ax' = s.
Proof.
  intros Hsh Hk. induction ax as [|[c|lo len] r IH]; cbn in Hsh; [discriminate| |].
  - destruct (IH Hsh) as (r' & Hr & Hs). exists (AFixed c :: r'). cbn. now rewrite Hr.
  - inversion Hsh; subst. exists (AFixed (lo + k) :: r). cbn.
    destruct (k <? 0) eqn:Hneg; [apply Z.ltb_lt in Hneg; lia|].
    destruct ((0 <=? k) && (k <? n)) eqn:Hr; [auto|].
    apply andb_false_iff in Hr as [Hr|Hr];
      [apply Z.leb_gt in Hr | apply Z.ltb_ge in Hr]; lia.
Qed.

(** X4: each channel is checked against the record before anything is done
    with it.  If the spatial shape of the predictions is not the recorded
    [padded_shape], reversal raises the assertion on the padded shape at the
    first channel: the canvas has been allocated, nothing was resized and
    nothing was written. *)
Theorem reverse_preprocessing_rejects_shape images p (w : world V)
    d v U Cs sact pad Ps nb nc S :
  heap w !! p = Some (ODict d) ->
  d !! "original_shape" = Some v ->
  d !! "uncropped_shape" = Some (PInts U) ->
  Forall (Z.le 0) U ->
  d !! "cropped_shape" = Some (PInts Cs) ->
  np_take Cs (transpose_forward (self w)) = Ok sact ->
  d !! "padding" = Some (PInts pad) ->
  d !! "padded_shape" = Some (PInts Ps) ->
  view_shape images = nb :: nc :: S ->
  0 < nb -> 0 < nc ->
  np_all_eq S Ps = Ok false ->
  reverse_preprocessing images p w =
  (Raise (AssertionError "Reversing padding: image should be of shape: padded_shape"),
   World (<[fresh (dom (heap w)) :=
             OArray (NdArray (1 :: py_len (plans_classes (plans (self w))) :: U)
                             (fun _ => zero))]> (heap w))
         (files w) (trace w) (self w)).
Proof.
  intros Hp Hos HU HnnU HCs Hsact Hpad HPs Hsh Hnb Hnc Hdiff.
  assert (fresh (dom (heap w)) <> p) as Hne.
  { intros Heq. pose proof (fresh_loc_unused w) as Hf. congruence. }
  unfold reverse_preprocessing. rewrite run_get_self.
  rewrite (run_dict _ _ _ _ _ _ Hp Hos), (run_dict_ints _ _ _ _ _ _ Hp HU).
  unfold bind at 1, np_zeros.
  assert (forallb (Z.leb 0) (1 :: py_len (plans_classes (plans (self w))) :: U) = true)
    as ->.
  { apply forallb_forall. intros x Hx. apply Z.leb_le.
    destruct Hx as [<-|[<-|Hx]]; [lia | unfold py_len; lia |].
    rewrite Forall_forall in HnnU. apply HnnU, list_elem_of_In, Hx. }
  set (w1 := World _ _ _ _).
  assert (heap w1 !! p = Some (ODict d)) as Hp1.
  { unfold w1. cbn. now rewrite lookup_insert_ne. }
  rewrite (run_dict_ints _ _ _ _ _ _ Hp1 HCs).
  change (self w1) with (self w). rewrite Hsact, run_lift_ok.
  rewrite (run_dict_ints _ _ _ _ _ _ Hp1 Hpad).
  rewrite Hsh.
  assert (py_getitem (nb :: nc :: S) 0 = Ok nb) as ->
    by exact (py_getitem_lookup (nb :: nc :: S) 0%nat nb eq_refl).
  rewrite run_lift_ok.
  destruct (py_range_pos nb Hnb) as [bs ->].
  unfold bind at 1. cbn [py_for]. unfold bind at 1.
  assert (py_getitem (nb :: nc :: S) 1 = Ok nc) as ->
    by exact (py_getitem_lookup (nb :: nc :: S) 1%nat nc eq_refl).
  rewrite run_lift_ok.
  destruct (py_range_pos nc Hnc) as [cs ->]. cbn [py_for]. unfold bind at 1.
  assert (exists img, view_index images [0; 0] = Ok img /\ view_shape img = S)
    as (img & Himg & HS).
  { unfold view_index, view_shape in *.
    destruct (axes_getitem_shape _ _ _ 0 Hsh ltac:(lia)) as (ax1 & E1 & S1).
    destruct (axes_getitem_shape _ _ _ 0 S1 ltac:(lia)) as (ax2 & E2 & S2).
    exists (View (base images) ax2). cbn [axes_index]. rewrite E1, E2. auto. }
  unfold reverse_channel. rewrite run_get_self, Himg, run_lift_ok.
  rewrite (run_dict_ints _ _ _ _ _ _ Hp1 HPs), HS, Hdiff, run_lift_ok.
  reflexivity.
Qed.

End ReverseEdges.

(** ** The effects of a training run and of an inference run *)

Section Effects.
Context {V : Type} `{!Voxel V} `{!Externals V}.

Ltac fbind := apply keeps_bind; [apply _ | apply always_stable | | ].
Ltac fleaf :=
  first [ apply keeps_ret; apply _
        | apply keeps_raise; apply _
        | apply keeps_lift; apply _
        | apply keeps_assert; apply _
        | apply keeps_get_self; apply _
        | apply keeps_getattr; apply _
        | intros ? ? ? _ HE; eapply print_inv; exact HE
        | intros ? ? ? _ HE; eapply nib_load_frame; exact HE
        | intros ? ? ? _ HE; apply call_resize_inv in HE as [_ HE]; exact HE ].

Lemma resample_frame images seg norm tf os ts :
  keeps always (frame_but None)
    (_resample_and_normalize_case (V:=V) images seg norm tf os ts).
Proof.
  unfold _resample_and_normalize_case.
  fbind; [fleaf | intros ? ? ? _ _].
  fbind; [fleaf | intros ? ? ? _ _].
  fbind; [fleaf | intros ? ? ? _ _].
  fbind.
  { apply keeps_map; [apply _ | apply always_stable |]. intros i _.
    do 4 (fbind; [fleaf | intros ? ? ? _ _]).
    fbind; [destruct (_ =? _); fleaf | intros ? ? ? _ _]. fleaf. }
  intros ? ? ? _ _.
  do 5 (fbind; [fleaf | intros ? ? ? _ _]).
  fbind.
  { apply keeps_map; [apply _ | apply always_stable |]. intros i _.
    apply keeps_try; [apply _ | apply always_stable | fleaf |].
    fbind; [fleaf | intros ? ? ? _ _; fleaf]. }
  intros ? ? ? _ _.
  destruct seg as [sg|]; [|fleaf].
  fbind; [fleaf | intros ? ? ? _ _].
  fbind; [|intros ? ? ? _ _; fleaf].
  apply keeps_try; [apply _ | apply always_stable | fleaf |].
  fbind; [fleaf | intros ? ? ? _ _; fleaf].
Qed.

Lemma eq_frame {A} (m : M V A) : keeps always eq m -> keeps always (frame_but None) m.
Proof. apply keeps_weaken. intros w w' _ ->. reflexivity. Qed.

Lemma check_labels_frame sid seg : keeps always (frame_but None) (check_labels (V:=V) sid seg).
Proof. unfold check_labels. fbind; [fleaf | intros ? ? ? _ _]. fleaf. Qed.

Lemma crop_train_subject_frame props images seg :
  keeps always (frame_but None) (crop_train_subject (V:=V) props images seg).
Proof.
  unfold crop_train_subject. fbind; [fleaf | intros this ? ? _ _].
  destruct (plans_crop_to_nonzero _); [|fleaf].
  do 2 (fbind; [fleaf | intros ? ? ? _ _]).
  fbind; [apply keeps_map; [apply _ | apply always_stable | intros; fleaf]
         | intros ? ? ? _ _].
  fbind; [fleaf | intros ? ? ? _ _]. fleaf.
Qed.

Lemma frame_saves ap pp {A} (w w' : world V) (r : result A) :
  frame_but None w w' -> saves_case ap pp w r w'.
Proof.
  intros (Hf & Hs & Hh). split; [|split; [exact Hs | left; exact Hf]].
  intros l. apply Hh. discriminate.
Qed.

Lemma saves_bind ap pp {A B} (m : M V A) (k : A -> M V B) :
  keeps always (frame_but None) m ->
  (forall a w r w', k a w = (r, w') -> saves_case ap pp w r w') ->
  forall w r w', bind m k w = (r, w') -> saves_case ap pp w r w'.
Proof.
  intros Hm Hk w r w' E. unfold bind in E.
  destruct (m w) as [[a|e] w1] eqn:Em.
  - destruct (Hm _ _ _ I Em) as (Hf & Hs & Hh).
    destruct (Hk _ _ _ _ E) as (Hh' & Hs' & Hw).
    split; [|split].
    + intros l. rewrite Hh'. apply Hh. discriminate.
    + congruence.
    + destruct Hw as [Hw | (Hr & a' & d & Hw)]; [left; congruence|].
      right. split; [exact Hr|]. exists a', d. now rewrite Hw, Hf.
  - inversion E; subst. apply frame_saves. exact (Hm _ _ _ I Em).
Qed.

Lemma save_train_subject_saves sid ap pp props images seg os osz oo fd ts
    (w : world V) r w' :
  save_train_subject sid ap pp props images seg os osz oo fd ts w = (r, w') ->
  saves_case ap pp w r w'.
Proof.
  unfold save_train_subject. revert w r w'.
  apply saves_bind; [fleaf | intros this].
  apply saves_bind; [fleaf | intros stacked].
  apply saves_bind; [fleaf | intros imgs].
  apply saves_bind; [fleaf | intros gt].
  destruct (connected_components gt) as [numbered n].
  apply saves_bind; [fleaf | intros ns].
  apply saves_bind; [fleaf | intros []].
  intros w r w' E. unfold np_save, save_pickle, write_file in E.
  unfold bind, emit in E. cbn in E. inversion E; subst.
  split; [reflexivity|]. split; [reflexivity|]. right. cbn. split; [reflexivity|]. eauto.
Qed.

Lemma process_train_subject_saves sid ap pp (w : world V) r w' :
  process_train_subject sid ap pp w = (r, w') -> saves_case ap pp w r w'.
Proof.
  unfold process_train_subject. revert w r w'.
  apply saves_bind; [fleaf | intros this].
  apply saves_bind.
  { intros w r w' _ E. eapply load_train_subject_frame; eauto. }
  intros [[props images] seg].
  apply saves_bind; [apply eq_frame, validate_world | intros []].
  apply saves_bind; [fleaf | intros image0].
  apply saves_bind; [apply eq_frame, orient_world | intros [[[oo fd] imgs] sarr]].
  apply saves_bind; [apply check_labels_frame | intros []].
  apply saves_bind; [apply crop_train_subject_frame | intros [[props' imgs'] seg']].
  apply saves_bind; [apply resample_frame | intros [imgs'' seg'']].
  apply saves_bind; [destruct seg''; fleaf | intros seg3].
  intros w r w'. apply save_train_subject_saves.
Qed.


Lemma orient_case_for_inference_frame images image0 props :
  keeps always (frame_but None) (orient_case_for_inference (V:=V) images image0 props).
Proof.
  unfold orient_case_for_inference. fbind; [fleaf | intros this ? ? _ _].
  destruct (_ || _).
  - fbind.
    { apply keeps_map; [apply _ | apply always_stable |]. intros img _.
      fbind; [destruct (plans_target_coordinate_system _); fleaf | intros ? ? ? _ _].
      fleaf. }
    intros ? ? ? _ _. fbind; [fleaf | intros ? ? ? _ _]. fleaf.
  - fbind; [fleaf | intros ? ? ? _ _]. fleaf.
Qed.

(** X6: what preprocessing a case for inference can change.  Whatever the
    outcome, the heap and the file system are as before, and the
    preprocessor object has its operation values (transposes, target
    spacing, intensities) set from its plan. *)
Theorem preprocess_case_for_inference_effects paths patch (w : world V) r w' :
  preprocess_case_for_inference paths patch w = (r, w') ->
  heap w' = heap w /\ files w' = files w /\ self w' = initialized (self w).
Proof.
  intros E. unfold preprocess_case_for_inference in E.
  set (wi := World (heap w) (files w) (trace w) (initialized (self w))).
  assert (initialize_properties w = (Ok tt, wi)) as Hinit by reflexivity.
  rewrite (bind_ok _ _ _ _ _ Hinit) in E.
  assert (frame_but None wi w') as (Hf & Hs & Hh).
  { refine (let H := _ : keeps always (frame_but None) _ in H wi r w' I E).
    fbind; [fleaf | intros this ? ? _ _].
    fbind; [apply keeps_map; [apply _ | apply always_stable | intros; fleaf]
           | intros ? ? ? _ _].
    do 2 (fbind; [fleaf | intros ? ? ? _ _]).
    fbind; [apply orient_case_for_inference_frame | intros [images2 props2] ? ? _ _].
    do 2 (fbind; [fleaf | intros ? ? ? _ _]).
    fbind.
    { destruct (plans_crop_to_nonzero _); [|fleaf].
      fbind; [fleaf | intros ? ? ? _ _].
      fbind; [apply keeps_map; [apply _ | apply always_stable | intros; fleaf]
             | intros ? ? ? _ _].
      fleaf. }
    intros [images4 props4] ? ? _ _.
    fbind; [fleaf | intros ? ? ? _ _].
    fbind; [apply resample_frame | intros [images5 seg5] ? ? _ _].
    fbind; [fleaf | intros ? ? ? _ _].
    fbind; [apply keeps_map; [apply _ | apply always_stable | intros; fleaf]
           | intros ? ? ? _ _].
    do 3 (fbind; [fleaf | intros ? ? ? _ _]). fleaf. }
  cbn in Hf, Hs, Hh. split; [|auto].
  apply map_eq. intros l. apply Hh. discriminate.
Qed.

End Effects.

(** ** The resampling block: its checks *)

Section ResampleChecks.
Context {V : Type} `{!Voxel V} `{!Externals V}.

(** X7: the resampling block starts by comparing three counts.  Unless there
    are as many normalisation schemes as arrays and as many intensity
    statistics as schemes, it raises an [AssertionError] before it has
    normalised, transposed or resized anything. *)
Theorem resample_counts_must_agree images seg norm_op tf os ts stats (w : world V) :
  intensities (self w) = Some stats ->
  ~ (length images = length norm_op /\ length norm_op = length stats) ->
  _resample_and_normalize_case images seg norm_op tf os ts w =
  (Raise (AssertionError
            "number of images, normalization  operations and intensities does not match."),
   w).
Proof.
  intros Hst Hne. unfold _resample_and_normalize_case.
  rewrite run_get_self, Hst, run_getattr.
  assert ((py_len images =? py_len norm_op) && (py_len norm_op =? py_len stats) = false)
    as ->; [|reflexivity].
  apply not_true_is_false. intros Hc. apply Hne.
  apply andb_prop in Hc as [H1 H2]. apply Z.eqb_eq in H1, H2. unfold py_len in *. lia.
Qed.

Lemma py_map_raise_at {A B} (f : A -> M V B) pre x post (w : world V) e :
  (forall y, y ∈ pre -> exists b, f y w = (Ok b, w)) ->
  f x w = (Raise e, w) ->
  py_map f (pre ++ x :: post)%list w = (Raise e, w).
Proof.
  intros Hpre Hx. induction pre as [|y pre IH]; cbn.
  - unfold bind. now rewrite Hx.
  - destruct (Hpre y ltac:(left)) as [b Hb]. unfold bind at 1. rewrite Hb.
    unfold bind at 1. rewrite IH; [reflexivity|].
    intros z Hz. apply Hpre. now right.
Qed.

Lemma py_range_split n (k : nat) :
  Z.of_nat k < n ->
  py_range n =
  (map Z.of_nat (seq 0 k) ++ Z.of_nat k :: map Z.of_nat (seq (S k) (Z.to_nat n - S k)))%list.
Proof.
  intros Hk. unfold py_range.
  replace (Z.to_nat n) with (k + S (Z.to_nat n - S k))%nat at 1 by lia.
  rewrite seq_app, map_app. reflexivity.
Qed.

(** X8: an array with at least one axis whose number of axes, after
    normalisation, is not the length of the transpose permutation does not
    get the assertion the code has for it: building the assertion's message
    evaluates [len(images[i]).shape], so the failure is an [AttributeError].
    It is raised at the first such array, the arrays before it having been
    normalised and transposed. *)
Theorem resample_rank_mismatch_is_attribute_error
    images seg norm_op tf os ts stats (k : nat) image scheme st normalised
    (w : world V) :
  intensities (self w) = Some stats ->
  length images = length norm_op -> length norm_op = length stats ->
  images !! k = Some image -> norm_op !! k = Some scheme -> stats !! k = Some st ->
  normalizer image scheme st = Ok normalised ->
  shape normalised <> [] ->
  ndim normalised <> py_len tf ->
  (forall (j : nat) a sc s,
     (j < k)%nat -> images !! j = Some a -> norm_op !! j = Some sc -> stats !! j = Some s ->
     exists n t, normalizer a sc s = Ok n /\ ndim n = py_len tf /\ np_transpose n tf = Ok t) ->
  _resample_and_normalize_case images seg norm_op tf os ts w =
  (Raise (AttributeError "shape"), w).
Proof.
  intros Hst Hl1 Hl2 Hi Hs Hk Hn _ Hrank Hbefore. unfold _resample_and_normalize_case.
  rewrite run_get_self, Hst, run_getattr.
  assert ((py_len images =? py_len norm_op) && (py_len norm_op =? py_len stats) = true)
    as ->.
  { apply andb_true_intro. split; apply Z.eqb_eq; unfold py_len; lia. }
  rewrite run_assert_true.
  pose proof (lookup_lt_Some _ _ _ Hi) as Hlt.
  rewrite (py_range_split (py_len images) k) by (unfold py_len; lia).
  apply bind_raise, py_map_raise_at.
  - intros y Hy. apply list_elem_of_fmap in Hy as (j & -> & Hj).
    apply elem_of_seq in Hj.
    destruct (lookup_lt_is_Some_2 images j ltac:(lia)) as [a Ha].
    destruct (lookup_lt_is_Some_2 norm_op j ltac:(lia)) as [sc Hsc].
    destruct (lookup_lt_is_Some_2 stats j ltac:(lia)) as [s Hs'].
    destruct (Hbefore j a sc s ltac:(lia) Ha Hsc Hs') as (n & t & Hn' & Hr & Ht).
    exists t.
    rewrite (py_getitem_lookup _ _ _ Ha), run_lift_ok.
    rewrite (py_getitem_lookup _ _ _ Hsc), run_lift_ok.
    rewrite (py_getitem_lookup _ _ _ Hs'), run_lift_ok.
    rewrite Hn', run_lift_ok.
    apply Z.eqb_eq in Hr. rewrite Hr, run_ret, Ht. reflexivity.
  - rewrite (py_getitem_lookup _ _ _ Hi), run_lift_ok.
    rewrite (py_getitem_lookup _ _ _ Hs), run_lift_ok.
    rewrite (py_getitem_lookup _ _ _ Hk), run_lift_ok.
    rewrite Hn, run_lift_ok.
    destruct (ndim normalised =? py_len tf) eqn:Heq;
      [apply Z.eqb_eq in Heq; contradiction|].
    reflexivity.
Qed.

End ResampleChecks.

(** ** The inference run, step by step *)

Section InferenceSteps.
Context {V : Type} `{!Voxel V} `{!Externals V}.

Lemma py_map_nib_load_run paths imgs (w : world V) :
  Forall2 (fun path img => files w !! path = Some (FNifti img)) paths imgs ->
  py_map nib_load paths w =
  (Ok imgs, World (heap w) (files w) (trace w ++ map EvLoad paths) (self w)).
Proof.
  intros HF. revert w imgs HF. induction paths as [|path paths IH]; intros w imgs HF.
  - inversion HF; subst. cbn. rewrite app_nil_r. now destruct w.
  - inversion HF as [|? img ? rest Hf Hrest]; subst. cbn [py_map].
    assert (nib_load path w =
            (Ok img, World (heap w) (files w) (trace w ++ [EvLoad path]) (self w))) as E1.
    { unfold nib_load, bind, emit. cbn. now rewrite Hf. }
    rewrite (bind_ok _ _ _ _ _ E1).
    rewrite (bind_ok _ _ _ _ _
               (IH (World (heap w) (files w) (trace w ++ [EvLoad path]) (self w)) rest Hrest)).
    cbn. now rewrite <- app_assoc.
Qed.

(** X9: the first things an inference run can fail on.  When every path
    names a volume, an empty list of paths ends in [IndexError] (the first
    volume is asked for), and a first volume that is neither 2D nor 3D ends
    in the assertion on its dimensionality; in both cases all volumes have
    been loaded and nothing else was done. *)
Theorem preprocess_case_for_inference_rejects paths imgs patch (w : world V) :
  Forall2 (fun path img => files w !! path = Some (FNifti img)) paths imgs ->
  let loaded := World (heap w) (files w) (trace w ++ map EvLoad paths)
                      (initialized (self w)) in
  (paths = [] ->
   preprocess_case_for_inference paths patch w = (Raise IndexError, loaded)) /\
  (forall image0,
     imgs !! 0%nat = Some image0 ->
     py_len (img_shape image0) <> 2 -> py_len (img_shape image0) <> 3 ->
     preprocess_case_for_inference paths patch w =
     (Raise (AssertionError "images must be either 2D or 3D for preprocessing"), loaded)).
Proof.
  intros HF loaded.
  set (wi := World (heap w) (files w) (trace w) (initialized (self w))).
  assert (initialize_properties w = (Ok tt, wi)) as Hinit by reflexivity.
  assert (py_map nib_load paths wi = (Ok imgs, loaded)) as Hload
    by (apply (py_map_nib_load_run paths imgs wi); exact HF).
  split.
  - intros ->. inversion HF; subst.
    unfold preprocess_case_for_inference.
    rewrite (bind_ok _ _ _ _ _ Hinit), run_get_self, (bind_ok _ _ _ _ _ Hload).
    reflexivity.
  - intros image0 H0 H2 H3.
    unfold preprocess_case_for_inference.
    rewrite (bind_ok _ _ _ _ _ Hinit), run_get_self, (bind_ok _ _ _ _ _ Hload).
    assert (py_getitem imgs 0 = Ok image0) as -> by exact (py_getitem_lookup imgs 0%nat _ H0).
    rewrite run_lift_ok.
    rewrite bool_decide_eq_false_2; [reflexivity|].
    intros Hin. apply elem_of_cons in Hin as [Hin|Hin]; [contradiction|].
    apply elem_of_cons in Hin as [Hin|Hin]; [contradiction|]. now apply elem_of_nil in Hin.
Qed.

(** What each step of a successful inference run was given and gave. *)
Lemma preprocess_steps paths patch (w : world V) tensor props w1 :
  preprocess_case_for_inference paths patch w = (Ok (tensor, props), w1) ->
  exists imgs image0 images2 oriented wa wb image1 arrays wc wd resampled padded stacked,
    Forall2 (fun path img => files w !! path = Some (FNifti img)) paths imgs /\
    imgs !! 0%nat = Some image0 /\
    self wa = initialized (self w) /\
    orient_case_for_inference imgs image0 (loaded_properties image0) wa
      = (Ok (images2, oriented), wb) /\
    images2 !! 0%nat = Some image1 /\
    (if plans_crop_to_nonzero (plans (self w))
     then exists box,
            get_bbox_for_foreground (nib_to_np image1) zero = Ok box /\
            Forall2 (fun a c => crop_to_box a box = Ok c) (map nib_to_np images2) arrays
     else arrays = map nib_to_np images2) /\
    _resample_and_normalize_case arrays None
      (plans_normalization_scheme (plans (self w)))
      (plans_transpose_forward (plans (self w)))
      (get_nib_spacing image0) (plans_target_spacing (plans (self w))) wc
      = (Ok (resampled, None), wd) /\
    Forall2 (fun a (pd : ndarray V * list Z) => pad_to_size a patch = Ok pd)
            resampled padded /\
    np_stack zero (map fst padded) = Ok stacked /\
    tensor = torch_tensor (np_newaxis stacked).
Proof.
  intros E. unfold preprocess_case_for_inference in E.
  apply bind_ok_inv in E as ([] & wi & Einit & E).
  assert (wi = World (heap w) (files w) (trace w) (initialized (self w))) as Hwi.
  { unfold initialize_properties in Einit. rewrite run_get_self in Einit.
    unfold set_self in Einit. now inversion Einit. }
  rewrite run_get_self in E.
  assert (self wi = initialized (self w)) as Hself by (now subst wi).
  rewrite Hself in E.
  apply bind_ok_inv in E as (imgs & w2 & Eload & E).
  apply py_map_nib_load_inv in Eload as [Hload F2].
  assert (files wi = files w) as Hfw by (now subst wi). rewrite Hfw in Hload.
  apply bind_ok_inv in E as (image0 & w3 & E0 & E). apply lift_ok_inv in E0 as [E0 ->].
  apply bind_ok_inv in E as ([] & w3 & Edim & E). apply py_assert_ok_inv in Edim as [_ ->].
  apply bind_ok_inv in E as ([images2 oriented] & w3 & Eor & E).
  apply bind_ok_inv in E as (image1 & w4 & E1 & E). apply lift_ok_inv in E1 as [E1 ->].
  apply bind_ok_inv in E as (arr0 & w4 & E2 & E). apply lift_ok_inv in E2 as [E2 ->].
  apply py_getitem_0_inv in E0, E1, E2.
  assert (arr0 = nib_to_np image1) as ->.
  { rewrite list_lookup_fmap, E1 in E2. now inversion E2. }
  cbn [plans initialized transpose_forward target_spacing] in E.
  apply bind_ok_inv in E as ([arrays props4] & w4 & Ecrop & E).
  assert (if plans_crop_to_nonzero (plans (self w))
          then exists box,
                 get_bbox_for_foreground (nib_to_np image1) zero = Ok box /\
                 Forall2 (fun a c => crop_to_box a box = Ok c)
                         (map nib_to_np images2) arrays
          else arrays = map nib_to_np images2) as Hcrop.
  { destruct (plans_crop_to_nonzero (plans (self w))).
    - apply bind_ok_inv in Ecrop as (b & w5 & Ebox & Ecrop).
      apply lift_ok_inv in Ebox as [Ebox ->].
      apply bind_ok_inv in Ecrop as (crops & w6 & Ecr & Ecrop).
      apply (py_map_Forall2 _ (fun a c => crop_to_box a b = Ok c) eq) in Ecr as [Hcr _].
      2:{ intros x w0 y w0' _ Ex. apply lift_ok_inv in Ex as [Ex ->]. auto. }
      apply ret_inv in Ecrop as [Ecrop _]. inversion Ecrop; subst. eauto.
    - apply ret_inv in Ecrop as [Ecrop _]. now inversion Ecrop. }
  apply bind_ok_inv in E as (c0 & w5 & Ec0 & E). apply lift_ok_inv in Ec0 as [_ ->].
  apply bind_ok_inv in E as ([resampled seg5] & w6 & Ers & E).
  assert (seg5 = None) as ->.
  { pose proof Ers as Ers'. apply resample_inv in Ers'
      as (? & ? & ? & ? & _ & _ & _ & _ & _ & _ & Hseg & _).
    destruct seg5; [contradiction | reflexivity]. }
  apply bind_ok_inv in E as (r0 & w7 & Er0 & E). apply lift_ok_inv in Er0 as [_ ->].
  apply bind_ok_inv in E as (padded & w8 & Epad & E).
  apply (py_map_Forall2 _ (fun a (pd : ndarray V * list Z) => pad_to_size a patch = Ok pd) eq)
    in Epad as [Hpad _].
  2:{ intros x w0 y w0' _ Ex. apply lift_ok_inv in Ex as [Ex ->]. auto. }
  apply bind_ok_inv in E as (padding & w9 & Ep & E). apply lift_ok_inv in Ep as [_ ->].
  apply bind_ok_inv in E as (p0 & w10 & E6 & E). apply lift_ok_inv in E6 as [_ ->].
  apply bind_ok_inv in E as (stacked & w11 & E7 & E). apply lift_ok_inv in E7 as [E7 _].
  apply ret_inv in E as [E _]. inversion E; subst tensor props. clear E.
  destruct F2 as (_ & Hs2 & _).
  exists imgs, image0, images2, oriented, w2, w3, image1, arrays, w4, w6, resampled,
         padded, stacked.
  repeat split; try assumption. congruence.
Qed.

(** X10: inference has no fallback for the target spacing.  Under a plan
    whose target spacing is empty (which training reads as "keep the
    spacing of the case") an inference run never returns: indexing the
    empty target spacing with the transpose raises. *)
Theorem inference_needs_target_spacing paths patch (w : world V) r w' :
  plans_target_spacing (plans (self w)) = [] ->
  plans_transpose_forward (plans (self w)) <> [] ->
  preprocess_case_for_inference paths patch w = (r, w') ->
  exists e, r = Raise e.
Proof.
  intros Hts Htf E. destruct r as [[tensor props]|e]; [exfalso | eauto].
  apply preprocess_steps in E
    as (imgs & image0 & images2 & oriented & wa & wb & image1 & arrays & wc & wd
        & resampled & padded & stacked & _ & _ & _ & _ & _ & _ & Ers & _).
  apply resample_inv in Ers
    as (imgs_t & os_t & ts_t & it0 & _ & _ & _ & _ & Hts_t & _).
  rewrite Hts in Hts_t.
  destruct (plans_transpose_forward (plans (self w))) as [|t tf]; [contradiction|].
  unfold np_take in Hts_t. cbn in Hts_t.
  assert (py_getitem (@nil Q) t = Raise IndexError) as Hg.
  { unfold py_getitem. cbn [length]. destruct (t <? 0);
      match goal with |- context [if ?c then _ else _] => destruct c eqn:Hc end;
      try reflexivity; apply andb_prop in Hc as [H0 H1];
      apply Z.leb_le in H0; apply Z.ltb_lt in H1; lia. }
  rewrite Hg in Hts_t. discriminate.
Qed.


End InferenceSteps.

(** ** The training run: what is saved, and two ways to fail *)

Section TrainingEdges.
Context {V : Type} `{!Voxel V} `{!Externals V}.

Lemma np_atleast_2d_id {A} (a : ndarray A) n m s :
  shape a = n :: m :: s -> np_atleast_2d a = a.
Proof. intros Hs. unfold np_atleast_2d. now rewrite Hs. Qed.

(** X12: the layout of what a training case saves.  Given at least one
    array, arrays that have an axis and distinct paths for the array and the
    pickle, a save that returns has written an array whose first axis runs
    over the modalities, in their order, followed by the label as the last
    entry; the arrays and the label have one shape, which the pickle holds
    as [new_size], next to the original size and spacing it was given. *)
Theorem saved_array_layout sid ap pp props images seg os osz oo fd ts (w : world V) w' :
  images <> [] -> shape seg <> [] -> Forall (fun im => shape im <> []) images ->
  ap <> pp ->
  save_train_subject sid ap pp props images seg os osz oo fd ts w = (Ok tt, w') ->
  exists a d,
    files w' !! ap = Some (FNpy a) /\
    files w' !! pp = Some (FPkl d) /\
    shape a = (py_len images + 1) :: shape seg /\
    Forall (fun im => shape im = shape seg) images /\
    (forall (k : nat) im i, images !! k = Some im -> data a (Z.of_nat k :: i) = data im i) /\
    (forall i, data a (py_len images :: i) = data seg i) /\
    d !! "new_size" = Some (PInts (shape seg)) /\
    d !! "original_size" = Some (PInts osz) /\
    d !! "original_spacing" = Some (PFloats os).
Proof.
  intros Hne Hseg Hrank Hpaths E. unfold save_train_subject in E.
  rewrite run_get_self in E.
  apply bind_ok_inv in E as (stacked & w1 & Est & E). apply lift_ok_inv in Est as [Est ->].
  apply bind_ok_inv in E as (a & w1 & Ea & E). apply lift_ok_inv in Ea as [Ea ->].
  apply bind_ok_inv in E as (gt & w1 & Egt & E). apply lift_ok_inv in Egt as [_ ->].
  destruct (connected_components gt) as [numbered n].
  apply bind_ok_inv in E as (ns & w1 & Ens & E). apply lift_ok_inv in Ens as [_ ->].
  apply bind_ok_inv in E as ([] & w1 & Ep & E).
  unfold np_save, save_pickle, write_file in E. unfold bind, emit in E. cbn in E.
  inversion E; subst w'. clear E. cbn [files].
  (* the stack of the arrays *)
  destruct images as [|im0 images]; [contradiction|].
  unfold np_array_of_list, np_stack in Est.
  destruct (forallb _ _) eqn:Hall; [|discriminate]. inversion Est; subst stacked. clear Est.
  rewrite forallb_forall in Hall.
  assert (Forall (fun im => shape im = shape im0) (im0 :: images)) as Hsame.
  { apply Forall_forall. intros im Him.
    apply list_elem_of_In, Hall, bool_decide_eq_true in Him. exact Him. }
  inversion Hrank as [|? ? Hr0 _]; subst.
  destruct (shape im0) as [|n0 s0] eqn:Hs0; [contradiction|].
  (* the stack and the label, one on top of the other *)
  unfold np_vstack in Ea.
  rewrite (np_atleast_2d_id _ (py_len (im0 :: images)) n0 s0) in Ea by reflexivity.
  destruct (shape seg) as [|m0 t0] eqn:Hsg; [contradiction|].
  rewrite (np_atleast_2d_id (np_newaxis seg) 1 m0 t0) in Ea by (cbn; now rewrite Hsg).
  cbn [shape np_newaxis] in Ea. rewrite Hsg in Ea.
  destruct (bool_decide (n0 :: s0 = m0 :: t0)) eqn:Heq; [|discriminate].
  apply bool_decide_eq_true in Heq. inversion Ea; subst a. clear Ea.
  eexists _, _.
  split; [rewrite lookup_insert_ne by congruence; apply lookup_insert_eq|].
  split; [apply lookup_insert_eq|].
  cbn [shape data].
  split; [now rewrite Heq|].
  split; [now rewrite <- Heq|].
  split.
  { intros k im i Hk. pose proof (lookup_lt_Some _ _ _ Hk) as Hlt.
    destruct (Z.of_nat k <? py_len (im0 :: images)) eqn:Hc;
      [|apply Z.ltb_ge in Hc; unfold py_len in Hc; lia].
    cbn [data]. now rewrite Nat2Z.id, Hk. }
  split.
  { intros i. rewrite Z.ltb_irrefl. reflexivity. }
  split.
  { rewrite !lookup_insert_ne, lookup_insert_eq by discriminate. cbn [tail].
    now rewrite Heq. }
  split; now rewrite !lookup_insert_ne, lookup_insert_eq by discriminate.
Qed.

Lemma run_load {B} subject_id props images seg (w w1 : world V)
    (k : gmap string propval * list (nib_image V) * nib_image V -> M V B) :
  load_train_subject subject_id w = (Ok (props, images, seg), w1) ->
  bind (load_train_subject subject_id) k w = k (props, images, seg) w1.
Proof. intros E. apply bind_ok. exact E. Qed.

(** X13: a subject for which no modality file is found.  With the
    consistency checks on, the case fails on the assertion that names the
    prefix that was looked for; with the checks off it fails on the first
    access to [images[0]], with an [IndexError].  Either way only the label
    volume has been loaded. *)
Theorem subject_without_modalities subject_id dir (w : world V) props seg w1 :
  target_dir (self w) = Some dir ->
  ~ (is_Some (files w !! path_join dir (drop_last_chars 7 subject_id +:+ ".npy")) /\
     is_Some (files w !! path_join dir (drop_last_chars 7 subject_id +:+ ".pkl"))) ->
  load_train_subject (drop_last_chars 7 subject_id) (announced subject_id w)
    = (Ok (props, [], seg), w1) ->
  _preprocess_train_subject subject_id w =
  (Raise (if disable_unittests (self w)
          then IndexError
          else AssertionError
                 ("found no images for " +:+ drop_last_chars 7 subject_id +:+ "_")),
   w1).
Proof.
  intros Hdir Hnot Hload.
  rewrite (preprocess_train_subject_unskipped _ _ _ Hdir Hnot).
  pose proof (load_train_subject_frame _ _ _ _ Hload) as (_ & Hs & _). cbn in Hs.
  unfold process_train_subject. rewrite run_get_self, (run_load _ _ _ _ _ _ _ Hload).
  unfold validate_train_subject. unfold bind at 1. rewrite run_get_self, Hs.
  destruct (disable_unittests (self w)); reflexivity.
Qed.

(** X14: in training a coded header needs a target.  If the first modality
    of a case carries a coded qform or sform and the plan names no target
    coordinate system, the case fails with [KeyError] once it has passed the
    consistency checks; nothing has been reoriented or written. *)
Theorem coded_header_needs_target subject_id dir (w : world V) props images seg w1 image0 :
  target_dir (self w) = Some dir ->
  ~ (is_Some (files w !! path_join dir (drop_last_chars 7 subject_id +:+ ".npy")) /\
     is_Some (files w !! path_join dir (drop_last_chars 7 subject_id +:+ ".pkl"))) ->
  load_train_subject (drop_last_chars 7 subject_id) (announced subject_id w)
    = (Ok (props, images, seg), w1) ->
  fst (validate_train_subject (drop_last_chars 7 subject_id) images seg w1) = Ok tt ->
  images !! 0%nat = Some image0 ->
  coded image0 = true ->
  plans_target_coordinate_system (plans (self w)) = None ->
  _preprocess_train_subject subject_id w = (Raise (KeyError "target_coordinate_system"), w1).
Proof.
  intros Hdir Hnot Hload Hval H0 Hcoded Hnone.
  rewrite (preprocess_train_subject_unskipped _ _ _ Hdir Hnot).
  pose proof (load_train_subject_frame _ _ _ _ Hload) as (_ & Hs & _). cbn in Hs.
  unfold process_train_subject. rewrite run_get_self, (run_load _ _ _ _ _ _ _ Hload).
  destruct (validate_train_subject _ images seg w1) as [rv wv] eqn:Ev.
  cbn in Hval. subst rv.
  pose proof (validate_world _ _ _ _ _ _ I Ev) as <-.
  rewrite (bind_ok _ _ _ _ _ Ev).
  assert (py_getitem images 0 = Ok image0) as Hg by exact (py_getitem_lookup images 0%nat _ H0).
  rewrite Hg, run_lift_ok.
  apply bind_raise. unfold orient_train_subject.
  rewrite run_get_self, Hg, run_lift_ok. fold (coded image0). rewrite Hcoded, Hs, Hnone.
  reflexivity.
Qed.

End TrainingEdges.

(** ** [predict_step]: from the files of a case to logits in its geometry *)

Section PredictStepCorrect.
Context {V : Type} `{!Voxel V} `{!Externals V} `{!Network V}.
Hypothesis Hext : externals_ok V.


End PredictStepCorrect.

(** ** The record of a training case *)

Section TrainingRecord.
Context {V : Type} `{!Voxel V} `{!Externals V}.

Lemma load_train_subject_props subject_id (w : world V) props images seg w1 :
  load_train_subject subject_id w = (Ok (props, images, seg), w1) ->
  dom props = {["image files"; "segmentation file"]}.
Proof.
  intros E. unfold load_train_subject in E. rewrite run_get_self in E.
  apply bind_ok_inv in E as (paths & wa & _ & E).
  apply bind_ok_inv in E as (imgs & wb & _ & E).
  apply bind_ok_inv in E as (dir & wc & _ & E).
  apply bind_ok_inv in E as (sg & wd & _ & E).
  apply ret_inv in E as [E _]. inversion E; subst.
  rewrite !dom_insert_L, dom_empty_L. apply set_eq. intros x. set_unfold. tauto.
Qed.

Lemma crop_train_subject_record props images seg (w : world V) props' images' seg' w' :
  crop_train_subject props images seg w = (Ok (props', images', seg'), w') ->
  dom props' = {["crop_to_nonzero"]} ∪ dom props /\
  if plans_crop_to_nonzero (plans (self w))
  then exists box, props' !! "crop_to_nonzero" = Some (PInts box)
  else props' !! "crop_to_nonzero" = Some (PBool false).
Proof.
  intros E. unfold crop_train_subject in E. rewrite run_get_self in E.
  destruct (plans_crop_to_nonzero (plans (self w))).
  - apply bind_ok_inv in E as (image0 & wa & _ & E).
    apply bind_ok_inv in E as (box & wb & _ & E).
    apply bind_ok_inv in E as (imgs & wc & _ & E).
    apply bind_ok_inv in E as (sg & wd & _ & E).
    apply ret_inv in E as [E _]. inversion E; subst.
    split; [apply dom_insert_L|]. exists box. apply lookup_insert_eq.
  - apply ret_inv in E as [E _]. inversion E; subst.
    split; [apply dom_insert_L | apply lookup_insert_eq].
Qed.

Lemma save_train_subject_pickle sid ap pp props images seg os osz oo fd ts
    (w : world V) w' :
  save_train_subject sid ap pp props images seg os osz oo fd ts w = (Ok tt, w') ->
  exists d, files w' !! pp = Some (FPkl d) /\
    dom d = {["original_spacing"; "original_size"; "original_orientation"; "new_spacing";
              "new_size"; "new_direction"; "foreground_locations"; "n_cc"; "size_cc"]}
            ∪ dom props /\
    d !! "crop_to_nonzero" = props !! "crop_to_nonzero".
Proof.
  intros E. unfold save_train_subject in E. rewrite run_get_self in E.
  apply bind_ok_inv in E as (stacked & w1 & _ & E).
  apply bind_ok_inv in E as (a & w2 & _ & E).
  apply bind_ok_inv in E as (gt & w3 & _ & E).
  destruct (connected_components gt) as [numbered n].
  apply bind_ok_inv in E as (ns & w4 & _ & E).
  apply bind_ok_inv in E as ([] & w5 & _ & E).
  unfold np_save, save_pickle, write_file in E. unfold bind, emit in E. cbn in E.
  inversion E; subst w'. clear E. cbn [files].
  eexists. split; [apply lookup_insert_eq|]. split.
  - rewrite !dom_insert_L. apply set_eq. intros x. set_unfold. tauto.
  - now rewrite !lookup_insert_ne by discriminate.
Qed.

(** The pickle of a case that has been processed. *)
Lemma process_train_subject_pickle sid ap pp (w : world V) w' :
  process_train_subject sid ap pp w = (Ok tt, w') ->
  exists d, files w' !! pp = Some (FPkl d) /\
    dom d = {["image files"; "segmentation file"; "crop_to_nonzero";
              "original_spacing"; "original_size"; "original_orientation"; "new_spacing";
              "new_size"; "new_direction"; "foreground_locations"; "n_cc"; "size_cc"]} /\
    if plans_crop_to_nonzero (plans (self w))
    then exists box, d !! "crop_to_nonzero" = Some (PInts box)
    else d !! "crop_to_nonzero" = Some (PBool false).
Proof.
  intros E. unfold process_train_subject in E. rewrite run_get_self in E.
  apply bind_ok_inv in E as ([[props images] seg] & w1 & El & E).
  pose proof (load_train_subject_frame _ _ _ _ El) as (_ & Hs1 & _).
  apply load_train_subject_props in El.
  apply bind_ok_inv in E as ([] & w2 & Ev & E).
  pose proof (validate_world _ _ _ _ _ _ I Ev) as <-.
  apply bind_ok_inv in E as (i0 & w2 & Ei & E). apply lift_ok_inv in Ei as [_ ->].
  apply bind_ok_inv in E as ([[[oo fd] arrays] labels] & w3 & Eo & E).
  pose proof (orient_world _ _ _ _ _ I Eo) as <-.
  apply bind_ok_inv in E as ([] & w4 & Ec & E).
  pose proof (check_labels_frame _ _ _ _ _ I Ec) as (_ & Hs4 & _).
  apply bind_ok_inv in E as ([[props' imgs'] seg'] & w5 & Ecrop & E).
  apply crop_train_subject_record in Ecrop as [Hdom Hcrop].
  rewrite Hs4, Hs1 in Hcrop.
  apply bind_ok_inv in E as ([imgs'' seg''] & w6 & _ & E).
  apply bind_ok_inv in E as (seg3 & w7 & _ & E).
  apply save_train_subject_pickle in E as (d & Hd & Hdd & Hc).
  exists d. split; [exact Hd|]. split.
  - rewrite Hdd, Hdom, El. apply set_eq. intros x. set_unfold. tauto.
  - rewrite Hc. exact Hcrop.
Qed.

(** X16: what the pickle of a training case holds.  A case that is
    processed (not skipped) and returns has saved a record with exactly
    twelve entries: the paths of the volumes, the cropping, the original and
    the new geometry and the foreground statistics.  Its [crop_to_nonzero]
    entry is the bounding box when the plan crops and [False] otherwise. *)
Theorem training_record_keys subject_id dir (w : world V) w' :
  target_dir (self w) = Some dir ->
  ~ (is_Some (files w !! path_join dir (drop_last_chars 7 subject_id +:+ ".npy")) /\
     is_Some (files w !! path_join dir (drop_last_chars 7 subject_id +:+ ".pkl"))) ->
  _preprocess_train_subject subject_id w = (Ok tt, w') ->
  exists d,
    files w' !! path_join dir (drop_last_chars 7 subject_id +:+ ".pkl") = Some (FPkl d) /\
    dom d = {["image files"; "segmentation file"; "crop_to_nonzero";
              "original_spacing"; "original_size"; "original_orientation"; "new_spacing";
              "new_size"; "new_direction"; "foreground_locations"; "n_cc"; "size_cc"]} /\
    if plans_crop_to_nonzero (plans (self w))
    then exists box, d !! "crop_to_nonzero" = Some (PInts box)
    else d !! "crop_to_nonzero" = Some (PBool false).
Proof.
  intros Hdir Hnot E.
  rewrite (preprocess_train_subject_unskipped _ _ _ Hdir Hnot) in E.
  apply process_train_subject_pickle in E. exact E.
Qed.

(** X17: the record of a training case is not one that reversal accepts.
    Reversal reads [original_shape] first, which the training record does
    not have (it has [original_size]): on the record that a processed
    training case has saved, [reverse_preprocessing] raises [KeyError] for
    any predictions, in any world, before it does anything else. *)
Theorem training_record_is_not_reversible subject_id dir (w : world V) w' :
  target_dir (self w) = Some dir ->
  ~ (is_Some (files w !! path_join dir (drop_last_chars 7 subject_id +:+ ".npy")) /\
     is_Some (files w !! path_join dir (drop_last_chars 7 subject_id +:+ ".pkl"))) ->
  _preprocess_train_subject subject_id w = (Ok tt, w') ->
  exists d,
    files w' !! path_join dir (drop_last_chars 7 subject_id +:+ ".pkl") = Some (FPkl d) /\
    forall images p (w2 : world V),
      heap w2 !! p = Some (ODict d) ->
      reverse_preprocessing images p w2 = (Raise (KeyError "original_shape"), w2).
Proof.
  intros Hdir Hnot E.
  rewrite (preprocess_train_subject_unskipped _ _ _ Hdir Hnot) in E.
  apply process_train_subject_pickle in E as (d & Hd & Hdom & _).
  exists d. split; [exact Hd|]. intros images p w2 Hp.
  assert (d !! "original_shape" = None) as Hnone.
  { apply not_elem_of_dom. rewrite Hdom. set_unfold. intros Hin.
    repeat destruct Hin as [Hin|Hin]; discriminate Hin. }
  unfold reverse_preprocessing. rewrite run_get_self.
  unfold bind, dict_getitem. now rewrite Hp, Hnone.
Qed.

End TrainingRecord.

(** ** What a training case reads and writes *)

Section TrainingEvents.
Context {V : Type} `{!Voxel V} `{!Externals V}.
Variable this0 : preprocessor V.
Variable P : event -> Prop.
Hypothesis P_print : forall msg, P (EvPrint msg).
Hypothesis P_resize : forall s t o, P (EvResize s t o).

#[local] Instance emits_only_preorder : PreOrder (emits_only (V:=V) P).
Proof.
  split.
  - intros w. split; [reflexivity|]. exists []. split; [now rewrite app_nil_r | constructor].
  - intros a b c (Hs1 & e1 & Ht1 & HP1) (Hs2 & e2 & Ht2 & HP2).
    split; [congruence|]. exists (e1 ++ e2)%list. split.
    + now rewrite Ht2, Ht1, app_assoc.
    + apply Forall_app. now split.
Qed.

Lemma at_preprocessor_stable (w w' : world V) :
  at_preprocessor this0 w -> emits_only P w w' -> at_preprocessor this0 w'.
Proof. unfold at_preprocessor. intros Hw (Hs & _). congruence. Qed.

Lemma emits_emit e : P e -> keeps (at_preprocessor this0) (emits_only P) (emit (V:=V) e).
Proof.
  intros HP w r w' _ E. inversion E; subst. split; [reflexivity|].
  exists [e]. split; [reflexivity | now constructor].
Qed.

Lemma emits_of_eq {A} (m : M V A) :
  keeps always eq m -> keeps (at_preprocessor this0) (emits_only P) m.
Proof. intros Hm w r w' _ E. rewrite <- (Hm _ _ _ I E). reflexivity. Qed.

Ltac ebind := apply keeps_bind; [apply _ | apply at_preprocessor_stable | | ].
Ltac eleaf :=
  first [ apply keeps_ret; apply _
        | apply keeps_raise; apply _
        | apply keeps_lift; apply _
        | apply keeps_assert; apply _
        | apply keeps_get_self; apply _
        | apply keeps_getattr; apply _
        | apply emits_emit; apply P_print
        | apply emits_emit; apply P_resize ].

Lemma emits_nib_load path :
  P (EvLoad path) -> keeps (at_preprocessor this0) (emits_only P) (nib_load path).
Proof.
  intros HP. unfold nib_load. ebind; [now apply emits_emit | intros ? ? ? _ _].
  intros wa ra wb _ E.
  destruct (files wa !! path) as [[]|]; inversion E; subst; reflexivity.
Qed.

Lemma emits_write_file path (f : file V) :
  P (EvSave path) -> keeps (at_preprocessor this0) (emits_only P) (write_file path f).
Proof.
  intros HP. unfold write_file. ebind; [now apply emits_emit | intros ? ? ? _ _].
  intros wa ra wb _ E. inversion E; subst. split; [reflexivity|].
  exists []. split; [cbn; now rewrite app_nil_r | constructor].
Qed.

Lemma emits_isfile path : keeps (at_preprocessor this0) (emits_only P) (isfile (V:=V) path).
Proof. intros w r w' _ E. inversion E; subst. reflexivity. Qed.

Lemma emits_call_resize image s order aa :
  keeps (at_preprocessor this0) (emits_only P) (call_resize image s order aa).
Proof. unfold call_resize. ebind; [eleaf | intros ? ? ? _ _; eleaf]. Qed.

Lemma emits_resample images seg norm tf os ts :
  keeps (at_preprocessor this0) (emits_only P)
        (_resample_and_normalize_case images seg norm tf os ts).
Proof.
  unfold _resample_and_normalize_case.
  ebind; [eleaf | intros ? ? ? _ _].
  ebind; [eleaf | intros ? ? ? _ _].
  ebind; [eleaf | intros ? ? ? _ _].
  ebind.
  { apply keeps_map; [apply _ | apply at_preprocessor_stable |]. intros i _.
    do 4 (ebind; [eleaf | intros ? ? ? _ _]).
    ebind; [destruct (_ =? _); eleaf | intros ? ? ? _ _]. eleaf. }
  intros ? ? ? _ _.
  do 5 (ebind; [eleaf | intros ? ? ? _ _]).
  ebind.
  { apply keeps_map; [apply _ | apply at_preprocessor_stable |]. intros i _.
    apply keeps_try; [apply _ | apply at_preprocessor_stable | apply emits_call_resize |].
    ebind; [eleaf | intros ? ? ? _ _; eleaf]. }
  intros ? ? ? _ _.
  destruct seg as [sg|]; [|eleaf].
  ebind; [eleaf | intros ? ? ? _ _].
  ebind; [|intros ? ? ? _ _; eleaf].
  apply keeps_try; [apply _ | apply at_preprocessor_stable | apply emits_call_resize |].
  ebind; [eleaf | intros ? ? ? _ _; eleaf].
Qed.

Lemma emits_check_labels sid seg :
  keeps (at_preprocessor this0) (emits_only P) (check_labels sid seg).
Proof. unfold check_labels. ebind; [eleaf | intros ? ? ? _ _]. eleaf. Qed.

Lemma emits_crop props images seg :
  keeps (at_preprocessor this0) (emits_only P) (crop_train_subject props images seg).
Proof.
  unfold crop_train_subject. ebind; [eleaf | intros this ? ? _ _].
  destruct (plans_crop_to_nonzero _); [|eleaf].
  do 2 (ebind; [eleaf | intros ? ? ? _ _]).
  ebind; [apply keeps_map; [apply _ | apply at_preprocessor_stable | intros; eleaf]
         | intros ? ? ? _ _].
  ebind; [eleaf | intros ? ? ? _ _]. eleaf.
Qed.

Lemma emits_save sid ap pp props images seg os osz oo fd ts :
  P (EvSave ap) -> P (EvSave pp) ->
  keeps (at_preprocessor this0) (emits_only P)
        (save_train_subject sid ap pp props images seg os osz oo fd ts).
Proof.
  intros Ha Hp. unfold save_train_subject.
  ebind; [eleaf | intros ? ? ? _ _].
  do 3 (ebind; [eleaf | intros ? ? ? _ _]).
  destruct (connected_components _) as [numbered n].
  ebind; [eleaf | intros ? ? ? _ _].
  ebind; [eleaf | intros ? ? ? _ _].
  ebind; [now apply emits_write_file | intros ? ? ? _ _].
  now apply emits_write_file.
Qed.

Lemma emits_load sid :
  (forall all p, imagepaths this0 = Some all -> p ∈ all ->
                 startswith (basename p) (sid +:+ "_") = true -> P (EvLoad p)) ->
  (forall dir, input_dir this0 = Some dir ->
               P (EvLoad (path_join (path_join dir "labelsTr") (sid +:+ ".nii.gz")))) ->
  keeps (at_preprocessor this0) (emits_only P) (load_train_subject sid).
Proof.
  intros Himg Hseg. unfold load_train_subject.
  apply keeps_bind; [apply _ | apply at_preprocessor_stable | eleaf |].
  intros this w ? Hw Eg. inversion Eg; subst. clear Eg.
  unfold at_preprocessor in Hw. rewrite Hw.
  destruct (imagepaths this0) as [all|] eqn:Hall;
    [|ebind; [eleaf | intros ? ? ? _ Ex; inversion Ex]].
  ebind; [eleaf | intros paths ? ? _ Ea]. apply ret_inv in Ea as [Ea _].
  inversion Ea; subst paths. clear Ea.
  ebind.
  { apply keeps_map; [apply _ | apply at_preprocessor_stable |]. intros p Hp.
    apply list_elem_of_filter in Hp as [Hpre Hin].
    apply emits_nib_load. eapply Himg; eauto. }
  intros ? ? ? _ _.
  destruct (input_dir this0) as [dir|] eqn:Hdir;
    [|ebind; [eleaf | intros ? ? ? _ Ex; inversion Ex]].
  ebind; [eleaf | intros d ? ? _ Eb]. apply ret_inv in Eb as [Eb _].
  inversion Eb; subst d. clear Eb.
  ebind; [apply emits_nib_load; now apply Hseg | intros ? ? ? _ _]. eleaf.
Qed.

Lemma emits_process sid ap pp :
  (forall all p, imagepaths this0 = Some all -> p ∈ all ->
                 startswith (basename p) (sid +:+ "_") = true -> P (EvLoad p)) ->
  (forall dir, input_dir this0 = Some dir ->
               P (EvLoad (path_join (path_join dir "labelsTr") (sid +:+ ".nii.gz")))) ->
  P (EvSave ap) -> P (EvSave pp) ->
  keeps (at_preprocessor this0) (emits_only P) (process_train_subject sid ap pp).
Proof.
  intros Himg Hseg Ha Hp. unfold process_train_subject.
  ebind; [eleaf | intros this ? ? _ _].
  ebind; [now apply emits_load | intros [[props images] seg] ? ? _ _].
  ebind; [apply emits_of_eq, validate_world | intros ? ? ? _ _].
  ebind; [eleaf | intros ? ? ? _ _].
  ebind; [apply emits_of_eq, orient_world | intros [[[oo fd] imgs] sarr] ? ? _ _].
  ebind; [apply emits_check_labels | intros ? ? ? _ _].
  ebind; [apply emits_crop | intros [[props' imgs'] seg'] ? ? _ _].
  ebind; [apply emits_resample | intros [imgs'' seg''] ? ? _ _].
  ebind; [destruct seg''; eleaf | intros ? ? ? _ _].
  now apply emits_save.
Qed.

End TrainingEvents.

Section TrainingReads.
Context {V : Type} `{!Voxel V} `{!Externals V}.

(** X18: a training case reads and writes only what is its own.  Whatever
    the outcome, the volumes a run of [_preprocess_train_subject] loads are
    the label volume of the subject and image paths whose file name starts
    with the subject id followed by an underscore (so [Case_4] never loads
    [Case_42_000]), and the files it saves are the array and the pickle of
    the subject in the target directory. *)
Theorem preprocess_train_subject_events subject_id (w : world V) r w' :
  _preprocess_train_subject subject_id w = (r, w') ->
  exists evs, trace w' = (trace w ++ evs)%list /\
              Forall (own_event (self w) (drop_last_chars 7 subject_id)) evs.
Proof.
  intros E.
  set (P := own_event (self w) (drop_last_chars 7 subject_id)).
  assert (forall msg, P (EvPrint msg)) as Hprint by (intros; exact I).
  assert (forall s t o, P (EvResize s t o)) as Hresize by (intros; exact I).
  assert (keeps (at_preprocessor (self w)) (emits_only P) (_preprocess_train_subject subject_id))
    as Hk.
  { unfold _preprocess_train_subject.
    apply keeps_bind; [apply emits_only_preorder | apply at_preprocessor_stable
                      | apply keeps_get_self; apply emits_only_preorder |].
    intros this w0 ? Hw0 Eg. inversion Eg; subst. clear Eg.
    unfold at_preprocessor in Hw0. rewrite Hw0.
    apply keeps_bind; [apply emits_only_preorder | apply at_preprocessor_stable
                      | apply emits_emit; apply Hprint | intros ? ? ? _ _].
    destruct (target_dir (self w)) as [dir|] eqn:Hdir.
    2:{ apply keeps_bind; [apply emits_only_preorder | apply at_preprocessor_stable
                          | apply keeps_raise; apply emits_only_preorder
                          | intros ? ? ? _ Ex; inversion Ex]. }
    apply keeps_bind; [apply emits_only_preorder | apply at_preprocessor_stable
                      | apply keeps_ret; apply emits_only_preorder
                      | intros d ? ? _ Ed]. apply ret_inv in Ed as [Ed _].
    inversion Ed; subst d. clear Ed.
    apply keeps_bind; [apply emits_only_preorder | apply at_preprocessor_stable
                      | apply emits_isfile | intros ae ? ? _ _].
    apply keeps_bind; [apply emits_only_preorder | apply at_preprocessor_stable
                      | apply emits_isfile | intros pe ? ? _ _].
    destruct (ae && pe); [apply emits_emit; apply Hprint|].
    apply emits_process; try assumption.
    - intros all p Hall Hin Hpre. right. exists all. auto.
    - intros d Hd. left. exists d. auto.
    - exists dir. auto.
    - exists dir. auto. }
  destruct (Hk w r w' eq_refl E) as (_ & evs & Ht & HP).
  exists evs. auto.
Qed.

End TrainingReads.

(** ** The theorems at work on the concrete case *)

Import Example.

Lemma run_ok_eq {V A} (m : M V A) (w : world V) (d : A) :
  is_ok (fst (m w)) = true ->
  m w = (Ok (match fst (m w) with Ok a => a | Raise _ => d end), snd (m w)).
Proof. destruct (m w) as [[a|e] w']; cbn; [reflexivity | discriminate]. Qed.

Lemma forward_ok E crop target q s :
  is_ok (fst (forward E crop target q s)) = true ->
  forward E crop target q s =
  (Ok (forward_tensor E crop target q s, forward_props E crop target q s),
   snd (forward E crop target q s)).
Proof.
  unfold forward_tensor, forward_props.
  destruct (forward E crop target q s) as [[[t p]|e] w']; cbn;
    [reflexivity | discriminate].
Qed.



(** C2 on the case with cropping disabled: the call returns, and the canvas
    is zero although every prediction is one. *)
Lemma reverse_preprocessing_without_crop_witness :
  plans_crop_to_nonzero
    (plans (self (world_with_predictions externals_Z false (Some "RAS") 1 1 1 2))) = false /\
  data (predictions 1 2) [0; 0; 1; 0; 1] = 1 /\
  exists uncropped,
    view_shape (match fst (reversal externals_Z false (Some "RAS") 1 1 1 2) with
                | Ok c => c
                | Raise _ => predictions_view 0 0
                end) = 1 :: 2 :: uncropped /\
    heap (snd (reversal externals_Z false (Some "RAS") 1 1 1 2))
      !! base (match fst (reversal externals_Z false (Some "RAS") 1 1 1 2) with
               | Ok c => c
               | Raise _ => predictions_view 0 0
               end) =
      Some (OArray (NdArray (1 :: 2 :: uncropped) (fun _ => 0))).
Proof.
  split; [vm_compute; reflexivity|]. split; [reflexivity|].
  apply (@reverse_preprocessing_without_crop Z voxel_Z externals_Z
           (predictions_view 1 2) record_loc
           (world_with_predictions externals_Z false (Some "RAS") 1 1 1 2)).
  - vm_compute. reflexivity.
  - apply (run_ok_eq (@reverse_preprocessing Z voxel_Z externals_Z
                        (predictions_view 1 2) record_loc)).
    vm_compute. reflexivity.
Defined.

(** C10 on the case: the prediction buffer and the record are what they
    were, and the canvas is at a location that was free. *)
Lemma reverse_preprocessing_frame_witness :
  (forall l o,
     heap (world_with_predictions externals_Z true (Some "RAS") 1 1 1 2) !! l = Some o ->
     heap (snd (reversal externals_Z true (Some "RAS") 1 1 1 2)) !! l = Some o) /\
  files (snd (reversal externals_Z true (Some "RAS") 1 1 1 2)) =
    files (world_with_predictions externals_Z true (Some "RAS") 1 1 1 2) /\
  self (snd (reversal externals_Z true (Some "RAS") 1 1 1 2)) =
    self (world_with_predictions externals_Z true (Some "RAS") 1 1 1 2) /\
  (forall canvas,
     fst (reversal externals_Z true (Some "RAS") 1 1 1 2) = Ok canvas ->
     heap (world_with_predictions externals_Z true (Some "RAS") 1 1 1 2) !! base canvas
       = None).
Proof.
  apply (@reverse_preprocessing_frame Z voxel_Z externals_Z
           (predictions_view 1 2) record_loc
           (world_with_predictions externals_Z true (Some "RAS") 1 1 1 2)).
  apply surjective_pairing.
Defined.

(** C8 on the training case: the second run is the skip. *)
Lemma preprocess_train_subject_idempotent_witness :
  let w := train_world externals_Z false [2; 1; 1]%Q [good_volume] good_label in
  let skipped (w0 : world Z) :=
    World (heap w0) (files w0)
          (trace w0 ++ [EvPrint "Preprocessing: case";
                        EvPrint "Case: case already exists. Skipping."])
          (self w0) in
  (is_Some (files w !! array_path) -> is_Some (files w !! pickle_path) ->
   train externals_Z w = (Ok tt, skipped w)) /\
  (forall w1, train externals_Z w = (Ok tt, w1) ->
              train externals_Z w1 = (Ok tt, skipped w1)).
Proof.
  exact (@preprocess_train_subject_idempotent Z voxel_Z externals_Z "case.nii.gz"
           "/data/preprocessed/Task000_Test/YuccaPlanner"
           (train_world externals_Z false [2; 1; 1]%Q [good_volume] good_label)
           eq_refl).
Defined.

(** C6 on a case with two modalities of spacings (1, 1, 1) and (1, 1, 2). *)
Lemma inconsistent_case_is_fatal_witness :
  let w := train_world externals_Z false [2; 1; 1]%Q
             [good_volume; stretched_volume] good_label in
  exists e, train externals_Z w = (Raise e, after_load w 2) /\
            files (after_load w 2) = files w.
Proof.
  intros w.
  apply (@inconsistent_case_is_fatal Z voxel_Z externals_Z "case.nii.gz"
           "/data/preprocessed/Task000_Test/YuccaPlanner" w
           (load_props 2) [good_volume; stretched_volume] good_label (after_load w 2)).
  - reflexivity.
  - reflexivity.
  - intros [[f Hf] _]. vm_compute in Hf. discriminate.
  - vm_compute. reflexivity.
  - apply (@spacing_mismatch Z externals_Z 3 [good_volume; stretched_volume] good_label
             good_volume stretched_volume).
    + reflexivity.
    + right. left.
    + vm_compute. discriminate.
Defined.

(** The exception of that run is the assertion on the spacings. *)
Lemma spacing_mismatch_example :
  fst (train externals_Z
         (train_world externals_Z false [2; 1; 1]%Q
            [good_volume; stretched_volume] good_label))
  = Raise (AssertionError "Spacings do not match for case").
Proof. vm_compute. reflexivity. Qed.




Lemma resampled_ok E w :
  is_ok (fst (resampled E w)) = true ->
  resampled E w = (Ok (resampled_images E w, resampled_label E w), snd (resampled E w)).
Proof.
  unfold resampled_images, resampled_label.
  destruct (resampled E w) as [[[i s]|e] w']; cbn; [reflexivity | discriminate].
Qed.


(** On that case the arrays come out with shape (1, 4, 3); under a plan
    without a target spacing they keep the shape (2, 4, 3). *)
Lemma resampling_target_shape_example :
  map shape (resampled_images externals_Z
               (train_world externals_Z false [2; 1; 1]%Q [good_volume] good_label))
    = [[1; 4; 3]] /\
  option_map shape (resampled_label externals_Z
               (train_world externals_Z false [2; 1; 1]%Q [good_volume] good_label))
    = Some [1; 4; 3] /\
  map shape (resampled_images externals_Z
               (train_world externals_Z false [] [good_volume] good_label))
    = [[2; 4; 3]].
Proof. vm_compute. repeat split; reflexivity. Qed.

Lemma run_unit_eq {V} (m : M V unit) (w : world V) :
  is_ok (fst (m w)) = true -> m w = (Ok tt, snd (m w)).
Proof. destruct (m w) as [[[]|e] w']; cbn; [reflexivity | discriminate]. Qed.



(** The amended C5 on the case; the second world has lost its files and
    its trace. *)
Lemma inference_tensor_and_record_witness :
  let props := forward_props externals_Z true (Some "RAS") 1 1 in
  let wr := world_with_predictions externals_Z true (Some "RAS") 1 1 1 2 in
  (exists padded, props !! "padded_shape" = Some (PInts padded) /\
                  shape (forward_tensor externals_Z true (Some "RAS") 1 1)
                    = 1 :: py_len [case_path] :: padded) /\
  is_Some (props !! "nonzero_box") /\
  is_Some (props !! "original_orientation") /\
  fst (reversal externals_Z true (Some "RAS") 1 1 1 2) =
  fst (@reverse_preprocessing Z voxel_Z externals_Z (predictions_view 1 2) record_loc
         (World (heap wr) ∅ [] (self wr))).
Proof.
  intros props wr.
  destruct (@inference_tensor_and_record Z voxel_Z externals_Z [case_path] [4; 4; 4]
              (case_world externals_Z true (Some "RAS") 1 1)
              (forward_tensor externals_Z true (Some "RAS") 1 1) props
              (snd (forward externals_Z true (Some "RAS") 1 1)))
    as (Hshape & _ & Hbox & Horientation & Hreads).
  { apply forward_ok. vm_compute. reflexivity. }
  split; [exact Hshape|].
  split; [apply Hbox; reflexivity|].
  split; [apply Horientation; vm_compute; reflexivity|].
  apply (Hreads (predictions_view 1 2) record_loc wr (World (heap wr) ∅ [] (self wr)) props).
  - vm_compute. reflexivity.
  - vm_compute. reflexivity.
  - reflexivity.
  - reflexivity.
  - reflexivity.
  - reflexivity.
Defined.

(** C5 as it is worded fails on a case without a coded header under a plan
    that does not crop: the record has neither [nonzero_box] nor
    [original_orientation]. *)
Lemma record_without_box_and_orientation :
  plans_crop_to_nonzero (case_plans false (Some "RAS")) = false /\
  is_ok (fst (forward externals_Z false (Some "RAS") 0 0)) = true /\
  forward_props externals_Z false (Some "RAS") 0 0 !! "nonzero_box" = None /\
  forward_props externals_Z false (Some "RAS") 0 0 !! "original_orientation" = None.
Proof. vm_compute. repeat split; reflexivity. Qed.

(** ** The further properties at work on concrete cases *)

Import Scenarios.

(** X1 on the inference case. *)
Lemma reverse_preprocessing_requires_witness :
  exists d U,
    heap (world_with_predictions externals_Z true (Some "RAS") 1 1 1 2) !! record_loc
      = Some (ODict d) /\
    d !! "uncropped_shape" = Some (PInts U) /\ Forall (Z.le 0) U /\
    is_Some (d !! "padded_shape") /\ is_Some (d !! "nonzero_box").
Proof.
  destruct (@reverse_preprocessing_requires Z voxel_Z externals_Z
              (predictions_view 1 2) record_loc
              (world_with_predictions externals_Z true (Some "RAS") 1 1 1 2)
              (match fst (reversal externals_Z true (Some "RAS") 1 1 1 2) with
               | Ok c => c
               | Raise _ => predictions_view 0 0
               end)
              (snd (reversal externals_Z true (Some "RAS") 1 1 1 2)))
    as (d & U & Cs & sact & pad & Hp & _ & HU & Hnn & _ & _ & _ & _ & Hloop).
  { apply (run_ok_eq (@reverse_preprocessing Z voxel_Z externals_Z
                        (predictions_view 1 2) record_loc)).
    vm_compute. reflexivity. }
  destruct (Hloop 1 2 [4; 4; 4] eq_refl ltac:(lia) ltac:(lia)) as ((Ps & HPs) & _ & Hbox).
  destruct (Hbox eq_refl) as (box & Hb).
  exists d, U. repeat split; eauto.
Defined.

(** X2 on a batch of two items. *)
Lemma reverse_preprocessing_capacity_witness :
  exists e, fst (reversal externals_Z true (Some "RAS") 1 1 2 2) = Raise e.
Proof.
  apply (@reverse_preprocessing_capacity Z voxel_Z externals_Z
           (predictions_view 2 2) record_loc
           (world_with_predictions externals_Z true (Some "RAS") 1 1 2 2)
           _ (snd (reversal externals_Z true (Some "RAS") 1 1 2 2)) 2 2 [4; 4; 4]).
  - reflexivity.
  - reflexivity.
  - left. lia.
  - apply surjective_pairing.
Defined.

(** X3 on a batch without items. *)
Lemma reverse_preprocessing_empty_batch_witness :
  exists U,
    fst (reversal externals_Z true (Some "RAS") 1 1 0 2)
      = Ok (View 3%positive (map (ARange 0) (1 :: 2 :: U))) /\
    heap (snd (reversal externals_Z true (Some "RAS") 1 1 0 2)) !! 3%positive
      = Some (OArray (NdArray (1 :: 2 :: U) (fun _ => 0))).
Proof.
  pose proof (@reverse_preprocessing_empty_batch Z voxel_Z externals_Z
                (predictions_view 0 2) record_loc
                (world_with_predictions externals_Z true (Some "RAS") 1 1 0 2)
                (forward_props externals_Z true (Some "RAS") 1 1)
                (PInts [4; 4; 4]) [4; 4; 4] [2; 4; 3] [2; 4; 3] [1; 2; 0; 0; 0; 1]
                0 [2; 4; 4; 4]) as H.
  exists [4; 4; 4].
  unfold reversal. rewrite H.
  - split; reflexivity.
  - vm_compute. reflexivity.
  - vm_compute. reflexivity.
  - vm_compute. reflexivity.
  - repeat constructor; lia.
  - vm_compute. reflexivity.
  - vm_compute. reflexivity.
  - vm_compute. reflexivity.
  - reflexivity.
  - left. lia.
Defined.

(** X4 on predictions one voxel too long along the last axis. *)
Lemma reverse_preprocessing_rejects_shape_witness :
  fst (@reverse_preprocessing Z voxel_Z externals_Z
         (View 1%positive (map (ARange 0) [1; 2; 4; 4; 5])) record_loc
         world_with_long_predictions)
  = Raise (AssertionError "Reversing padding: image should be of shape: padded_shape").
Proof.
  rewrite (@reverse_preprocessing_rejects_shape Z voxel_Z externals_Z
             (View 1%positive (map (ARange 0) [1; 2; 4; 4; 5])) record_loc
             world_with_long_predictions
             (forward_props externals_Z true (Some "RAS") 1 1)
             (PInts [4; 4; 4]) [4; 4; 4] [2; 4; 3] [2; 4; 3] [1; 2; 0; 0; 0; 1]
             [4; 4; 4] 1 2 [4; 4; 5]).
  - reflexivity.
  - vm_compute. reflexivity.
  - vm_compute. reflexivity.
  - vm_compute. reflexivity.
  - repeat constructor; lia.
  - vm_compute. reflexivity.
  - vm_compute. reflexivity.
  - vm_compute. reflexivity.
  - vm_compute. reflexivity.
  - reflexivity.
  - lia.
  - lia.
  - vm_compute. reflexivity.
Defined.


(** X6 on the inference case. *)
Lemma preprocess_case_for_inference_effects_witness :
  let w := case_world externals_Z true (Some "RAS") 1 1 in
  heap (snd (forward externals_Z true (Some "RAS") 1 1)) = heap w /\
  files (snd (forward externals_Z true (Some "RAS") 1 1)) = files w /\
  self (snd (forward externals_Z true (Some "RAS") 1 1)) = initialized (self w).
Proof.
  intros w.
  apply (@preprocess_case_for_inference_effects Z voxel_Z externals_Z
           [case_path] [4; 4; 4] w (fst (forward externals_Z true (Some "RAS") 1 1))).
  apply surjective_pairing.
Defined.

(** X7 on the training case with no normalisation scheme for its one array. *)
Lemma resample_counts_must_agree_witness :
  let w := train_world externals_Z false [2; 1; 1]%Q [good_volume] good_label in
  @_resample_and_normalize_case Z externals_Z [cropped_image] (Some cropped_label)
    [] [0; 1; 2] [1; 1; 1]%Q [2; 1; 1]%Q w
  = (Raise (AssertionError
              "number of images, normalization  operations and intensities does not match."),
     w).
Proof.
  intros w.
  apply (@resample_counts_must_agree Z externals_Z [cropped_image] (Some cropped_label)
           [] [0; 1; 2] [1; 1; 1]%Q [2; 1; 1]%Q [∅] w).
  - reflexivity.
  - cbn. intros [H _]. discriminate H.
Defined.

(** X8 on the training case with a transpose of two axes for its array of
    three. *)
Lemma resample_rank_mismatch_is_attribute_error_witness :
  let w := train_world externals_Z false [2; 1; 1]%Q [good_volume] good_label in
  @_resample_and_normalize_case Z externals_Z [cropped_image] (Some cropped_label)
    ["no_norm"] [0; 1] [1; 1; 1]%Q [2; 1; 1]%Q w
  = (Raise (AttributeError "shape"), w).
Proof.
  intros w.
  apply (@resample_rank_mismatch_is_attribute_error Z externals_Z
           [cropped_image] (Some cropped_label) ["no_norm"] [0; 1] [1; 1; 1]%Q [2; 1; 1]%Q
           [∅] 0%nat cropped_image "no_norm" ∅ cropped_image w).
  - reflexivity.
  - reflexivity.
  - reflexivity.
  - reflexivity.
  - reflexivity.
  - reflexivity.
  - vm_compute. reflexivity.
  - discriminate.
  - intros H. vm_compute in H. discriminate H.
  - intros j a sc s Hj. lia.
Defined.

(** X9 on a volume with four axes. *)
Lemma preprocess_case_for_inference_rejects_witness :
  @preprocess_case_for_inference Z voxel_Z externals_Z [case_path] [4; 4; 4] world_4d
  = (Raise (AssertionError "images must be either 2D or 3D for preprocessing"),
     World (heap world_4d) (files world_4d) [EvLoad case_path]
           (initialized (self world_4d))).
Proof.
  destruct (@preprocess_case_for_inference_rejects Z voxel_Z externals_Z
              [case_path] [image_4d] [4; 4; 4] world_4d) as [_ H].
  - repeat constructor.
  - apply (H image_4d).
    + reflexivity.
    + intros E. vm_compute in E. discriminate E.
    + intros E. vm_compute in E. discriminate E.
Defined.

(** X10 on the inference case under a plan without a target spacing. *)
Lemma inference_needs_target_spacing_witness :
  exists e,
    fst (@preprocess_case_for_inference Z voxel_Z externals_Z [case_path] [4; 4; 4]
           world_without_spacing) = Raise e.
Proof.
  apply (@inference_needs_target_spacing Z voxel_Z externals_Z [case_path] [4; 4; 4]
           world_without_spacing _
           (snd (@preprocess_case_for_inference Z voxel_Z externals_Z [case_path] [4; 4; 4]
                   world_without_spacing))).
  - reflexivity.
  - discriminate.
  - apply surjective_pairing.
Defined.


(** X12 on the arrays of the training case. *)
Lemma saved_array_layout_witness :
  let w := train_world externals_Z false [2; 1; 1]%Q [good_volume] good_label in
  exists a d,
    files (snd (saving w)) !! array_path = Some (FNpy a) /\
    files (snd (saving w)) !! pickle_path = Some (FPkl d) /\
    shape a = [2; 1; 4; 3] /\
    (forall i, data a (0 :: i) = case_data i) /\
    (forall i, data a (1 :: i) = label_data 1 i) /\
    d !! "new_size" = Some (PInts [1; 4; 3]).
Proof.
  intros w.
  destruct (@saved_array_layout Z voxel_Z externals_Z "case" array_path pickle_path ∅
              [resampled_image] resampled_label_array [1; 1; 1]%Q [4; 4; 4] "RAS" "RAS"
              [2; 1; 1]%Q w (snd (saving w)))
    as (a & d & Ha & Hd & Hsh & _ & Hk & Hl & Hn & _).
  - discriminate.
  - discriminate.
  - repeat constructor; discriminate.
  - intros E. vm_compute in E. discriminate E.
  - apply (run_unit_eq (@save_train_subject Z voxel_Z externals_Z "case" array_path
                          pickle_path ∅ [resampled_image] resampled_label_array
                          [1; 1; 1]%Q [4; 4; 4] "RAS" "RAS" [2; 1; 1]%Q)).
    vm_compute. reflexivity.
  - exists a, d. repeat split; try assumption.
    intros i. exact (Hk 0%nat resampled_image i eq_refl).
Defined.

(** X13 on a subject whose modality files are missing. *)
Lemma subject_without_modalities_witness :
  let w := train_world externals_Z false [2; 1; 1]%Q [] good_label in
  train externals_Z w
  = (Raise (AssertionError "found no images for case_"), after_load w 0).
Proof.
  intros w.
  apply (@subject_without_modalities Z voxel_Z externals_Z "case.nii.gz"
           "/data/preprocessed/Task000_Test/YuccaPlanner" w
           (load_props 0) good_label (after_load w 0)).
  - reflexivity.
  - intros [[x H] _]. vm_compute in H. discriminate H.
  - vm_compute. reflexivity.
Defined.

(** X14 on the training case under a plan without a target. *)
Lemma coded_header_needs_target_witness :
  train externals_Z world_without_target
  = (Raise (KeyError "target_coordinate_system"), after_load world_without_target 1).
Proof.
  apply (@coded_header_needs_target Z voxel_Z externals_Z "case.nii.gz"
           "/data/preprocessed/Task000_Test/YuccaPlanner" world_without_target
           (load_props 1) [good_volume] good_label (after_load world_without_target 1)
           good_volume).
  - reflexivity.
  - intros [[x H] _]. vm_compute in H. discriminate H.
  - vm_compute. reflexivity.
  - vm_compute. reflexivity.
  - reflexivity.
  - reflexivity.
  - reflexivity.
Defined.


(** X16 on the training case. *)
Lemma training_record_keys_witness :
  let w := train_world externals_Z false [2; 1; 1]%Q [good_volume] good_label in
  exists d,
    files (snd (train externals_Z w)) !! pickle_path = Some (FPkl d) /\
    dom d = {["image files"; "segmentation file"; "crop_to_nonzero";
              "original_spacing"; "original_size"; "original_orientation"; "new_spacing";
              "new_size"; "new_direction"; "foreground_locations"; "n_cc"; "size_cc"]} /\
    exists box, d !! "crop_to_nonzero" = Some (PInts box).
Proof.
  intros w.
  apply (@training_record_keys Z voxel_Z externals_Z "case.nii.gz"
           "/data/preprocessed/Task000_Test/YuccaPlanner" w (snd (train externals_Z w))).
  - reflexivity.
  - intros [[x H] _]. vm_compute in H. discriminate H.
  - apply (run_unit_eq (@_preprocess_train_subject Z voxel_Z externals_Z "case.nii.gz")).
    vm_compute. reflexivity.
Defined.

(** X17 on the training case: its record next to the predictions of the
    inference case. *)
Lemma training_record_is_not_reversible_witness :
  let w := train_world externals_Z false [2; 1; 1]%Q [good_volume] good_label in
  exists d,
    files (snd (train externals_Z w)) !! pickle_path = Some (FPkl d) /\
    forall images p (w2 : world Z),
      heap w2 !! p = Some (ODict d) ->
      @reverse_preprocessing Z voxel_Z externals_Z images p w2
        = (Raise (KeyError "original_shape"), w2).
Proof.
  intros w.
  apply (@training_record_is_not_reversible Z voxel_Z externals_Z "case.nii.gz"
           "/data/preprocessed/Task000_Test/YuccaPlanner" w (snd (train externals_Z w))).
  - reflexivity.
  - intros [[x H] _]. vm_compute in H. discriminate H.
  - apply (run_unit_eq (@_preprocess_train_subject Z voxel_Z externals_Z "case.nii.gz")).
    vm_compute. reflexivity.
Defined.

(** X18 on the training case. *)
Lemma preprocess_train_subject_events_witness :
  let w := train_world externals_Z false [2; 1; 1]%Q [good_volume] good_label in
  exists evs, trace (snd (train externals_Z w)) = (trace w ++ evs)%list /\
              Forall (own_event (self w) "case") evs.
Proof.
  intros w.
  apply (@preprocess_train_subject_events Z voxel_Z externals_Z "case.nii.gz" w
           (fst (train externals_Z w))).
  apply surjective_pairing.
Defined.
